(** * youtube_api_grab_subs: a shallow embedding of [VideoGetter]

    The development follows [youtube_api_grab_subs.py]:

    - [Py]      the Python string primitives the script relies on
                ([str.split], [str.strip], [str.join], truthiness);
    - [Re]      a backtracking matcher for the fragment of [re] the two
                patterns of the program need (the subtitle pattern of
                [get_subtitles] and the pattern [pandas.to_datetime] builds
                from the format [%Y%m%d_%H%M%S]);
    - [Srt]     the loop of [get_subtitles] over the decoded payload;
    - [Time]    timestamps, [to_datetime] with an explicit format, [strftime];
    - [Crawler] the class [VideoGetter]: its attributes, the directory
                [by_title], the API client as an oracle, and the methods
                [get_extreme_video_date], [get_asr_caption_id],
                [get_subtitles] and [_get_search_videos];
    - [Spec]    the vocabulary of the statements; [Samples] some clients;
    - [More]    the constructor, the costs and the cursor; [Blocks] the
                blocks of a payload;
    - the facts about strings, the matcher, the parser and the crawl, and
      then the properties of the parser, of the scan and of the crawl.

    Text is modelled over 8-bit characters ([string] of the standard
    library); on that range [\d] is [0-9] and Python's whitespace is the set
    listed in [Py.is_space]. *)

From Stdlib Require Import String Ascii List ZArith Lia Bool Permutation.
Import ListNotations.

Local Open Scope string_scope.
Local Open Scope list_scope.

(* ================================================================== *)
(** ** Python values and string primitives *)

Module Py.

(** The values a [namedtuple] field holds in this program. *)
Inductive PyVal : Type :=
| PyNone
| PyInt (n : Z)
| PyStr (s : string).

Definition nl : string := String (ascii_of_nat 10) "".

Definition is_digit (c : ascii) : bool :=
  let n := nat_of_ascii c in (48 <=? n)%nat && (n <=? 57)%nat.

(** [str.isspace] on code points below 256. *)
Definition is_space (c : ascii) : bool :=
  let n := nat_of_ascii c in
  ((9 <=? n)%nat && (n <=? 13)%nat)
  || ((28 <=? n)%nat && (n <=? 32)%nat)
  || (n =? 133)%nat || (n =? 160)%nat.

Definition is_newline (c : ascii) : bool := (nat_of_ascii c =? 10)%nat.

(** Truthiness of a string: [if s:] / [if not s:]. *)
Definition truthy (s : string) : bool :=
  match s with EmptyString => false | String _ _ => true end.

Fixpoint lstrip (s : string) : string :=
  match s with
  | String c s' => if is_space c then lstrip s' else s
  | EmptyString => EmptyString
  end.

Fixpoint rstrip (s : string) : string :=
  match s with
  | EmptyString => EmptyString
  | String c s' =>
      match rstrip s' with
      | EmptyString => if is_space c then EmptyString else String c EmptyString
      | r => String c r
      end
  end.

(** [s.strip()] *)
Definition strip (s : string) : string := rstrip (lstrip s).

(** [s.startswith(p)], returning what follows the prefix. *)
Fixpoint drop_prefix (p s : string) : option string :=
  match p with
  | EmptyString => Some s
  | String a p' =>
      match s with
      | String b s' => if Ascii.eqb a b then drop_prefix p' s' else None
      | EmptyString => None
      end
  end.

(** The scan behind [s.split(sep, maxsplit)] for a non-empty [sep]:
    [budget] is the number of cuts still allowed, [skip] the number of
    characters of a separator just found that are still to be passed
    over, [cur] the piece being collected. *)
Fixpoint split_scan (sep : string) (budget skip : nat) (cur s : string)
  : list string :=
  match s with
  | EmptyString => [cur]
  | String c s' =>
      match skip with
      | S k => split_scan sep budget k cur s'
      | O =>
          match budget with
          | O => split_scan sep O O (cur ++ String c "")%string s'
          | S b =>
              match drop_prefix sep s with
              | Some _ => cur :: split_scan sep b (String.length sep - 1) "" s'
              | None => split_scan sep budget O (cur ++ String c "")%string s'
              end
          end
      end
  end.

(** [s.split(sep)] *)
Definition split (sep s : string) : list string :=
  split_scan sep (String.length s) 0 "" s.

(** [s.split(sep, maxsplit)] *)
Definition split_max (sep : string) (maxsplit : nat) (s : string)
  : list string :=
  split_scan sep maxsplit 0 "" s.

(** [sep.join(parts)] *)
Fixpoint join (sep : string) (parts : list string) : string :=
  match parts with
  | [] => ""
  | [p] => p
  | p :: rest => (p ++ sep ++ join sep rest)%string
  end.

(** [int(s)] on a string of ASCII digits. *)
Definition digit_val (c : ascii) : Z := Z.of_nat (nat_of_ascii c) - 48.

Fixpoint int_acc (acc : Z) (s : string) : Z :=
  match s with
  | EmptyString => acc
  | String c s' => int_acc (10 * acc + digit_val c) s'
  end.

(** [int(s)]: surrounding whitespace is ignored. *)
Definition int (s : string) : Z := int_acc 0 (strip s).

(** The exceptions that occur in the program. [ValueError] stands
    for the class with its subclasses: the [OutOfBoundsDatetime] of
    pandas is one. *)
Inductive Exn : Type :=
| HttpError (status : Z)
| TypeError
| ValueError
| IndexError
| UnicodeDecodeError
| RecursionError.

Inductive Result (A : Type) : Type :=
| Ok (a : A)
| Raise (e : Exn).
Arguments Ok {A} a.
Arguments Raise {A} e.

End Py.

(* ================================================================== *)
(** ** The fragment of [re] used by the program *)

Module Re.

Definition cls := ascii -> bool.

(** Patterns: a literal, a greedy repetition of a character class
    ([c+], [c*]), an alternation of fixed-width sequences of classes
    (as in [1[0-2]|0[1-9]|[1-9]]) and a named group. A pattern is the
    concatenation of a list of these. *)
Inductive re : Type :=
| Lit (s : string)
| Plus (p : cls)
| Star (p : cls)
| Alt (alts : list (list cls))
| Group (name : string) (r : re).

Definition caps := list (string * string).

(** Every way [c*] can match at the start of [s], longest first:
    the order in which a backtracking matcher tries them. *)
Fixpoint runs (p : cls) (s : string) : list (string * string) :=
  match s with
  | String c s' =>
      if p c
      then map (fun tr => (String c (fst tr), snd tr)) (runs p s') ++ [("", s)]
      else [("", s)]
  | EmptyString => [("", "")]
  end.

(** A fixed-width sequence of classes. *)
Fixpoint fixed (cs : list cls) (s : string) : option (string * string) :=
  match cs with
  | [] => Some ("", s)
  | p :: cs' =>
      match s with
      | String c s' =>
          if p c
          then match fixed cs' s' with
               | Some (t, r) => Some (String c t, r)
               | None => None
               end
          else None
      | EmptyString => None
      end
  end.

Definition opt_list {A} (o : option A) : list A :=
  match o with Some a => [a] | None => [] end.

(** All matches of one item at the start of [s], in the order a
    backtracking matcher explores them: (matched text, groups set
    inside, remaining input). *)
Fixpoint m_re (r : re) (s : string) : list (string * caps * string) :=
  match r with
  | Lit l =>
      match Py.drop_prefix l s with
      | Some rest => [(l, [], rest)]
      | None => []
      end
  | Plus p =>
      match s with
      | String c s' =>
          if p c
          then map (fun tr => (String c (fst tr), [], snd tr)) (runs p s')
          else []
      | EmptyString => []
      end
  | Star p => map (fun tr => (fst tr, [], snd tr)) (runs p s)
  | Alt alts =>
      flat_map (fun a => map (fun tr => (fst tr, [], snd tr))
                             (opt_list (fixed a s))) alts
  | Group name r' =>
      map (fun m => let '(t, cs, rest) := m in (t, (name, t) :: cs, rest))
          (m_re r' s)
  end.

(** All matches of a concatenation, in exploration order. *)
Fixpoint m_seq (rs : list re) (s : string) : list (caps * string) :=
  match rs with
  | [] => [([], s)]
  | r :: rs' =>
      flat_map (fun m => let '(_, cs, rest) := m in
                         map (fun m' => (cs ++ fst m', snd m')) (m_seq rs' rest))
               (m_re r s)
  end.

(** [re.match(pattern, s)]: the first match at position 0, as the
    groups and the input left after the match. *)
Definition re_match (rs : list re) (s : string) : option (caps * string) :=
  hd_error (m_seq rs s).

(** [re.search(pattern, s)]: the first match at the leftmost position
    that has one. *)
Fixpoint re_search (rs : list re) (s : string) : option (caps * string) :=
  match re_match rs s with
  | Some m => Some m
  | None =>
      match s with
      | String _ s' => re_search rs s'
      | EmptyString => None
      end
  end.

Fixpoint lookup (name : string) (cs : caps) : option string :=
  match cs with
  | [] => None
  | (n, v) :: cs' => if String.eqb n name then Some v else lookup name cs'
  end.

(** One entry of [match.groupdict()]: the text of a group, [None] for
    a group that took no part in the match. *)
Definition group (cs : caps) (name : string) : Py.PyVal :=
  match lookup name cs with
  | Some v => Py.PyStr v
  | None => Py.PyNone
  end.

End Re.

(* ================================================================== *)
(** ** [get_subtitles]: the parsing loop *)

Module Srt.
Import Py Re.

(** [SubtitleMsg = namedtuple("SubtitleLine", "idx, start, end, text")] *)
Record SubtitleMsg : Type := mkSubtitleMsg {
  idx : PyVal;
  start : PyVal;
  end_ : PyVal;
  text : PyVal
}.

(** The class [[\d+|:|,]]: a digit or one of [+ | : ,]. *)
Definition is_time_char (c : ascii) : bool :=
  is_digit c
  || Ascii.eqb c "+" || Ascii.eqb c "|" || Ascii.eqb c ":" || Ascii.eqb c ",".

(** [.]: any character but a line break. *)
Definition is_dot (c : ascii) : bool := negb (is_newline c).

(** The compiled pattern of [get_subtitles]: a group [idx] of one or
    more digits, a line break, a group [start] of one or more
    characters of the class, the text [ --> ], a group [end] of the
    same shape, a line break, and a group [text] of any number of
    characters other than a line break. *)
Definition pattern : list re :=
  [ Group "idx" (Plus is_digit); Lit nl;
    Group "start" (Plus is_time_char); Lit " --> ";
    Group "end" (Plus is_time_char); Lit nl;
    Group "text" (Star is_dot) ].

(** The [SubtitleMsg] built from the keyword arguments
    [search_res.groupdict()]. *)
Definition of_groupdict (cs : caps) : SubtitleMsg :=
  {| idx := group cs "idx"; start := group cs "start";
     end_ := group cs "end"; text := group cs "text" |}.

(** The body of the loop of [get_subtitles] for one piece of the
    payload: [result] is the list built so far. *)
Definition parse_step (result : list SubtitleMsg) (line : string)
  : list SubtitleMsg :=
  let line := strip line in
  if negb (truthy line) then result
  else match re_search pattern line with
       | Some (cs, _) => result ++ [of_groupdict cs]
       | None => result
       end.

(** The loop [for line in subtitle.split("\n\n"): ...] on the decoded
    payload, returning [result]. *)
Definition parse (subtitle : string) : list SubtitleMsg :=
  fold_left parse_step (split (nl ++ nl) subtitle) [].

End Srt.

(* ================================================================== *)
(** ** Timestamps, [to_datetime] and [strftime] *)

Module Time.
Import Py Re.
Local Open Scope Z_scope.

(** A [pandas.Timestamp] in UTC, as whole seconds since 1970-01-01
    (the program formats and compares timestamps to the second). *)
Definition Timestamp := Z.

Definition is_leap (y : Z) : bool :=
  ((y mod 4 =? 0) && negb (y mod 100 =? 0)) || (y mod 400 =? 0).

Definition days_in_month (y m : Z) : Z :=
  if m =? 2 then (if is_leap y then 29 else 28)
  else if (m =? 4) || (m =? 6) || (m =? 9) || (m =? 11) then 30
  else 31.

(** Days from 1970-01-01 to a date of the proleptic Gregorian calendar. *)
Definition days_from_civil (y m d : Z) : Z :=
  let y' := if m <=? 2 then y - 1 else y in
  let era := y' / 400 in
  let yoe := y' - era * 400 in
  let doy := (153 * (if 2 <? m then m - 3 else m + 9) + 2) / 5 + d - 1 in
  let doe := yoe * 365 + yoe / 4 - yoe / 100 + doy in
  era * 146097 + doe - 719468.

(** The inverse: (year, month, day) of a day number. *)
Definition civil_from_days (z : Z) : Z * Z * Z :=
  let z := z + 719468 in
  let era := z / 146097 in
  let doe := z - era * 146097 in
  let yoe := (doe - doe / 1460 + doe / 36524 - doe / 146096) / 365 in
  let y := yoe + era * 400 in
  let doy := doe - (365 * yoe + yoe / 4 - yoe / 100) in
  let mp := (5 * doy + 2) / 153 in
  let d := doy - (153 * mp + 2) / 5 + 1 in
  let m := if mp <? 10 then mp + 3 else mp - 9 in
  (if m <=? 2 then y + 1 else y, m, d).

Definition utc (y m d hh mm ss : Z) : Timestamp :=
  days_from_civil y m d * 86400 + hh * 3600 + mm * 60 + ss.

(** The range of a [Timestamp], whose value is a 64-bit count of
    nanoseconds. *)
Definition in_bounds (t : Timestamp) : bool :=
  (-9223372036 <=? t) && (t <=? 9223372036).

Definition any_digit : cls := is_digit.
Definition one (a : ascii) : cls := Ascii.eqb a.
Definition range (lo hi : ascii) : cls :=
  fun c => ((nat_of_ascii lo <=? nat_of_ascii c)%nat
            && (nat_of_ascii c <=? nat_of_ascii hi)%nat).

(** The regular expression [to_datetime] compiles from the format
    [%Y%m%d_%H%M%S]: each directive is replaced by its group
    (four digits for [%Y]; for the others the alternatives of the
    strptime table, two-digit forms first). *)
Definition format_regex : list re :=
  [ Group "Y" (Alt [[any_digit; any_digit; any_digit; any_digit]]);
    Group "m" (Alt [[one "1"; range "0" "2"]; [one "0"; range "1" "9"];
                    [range "1" "9"]]);
    Group "d" (Alt [[one "3"; range "0" "1"]; [range "1" "2"; any_digit];
                    [one "0"; range "1" "9"]; [range "1" "9"];
                    [one " "; range "1" "9"]]);
    Lit "_";
    Group "H" (Alt [[one "2"; range "0" "3"]; [range "0" "1"; any_digit];
                    [any_digit]]);
    Group "M" (Alt [[range "0" "5"; any_digit]; [any_digit]]);
    Group "S" (Alt [[one "6"; range "0" "1"]; [range "0" "5"; any_digit];
                    [any_digit]]) ].

Definition directive (cs : caps) (name : string) (default : Z) : Z :=
  match lookup name cs with
  | Some v => int v
  | None => default
  end.

(** [pd.to_datetime(date, format="%Y%m%d_%H%M%S", utc=True)] on one
    string: the whole string has to match the format, the date has to
    exist and the instant has to be in the range of a [Timestamp];
    otherwise a [ValueError] is raised (for an instant out of range, its
    subclass [OutOfBoundsDatetime]). *)
Definition to_datetime (date : string) : Result Timestamp :=
  match re_match format_regex date with
  | None => Raise ValueError
  | Some (cs, rest) =>
      if truthy rest then Raise ValueError
      else
        let year := directive cs "Y" 1900 in
        let month := directive cs "m" 1 in
        let day := directive cs "d" 1 in
        let hour := directive cs "H" 0 in
        let minute := directive cs "M" 0 in
        let second := directive cs "S" 0 in
        if (year <? 1) || (days_in_month year month <? day)
        then Raise ValueError
        else
          let t := utc year month day hour minute second in
          if in_bounds t then Ok t else Raise ValueError
  end.

Definition digit_char (n : Z) : ascii := ascii_of_nat (48 + Z.to_nat (n mod 10)).

Definition pad2 (n : Z) : string :=
  String (digit_char (n / 10)) (String (digit_char n) "").

Definition pad4 (n : Z) : string :=
  String (digit_char (n / 1000))
    (String (digit_char (n / 100)) (pad2 n)).

(** The fields of a timestamp in UTC. *)
Definition field (t : Timestamp) (d : ascii) : option string :=
  let '(y, m, dd) := civil_from_days (t / 86400) in
  let sod := t mod 86400 in
  if Ascii.eqb d "Y" then Some (pad4 y)
  else if Ascii.eqb d "m" then Some (pad2 m)
  else if Ascii.eqb d "d" then Some (pad2 dd)
  else if Ascii.eqb d "H" then Some (pad2 (sod / 3600))
  else if Ascii.eqb d "M" then Some (pad2 (sod mod 3600 / 60))
  else if Ascii.eqb d "S" then Some (pad2 (sod mod 60))
  else None.

(** [t.strftime(fmt)] for the directives the program uses; any other
    character is copied. *)
Fixpoint strftime (fmt : string) (t : Timestamp) : string :=
  match fmt with
  | EmptyString => EmptyString
  | String c rest =>
      match rest with
      | String d rest' =>
          if Ascii.eqb c "%"
          then match field t d with
               | Some f => (f ++ strftime rest' t)%string
               | None => String c (strftime rest t)
               end
          else String c (strftime rest t)
      | EmptyString => String c EmptyString
      end
  end.

End Time.

(* ================================================================== *)
(** ** The class [VideoGetter] *)

Module Crawler.
Import Py Re Srt Time.

(** *** Data of the API and of the program *)

(** One entry of [response["items"]] of a search: [publishedAt] is
    the value of [pd.Timestamp(item["snippet"]["publishedAt"])]. *)
Record SearchItem : Type := mkSearchItem {
  publishedAt : Timestamp;
  videoId : string;
  snippet_title : string
}.

Record SearchResponse : Type := mkSearchResponse {
  items : list SearchItem;
  nextPageToken : option string
}.

(** One entry of [response["items"]] of [captions().list]. *)
Record CaptionItem : Type := mkCaptionItem {
  caption_id : string;
  trackKind : string
}.

(** The bytes [captions().download] returns, by what
    [decode("utf-8")] makes of them. *)
Inductive Payload : Type :=
| Utf8 (decoded : string)
| NotUtf8.

(** The API client: what [execute()] returns or raises for each of
    the three requests. *)
Record Client : Type := mkClient {
  search_list :
    option string -> option string -> option string -> Result SearchResponse;
  captions_list : string -> Result (list CaptionItem);
  captions_download : string -> Result Payload
}.

(** [Video = namedtuple("Video", "uploaded, video_id, title, sub_idx,
    sub_start, sub_end, sub_text")] *)
Record Video : Type := mkVideo {
  uploaded : Timestamp;
  video_id : string;
  title : string;
  sub_idx : PyVal;
  sub_start : PyVal;
  sub_end : PyVal;
  sub_text : PyVal
}.

(** A row of the written table: the columns
    [video_id, title, sub_start, sub_text]. *)
Definition Row : Type := (string * string * PyVal * PyVal)%type.

Definition columns (v : Video) : Row :=
  (video_id v, title v, sub_start v, sub_text v).

(** What the program does to the outside, in order. The [print]
    calls are left out. *)
Inductive Event : Type :=
| SearchList (publishedAfter publishedBefore pageToken : option string)
| CaptionsList (videoId : string)
| CaptionsDownload (id : string)
| ToCsv (path : string) (rows : list Row).

(** The attributes of the object. *)
Record Self : Type := mkSelf {
  get_latest : bool;
  get_after_least : bool;
  GRAB_BEFORE : option string;
  GRAB_AFTER : option string
}.

(** The object, the files (path and rows, in the order the file
    system lists them) and the events so far. *)
Record World : Type := mkWorld {
  self : Self;
  files : list (string * list Row);
  trace : list Event
}.

Definition DIR_NAME : string := "by_title".

(** *** Computations that change the world and may raise *)

Definition M (A : Type) : Type := World -> Result A * World.

Definition ret {A} (a : A) : M A := fun w => (Ok a, w).

Definition raise {A} (e : Exn) : M A := fun w => (Raise e, w).

Definition bind {A B} (m : M A) (f : A -> M B) : M B :=
  fun w =>
    match m w with
    | (Ok a, w') => f a w'
    | (Raise e, w') => (Raise e, w')
    end.

(** [try: m  except ...: h e] *)
Definition try_except {A} (m : M A) (h : Exn -> M A) : M A :=
  fun w =>
    match m w with
    | (Ok a, w') => (Ok a, w')
    | (Raise e, w') => h e w'
    end.

Notation "x <- m ;; k" := (bind m (fun x => k))
  (at level 61, m at next level, right associativity).
Notation "m ;;; k" := (bind m (fun _ => k))
  (at level 61, right associativity).

Definition lift {A} (r : Result A) : M A := fun w => (r, w).

Definition emit (e : Event) : M unit :=
  fun w => (Ok tt, {| self := self w; files := files w;
                      trace := trace w ++ [e] |}).

Definition get_self : M Self := fun w => (Ok (self w), w).

Definition set_self (s : Self) : M unit :=
  fun w => (Ok tt, {| self := s; files := files w; trace := trace w |}).

(** *** The directory *)

Fixpoint has_char (a : ascii) (s : string) : bool :=
  match s with
  | EmptyString => false
  | String c s' => Ascii.eqb a c || has_char a s'
  end.

Fixpoint ends_with (suffix s : string) : bool :=
  String.eqb suffix s
  || match s with
     | String _ s' => ends_with suffix s'
     | EmptyString => false
     end.

(** Whether a path is one [glob.glob("by_title/*.csv")] returns: a
    file of the directory itself whose name ends in [.csv] and does not
    start with a dot. *)
Definition glob_match (path : string) : bool :=
  match drop_prefix (DIR_NAME ++ "/") path with
  | Some name =>
      negb (has_char "/" name) && ends_with ".csv" name
      && negb (match name with String c _ => Ascii.eqb c "." | _ => false end)
  | None => false
  end.

Definition glob_paths (fs : list (string * list Row)) : list string :=
  filter glob_match (map fst fs).

Definition glob (w : World) : list string := glob_paths (files w).

Fixpoint write_file (path : string) (rows : list Row)
         (fs : list (string * list Row)) : list (string * list Row) :=
  match fs with
  | [] => [(path, rows)]
  | (p, r) :: fs' =>
      if String.eqb p path then (path, rows) :: fs'
      else (p, r) :: write_file path rows fs'
  end.

(** [DataFrame(...)[[...]].to_csv(path_or_buf=path, ...)]. The write
    is taken to succeed: the directory of [path] is there, as it is for
    the file of a video whose id holds no slash. *)
Definition to_csv (path : string) (rows : list Row) : M unit :=
  fun w => (Ok tt, {| self := self w;
                      files := write_file path rows (files w);
                      trace := trace w ++ [ToCsv path rows] |}).

(** *** [get_extreme_video_date] *)

(** The dictionary [{"last": ..., "oldest": ...}]. *)
Record Extreme : Type := mkExtreme {
  last : Timestamp;
  oldest : Timestamp
}.

(** [max(dates)] and [min(dates)] on a list whose first element is
    [d]: the first greatest, the first least. *)
Definition py_max (d : Timestamp) (ds : list Timestamp) : Timestamp :=
  fold_left (fun m x => if (m <? x)%Z then x else m) ds d.

Definition py_min (d : Timestamp) (ds : list Timestamp) : Timestamp :=
  fold_left (fun m x => if (x <? m)%Z then x else m) ds d.

(** The date of one file: [file_name = one_file.split("/", 1)[1]],
    [date = "_".join(file_name.split("_", 2)[:2])], then
    [to_datetime]. *)
Definition file_date (one_file : string) : Result Timestamp :=
  match split_max "/" 1 one_file with
  | _ :: file_name :: _ =>
      let date := join "_" (firstn 2 (split_max "_" 2 file_name)) in
      to_datetime date
  | _ => Raise IndexError
  end.

(** The loop over the files: [dates] is the list built so far. *)
Fixpoint collect_dates (paths : list string) (dates : list Timestamp)
  : Result (list Timestamp) :=
  match paths with
  | [] => Ok dates
  | one_file :: rest =>
      match file_date one_file with
      | Ok d => collect_dates rest (dates ++ [d])
      | Raise e => Raise e
      end
  end.

(** The method on the list [glob.glob(...)] returned. *)
Definition extreme_of (paths : list string) : Result (option Extreme) :=
  match collect_dates paths [] with
  | Raise e => Raise e
  | Ok [] => Ok None
  | Ok (d :: ds) =>
      Ok (Some {| last := py_max d ds; oldest := py_min d ds |})
  end.

Definition get_extreme_video_date : M (option Extreme) :=
  fun w => (extreme_of (glob w), w).

(** [r["last"]] and [r["oldest"]] on the value returned: subscripting
    [None] raises [TypeError]. *)
Definition subscript (key : Extreme -> Timestamp) (r : option Extreme)
  : M Timestamp :=
  match r with
  | Some e => ret (key e)
  | None => raise TypeError
  end.

Section WithClient.

Variable client : Client.

(** *** [get_asr_caption_id] *)

Fixpoint first_asr (tracks : list CaptionItem) : option string :=
  match tracks with
  | [] => None
  | item :: rest =>
      if String.eqb (trackKind item) "ASR" then Some (caption_id item)
      else first_asr rest
  end.

Definition get_asr_caption_id (video_id : string) : M (option string) :=
  emit (CaptionsList video_id) ;;;
  response <- lift (captions_list client video_id) ;;
  ret (first_asr response).

(** *** [get_subtitles] *)

Definition decode (p : Payload) : M string :=
  match p with
  | Utf8 s => ret s
  | NotUtf8 => raise UnicodeDecodeError
  end.

Definition get_subtitles (caption_id : string) : M (list SubtitleMsg) :=
  try_except
    (emit (CaptionsDownload caption_id) ;;;
     subtitle <- lift (captions_download client caption_id) ;;
     subtitle <- decode subtitle ;;
     ret (parse subtitle))
    (fun e =>
       match e with
       | HttpError status =>
           if (status =? 403)%Z then ret [] else raise e
       | _ => raise e
       end).

(** *** [_get_search_videos] *)

(** The body of [for item in response["items"]]. *)
Definition process_item (item : SearchItem) : M unit :=
  let uploaded_time := publishedAt item in
  let video_id := videoId item in
  let title := snippet_title item in
  asr_caption_id <- get_asr_caption_id (videoId item) ;;
  match asr_caption_id with
  | None => ret tt
  | Some asr_caption_id =>
      if negb (truthy asr_caption_id) then ret tt
      else
        subtitles <- get_subtitles asr_caption_id ;;
        let video_subs :=
          map (fun subtitle_line =>
                 {| uploaded := uploaded_time;
                    video_id := video_id;
                    title := title;
                    sub_idx := idx subtitle_line;
                    sub_start := start subtitle_line;
                    sub_end := end_ subtitle_line;
                    sub_text := text subtitle_line |})
              subtitles in
        match video_subs with
        | [] => ret tt
        | _ :: _ =>
            let timestamp := strftime "%Y%m%d_%H%M%S" uploaded_time in
            to_csv (DIR_NAME ++ "/" ++ timestamp ++ "_" ++ video_id ++ ".csv")
                   (map columns video_subs)
        end
  end.

Fixpoint process_items (its : list SearchItem) : M unit :=
  match its with
  | [] => ret tt
  | item :: rest => process_item item ;;; process_items rest
  end.

(** The head of the method: the two [if] blocks that set
    [GRAB_AFTER] and [GRAB_BEFORE] from the files. *)
Definition set_window : M unit :=
  s <- get_self ;;
  (if get_latest s then
     r <- get_extreme_video_date ;;
     latest_video_date <- subscript last r ;;
     s <- get_self ;;
     set_self {| get_latest := get_latest s;
                 get_after_least := get_after_least s;
                 GRAB_BEFORE := None;
                 GRAB_AFTER :=
                   Some (strftime "%Y-%m-%dT%H:%M:%SZ" latest_video_date) |}
   else ret tt) ;;;
  s <- get_self ;;
  (if get_after_least s then
     r <- get_extreme_video_date ;;
     oldest_video_date <- subscript oldest r ;;
     s <- get_self ;;
     set_self {| get_latest := get_latest s;
                 get_after_least := get_after_least s;
                 GRAB_BEFORE :=
                   Some (strftime "%Y-%m-%dT%H:%M:%SZ" oldest_video_date);
                 GRAB_AFTER := None |}
   else ret tt).

Definition search (page_token : option string) : M SearchResponse :=
  s <- get_self ;;
  emit (SearchList (GRAB_AFTER s) (GRAB_BEFORE s) page_token) ;;;
  lift (search_list client (GRAB_AFTER s) (GRAB_BEFORE s) page_token).

(** The method calls itself for the next page; [depth] is the
    number of nested calls the interpreter still allows. *)
Fixpoint _get_search_videos (depth : nat) (page_token : option string)
  : M unit :=
  match depth with
  | O => raise RecursionError
  | S depth' =>
      set_window ;;;
      response <- search page_token ;;
      process_items (items response) ;;;
      match nextPageToken response with
      | Some next_page_token =>
          if truthy next_page_token
          then _get_search_videos depth' (Some next_page_token)
          else ret tt
      | None => ret tt
      end
  end.

(** The object as [__init__] leaves it before the first search:
    the class attributes [GRAB_BEFORE] and [GRAB_AFTER] are the
    defaults. *)
Definition new_self (get_after_least get_latest : bool) : Self :=
  {| get_latest := get_latest;
     get_after_least := get_after_least;
     GRAB_BEFORE := Some "2018-10-20T00:00:00Z";
     GRAB_AFTER := Some "2018-01-01T00:00:00Z" |}.

(** [VideoGetter(client, get_after_least, get_latest)] with the
    directory already there: [fs] are its files. *)
Definition VideoGetter (depth : nat) (get_after_least get_latest : bool)
           (fs : list (string * list Row)) : Result unit * World :=
  _get_search_videos depth None
    {| self := new_self get_after_least get_latest;
       files := fs; trace := [] |}.

(** [main]: the object is built with the default arguments. *)
Definition main (depth : nat) (fs : list (string * list Row))
  : Result unit * World :=
  VideoGetter depth true false fs.

End WithClient.

End Crawler.

(* ================================================================== *)
(** ** Vocabulary of the statements *)

Module Spec.
Import Py Re Srt Time Crawler.

(** Every character of [s] is in the class [p]. *)
Fixpoint all (p : cls) (s : string) : bool :=
  match s with
  | EmptyString => true
  | String c s' => p c && all p s'
  end.

(** The longest prefix of [s] in the class [p], and what follows. *)
Fixpoint span (p : cls) (s : string) : string * string :=
  match s with
  | String c s' =>
      if p c then (String c (fst (span p s')), snd (span p s'))
      else ("", s)
  | EmptyString => ("", "")
  end.

Definition take_run (p : cls) (s : string) : option (string * string) :=
  if truthy (fst (span p s)) then Some (span p s) else None.

(** Reading one subtitle block from the start of [s] without
    backtracking: the four fields and the input left. *)
Definition scan_block (s : string) : option (caps * string) :=
  match take_run is_digit s with
  | None => None
  | Some (i, r1) =>
  match drop_prefix nl r1 with
  | None => None
  | Some r2 =>
  match take_run is_time_char r2 with
  | None => None
  | Some (st, r3) =>
  match drop_prefix " --> " r3 with
  | None => None
  | Some r4 =>
  match take_run is_time_char r4 with
  | None => None
  | Some (en, r5) =>
  match drop_prefix nl r5 with
  | None => None
  | Some r6 =>
      Some ([("idx", i); ("start", st); ("end", en);
             ("text", fst (span is_dot r6))], snd (span is_dot r6))
  end end end end end end.

(** Two line breaks in a row somewhere in [s]. *)
Fixpoint double_nl (s : string) : bool :=
  match s with
  | String a s' =>
      (is_newline a
       && match s' with String b _ => is_newline b | EmptyString => false end)
      || double_nl s'
  | EmptyString => false
  end.

(** A subtitle line with the four given texts as its fields. *)
Definition msg (i st en tx : string) : SubtitleMsg :=
  {| idx := PyStr i; start := PyStr st; end_ := PyStr en; text := PyStr tx |}.

(** The subtitle pattern, in words: [s] starts with one or more
    digits [i], a line break, a non-empty [st] over the timing class,
    the arrow, a non-empty [en] over the same class, a line break and the
    rest [tx] of that line. *)
Definition reads_at_start (s i st en tx : string) : Prop :=
  exists rest,
    s = (i ++ nl ++ st ++ " --> " ++ en ++ nl ++ tx ++ rest)%string
    /\ i <> "" /\ all is_digit i = true
    /\ st <> "" /\ all is_time_char st = true
    /\ en <> "" /\ all is_time_char en = true
    /\ all is_dot tx = true
    /\ (rest = "" \/ exists r, rest = (nl ++ r)%string).

(** The pattern occurs somewhere in [block]. *)
Definition holds_pattern (block : string) : Prop :=
  exists pre suf i st en tx,
    block = (pre ++ suf)%string /\ reads_at_start suf i st en tx.

(** [l] is what the first occurrence of the pattern in [block]
    reads: the pattern reads [l] after [pre], and at no earlier
    position. *)
Definition first_reading (block : string) (l : SubtitleMsg) : Prop :=
  exists pre suf i st en tx,
    block = (pre ++ suf)%string
    /\ reads_at_start suf i st en tx
    /\ l = msg i st en tx
    /\ forall pre' suf' i' st' en' tx',
         block = (pre' ++ suf')%string ->
         (String.length pre' < String.length pre)%nat ->
         ~ reads_at_start suf' i' st' en' tx'.

(** The line one piece of the payload contributes, if any. *)
Definition block_line (b : string) : option SubtitleMsg :=
  match re_search pattern (strip b) with
  | Some (cs, _) => Some (of_groupdict cs)
  | None => None
  end.


(** The timing line [st --> en]. *)
Definition timing (st en : string) : string := (st ++ " --> " ++ en)%string.

(** The form [HH:MM:SS,mmm] of a timecode. *)
Definition is_timecode (s : string) : bool :=
  match Re.fixed [is_digit; is_digit; Ascii.eqb ":"; is_digit; is_digit;
                  Ascii.eqb ":"; is_digit; is_digit; Ascii.eqb ",";
                  is_digit; is_digit; is_digit] s with
  | Some (_, EmptyString) => true
  | _ => false
  end.

(** *** Vocabulary of the statements about the crawl *)

(** The world after more events that are not writes. *)
Definition add_events (w : World) (evs : list Event) : World :=
  {| self := self w; files := files w; trace := trace w ++ evs |}.

(** The files after the writes among [evs]. *)
Fixpoint replay (fs : list (string * list Row)) (evs : list Event)
  : list (string * list Row) :=
  match evs with
  | [] => fs
  | ToCsv path rows :: rest => replay (write_file path rows fs) rest
  | _ :: rest => replay fs rest
  end.

Definition iso : string := "%Y-%m-%dT%H:%M:%SZ".

(** The bounds of a search request of a run in the mode of [s], when
    the files are [fs]: in backfill mode the date of the oldest file as
    upper bound, in catch-up mode the date of the latest file as lower
    bound, otherwise the two attributes as they are. *)
Definition window_at (s : Self) (fs : list (string * list Row))
           (after before : option string) : Prop :=
  if get_after_least s then
    exists e, extreme_of (glob_paths fs) = Ok (Some e)
              /\ after = None /\ before = Some (strftime iso (oldest e))
  else if get_latest s then
    exists e, extreme_of (glob_paths fs) = Ok (Some e)
              /\ after = Some (strftime iso (last e)) /\ before = None
  else after = GRAB_AFTER s /\ before = GRAB_BEFORE s.

(** Walking through the events of a run that started with the files
    [fs]: every search request carries the bounds derived from the files
    as the writes before it left them. *)
Fixpoint windows_ok (s : Self) (fs : list (string * list Row))
         (evs : list Event) : Prop :=
  match evs with
  | [] => True
  | SearchList after before _ :: rest =>
      window_at s fs after before /\ windows_ok s fs rest
  | ToCsv path rows :: rest => windows_ok s (write_file path rows fs) rest
  | _ :: rest => windows_ok s fs rest
  end.

Definition is_search (e : Event) : bool :=
  match e with SearchList _ _ _ => true | _ => false end.

(** The file of a video and its rows. *)
Definition csv_path (item : SearchItem) : string :=
  (DIR_NAME ++ "/" ++ strftime "%Y%m%d_%H%M%S" (publishedAt item)
   ++ "_" ++ videoId item ++ ".csv")%string.

Definition csv_rows (item : SearchItem) (lines : list SubtitleMsg) : list Row :=
  map (fun l => (videoId item, snippet_title item, start l, text l)) lines.

(** What [get_asr_caption_id] and [get_subtitles] return or raise,
    given what the client answers. *)
Definition asr_result (client : Client) (video_id : string)
  : Result (option string) :=
  match captions_list client video_id with
  | Ok tracks => Ok (first_asr tracks)
  | Raise e => Raise e
  end.

Definition subtitles_result (client : Client) (caption_id : string)
  : Result (list SubtitleMsg) :=
  match captions_download client caption_id with
  | Ok (Utf8 s) => Ok (parse s)
  | Ok NotUtf8 => Raise UnicodeDecodeError
  | Raise (HttpError status) =>
      if (status =? 403)%Z then Ok [] else Raise (HttpError status)
  | Raise e => Raise e
  end.

(** The attributes that decide the bounds are the same in [s] and [s']. *)
Definition same_mode (s s' : Self) : Prop :=
  get_latest s' = get_latest s
  /\ get_after_least s' = get_after_least s
  /\ (get_latest s = false -> get_after_least s = false ->
      GRAB_AFTER s' = GRAB_AFTER s /\ GRAB_BEFORE s' = GRAB_BEFORE s).

End Spec.

(* ================================================================== *)
(** ** Sample clients and videos *)

Module Samples.
Import Py Re Srt Time Crawler.

Definition hello_srt : string :=
  ("1" ++ nl ++ "00:00:01,000 --> 00:00:02,000" ++ nl ++ "Hello world")%string.

Definition video1 : SearchItem :=
  {| publishedAt := utc 2018 5 1 0 0 0; videoId := "vid1";
     snippet_title := "First" |}.

Definition video2 : SearchItem :=
  {| publishedAt := utc 2018 4 1 0 0 0; videoId := "vid2";
     snippet_title := "Second" |}.

Definition asr_track (id : string) : CaptionItem :=
  {| caption_id := id; trackKind := "ASR" |}.

(** Two pages of one video each; every video has an ASR track whose
    download is [hello_srt]. *)
Definition two_pages : Client :=
  {| search_list := fun _ _ tok =>
       match tok with
       | None => Ok {| items := [video1]; nextPageToken := Some "p2" |}
       | Some _ => Ok {| items := [video2]; nextPageToken := None |}
       end;
     captions_list := fun v =>
       Ok [ {| caption_id := "c0"; trackKind := "standard" |};
            asr_track (String "c" v) ];
     captions_download := fun _ => Ok (Utf8 hello_srt) |}.

(** One page of two videos; listing the tracks of the first one
    raises [status]. *)
Definition failing_list (status : Z) : Client :=
  {| search_list := fun _ _ _ =>
       Ok {| items := [video1; video2]; nextPageToken := None |};
     captions_list := fun v =>
       if String.eqb v "vid1" then Raise (HttpError status)
       else Ok [asr_track (String "c" v)];
     captions_download := fun _ => Ok (Utf8 hello_srt) |}.

(** One page of two videos; downloading the track of the first one
    raises [status]. *)
Definition failing_download (status : Z) : Client :=
  {| search_list := fun _ _ _ =>
       Ok {| items := [video1; video2]; nextPageToken := None |};
     captions_list := fun v => Ok [asr_track (String "c" v)];
     captions_download := fun c =>
       if String.eqb c "cvid1" then Raise (HttpError status)
       else Ok (Utf8 hello_srt) |}.

Definition fresh (get_after_least get_latest : bool)
           (fs : list (string * list Row)) : World :=
  {| self := new_self get_after_least get_latest; files := fs; trace := [] |}.

End Samples.

(* ================================================================== *)
(** ** [__init__], the quota and more vocabulary *)

Module More.
Import Py Re Srt Time Crawler Spec.
Local Open Scope Z_scope.

(** The directory before the object is built: [None] when it does not
    exist, its files otherwise. [create_dir] makes it when it is not
    there and leaves it alone when it is. *)
Definition create_dir (dir : option (list (string * list Row)))
  : list (string * list Row) :=
  match dir with
  | Some fs => fs
  | None => []
  end.

(** [VideoGetter.__init__]: the attributes are set, the directory is
    made, and the crawl starts at the first page. *)
Definition __init__ (client : Client) (depth : nat)
           (get_after_least get_latest : bool)
           (dir : option (list (string * list Row))) : Result unit * World :=
  VideoGetter client depth get_after_least get_latest (create_dir dir).

(** The quota units a request costs, as the docstrings of the three
    methods give them. *)
Definition cost (e : Event) : Z :=
  match e with
  | SearchList _ _ _ => 100
  | CaptionsList _ => 50
  | CaptionsDownload _ => 200
  | ToCsv _ _ => 0
  end.

Definition total_cost (evs : list Event) : Z :=
  fold_right (fun e acc => cost e + acc) 0 evs.

(** The search requests among the events. *)
Definition searches (evs : list Event) : list Event := filter is_search evs.

(** The search requests of a run follow the cursor: the first carries
    [tok], and a further one is only made with the non-empty token the
    answer to the one before it carried. *)
Fixpoint follows_cursor (client : Client) (tok : option string)
         (reqs : list Event) : Prop :=
  match reqs with
  | [] => True
  | SearchList after before t :: rest =>
      t = tok
      /\ match search_list client after before t with
         | Ok response =>
             match nextPageToken response with
             | Some next =>
                 if truthy next then follows_cursor client (Some next) rest
                 else rest = []
             | None => rest = []
             end
         | Raise _ => rest = []
         end
  | _ :: _ => False
  end.

(** The events of the step for one video: the tracks are listed; when
    the first ASR track has a non-empty id it is downloaded; when the
    download gives lines the file of the video is written. *)
Definition item_events (client : Client) (item : SearchItem)
           (evs : list Event) : Prop :=
  evs = [CaptionsList (videoId item)]
  \/ exists cid,
       asr_result client (videoId item) = Ok (Some cid)
       /\ truthy cid = true
       /\ (evs = [CaptionsList (videoId item); CaptionsDownload cid]
           \/ exists lines,
                subtitles_result client cid = Ok lines /\ lines <> []
                /\ evs = [CaptionsList (videoId item); CaptionsDownload cid;
                          ToCsv (csv_path item) (csv_rows item lines)]).

(** Whether the last character of a text is a line break. *)
Fixpoint ends_nl (s : string) : bool :=
  match s with
  | EmptyString => false
  | String c EmptyString => is_newline c
  | String _ s' => ends_nl s'
  end.

(** Whether the first character of a text is a line break. *)
Definition starts_nl (s : string) : bool :=
  match s with
  | EmptyString => false
  | String c _ => is_newline c
  end.

(** The day number [z] has a date whose year has four digits, whose
    month and day exist, and which is the date of no other day. *)
Definition civil_ok (z : Z) : bool :=
  let '(y, m, d) := civil_from_days z in
  (1677 <=? y) && (y <=? 2262) && (1 <=? m) && (m <=? 12)
  && (1 <=? d) && (d <=? days_in_month y m)
  && (days_from_civil y m d =? z).

(** [civil_ok] on the [n] day numbers from [z] on. *)
Fixpoint all_days (z : Z) (n : nat) : bool :=
  match n with
  | O => true
  | S n' => civil_ok z && all_days (z + 1) n'
  end.

(** The text [strftime("%Y%m%d_%H%M%S")] gives for a date and a time
    of day. *)
Definition stamp (y m d hh mm ss : Z) : string :=
  (pad4 y ++ pad2 m ++ pad2 d ++ "_" ++ pad2 hh ++ pad2 mm ++ pad2 ss)%string.

End More.

(* ================================================================== *)
(** ** The blocks of a payload *)

Module Blocks.
Import Py Re Srt Spec More.

(** Whether the first character of a text is white space. *)
Definition starts_space (s : string) : bool :=
  match s with
  | EmptyString => false
  | String c _ => is_space c
  end.

(** Whether the last character of a text is white space. *)
Fixpoint ends_space (s : string) : bool :=
  match s with
  | EmptyString => false
  | String c EmptyString => is_space c
  | String _ s' => ends_space s'
  end.

(** [t] is the block [b] without the white space around it. *)
Definition trimmed (b t : string) : Prop :=
  exists lead trail,
    b = (lead ++ t ++ trail)%string
    /\ all is_space lead = true /\ all is_space trail = true
    /\ starts_space t = false /\ ends_space t = false.

(** The blocks of a payload, as the text between two line breaks in a
    row: no block holds two line breaks in a row, and none but the last
    ends in a line break. These are the lists the payload
    [join (nl ++ nl) bs] determines. *)
Fixpoint separated (bs : list string) : Prop :=
  match bs with
  | [] => True
  | [b] => double_nl b = false
  | b :: rest => double_nl b = false /\ ends_nl b = false /\ separated rest
  end.

(** A well-formed block: an index line [i] of digits, the timing line
    [st --> en], and one or more lines of text, of which [tx] is the
    first. *)
Definition well_formed_block (t i st en tx : string) (more : list string)
  : Prop :=
  t = join nl (i :: timing st en :: tx :: more)
  /\ i <> "" /\ all is_digit i = true
  /\ st <> "" /\ all is_time_char st = true
  /\ en <> "" /\ all is_time_char en = true
  /\ Forall (fun x => x <> "" /\ all is_dot x = true) (tx :: more).

(** A block that is not well formed, whatever its lines are taken to
    be. *)
Definition malformed (t : string) : Prop :=
  forall i st en tx more, ~ well_formed_block t i st en tx more.

(** [ls] are the lines the blocks [bs] give, in the order of the
    blocks: a well-formed block gives the line made of its index, its two
    timing texts and its first line of text; a malformed block in which
    the pattern occurs further down gives the line its first occurrence
    reads; a block in which the pattern does not occur gives nothing. *)
Inductive reads_blocks : list string -> list SubtitleMsg -> Prop :=
| reads_nil : reads_blocks [] []
| reads_cue b bs t i st en tx more ls :
    trimmed b t -> well_formed_block t i st en tx more ->
    reads_blocks bs ls -> reads_blocks (b :: bs) (msg i st en tx :: ls)
| reads_inner b bs t l ls :
    trimmed b t -> malformed t -> first_reading t l ->
    reads_blocks bs ls -> reads_blocks (b :: bs) (l :: ls)
| reads_skip b bs t ls :
    trimmed b t -> ~ holds_pattern t ->
    reads_blocks bs ls -> reads_blocks (b :: bs) ls.

(** [n] is the number of blocks among [bs] in which the pattern
    occurs. *)
Inductive pattern_count : list string -> nat -> Prop :=
| count_nil : pattern_count [] 0
| count_yes b bs t n :
    trimmed b t -> holds_pattern t ->
    pattern_count bs n -> pattern_count (b :: bs) (S n)
| count_no b bs t n :
    trimmed b t -> ~ holds_pattern t ->
    pattern_count bs n -> pattern_count (b :: bs) n.

End Blocks.

(* ================================================================== *)
(** ** The primitives on examples *)

Module Checks.
Import Py Re Srt Time Crawler Spec Samples.

Example split_blank_lines :
  split (nl ++ nl) ("a" ++ nl ++ nl ++ nl ++ "b" ++ nl ++ nl ++ "c")
  = ["a"; (nl ++ "b")%string; "c"].
Proof. reflexivity. Qed.

Example split_empty : split (nl ++ nl) "" = [""].
Proof. reflexivity. Qed.

Example split_file_name :
  split_max "_" 2 "20180315_120000_abc_123.csv"
  = ["20180315"; "120000"; "abc_123.csv"].
Proof. reflexivity. Qed.

Example split_path :
  split_max "/" 1 "by_title/20180315_120000_abc123.csv"
  = ["by_title"; "20180315_120000_abc123.csv"].
Proof. reflexivity. Qed.

Example strip_both_ends : strip ("  a b " ++ nl) = "a b".
Proof. reflexivity. Qed.

Example parse_empty : parse "" = [].
Proof. reflexivity. Qed.

Example search_is_leftmost :
  re_search pattern ("x12" ++ nl ++ "0:1 --> 0:2" ++ nl ++ "t" ++ nl ++ "u")
  = Some ([("idx", "12"); ("start", "0:1"); ("end", "0:2"); ("text", "t")],
          (nl ++ "u")%string).
Proof. vm_compute. reflexivity. Qed.

Example to_datetime_full :
  to_datetime "20180315_120000" = Ok (utc 2018 3 15 12 0 0).
Proof. vm_compute. reflexivity. Qed.

Example to_datetime_short_fields :
  to_datetime "2018315_1200" = Ok (utc 2018 3 15 12 0 0).
Proof. vm_compute. reflexivity. Qed.

Example to_datetime_no_such_day : to_datetime "20190229_000000" = Raise ValueError.
Proof. vm_compute. reflexivity. Qed.

Example to_datetime_out_of_range :
  to_datetime "22630101_000000" = Raise ValueError.
Proof. vm_compute. reflexivity. Qed.

Example strftime_file_stamp :
  strftime "%Y%m%d_%H%M%S" (utc 2018 5 1 9 30 7) = "20180501_093007".
Proof. vm_compute. reflexivity. Qed.

Example file_date_of_written_file :
  file_date (csv_path video1) = Ok (publishedAt video1).
Proof. vm_compute. reflexivity. Qed.

Example first_asr_skips_other_kinds :
  first_asr [ {| caption_id := "c0"; trackKind := "standard" |};
              asr_track "c1"; asr_track "c2" ] = Some "c1".
Proof. reflexivity. Qed.

End Checks.

(* ================================================================== *)
(** ** Facts about strings *)

Module StrFacts.
Import Py Re Srt Spec.

Ltac by_cases_on_char c :=
  destruct c as [[] [] [] [] [] [] [] []]; try reflexivity; try discriminate.

Lemma sapp_assoc (a b c : string) : ((a ++ b) ++ c = a ++ (b ++ c))%string.
Proof. induction a as [|x a IH]; simpl; [reflexivity | now rewrite IH]. Qed.

Lemma sapp_nil_r (a : string) : (a ++ "")%string = a.
Proof. induction a as [|x a IH]; simpl; [reflexivity | now rewrite IH]. Qed.

Lemma newline_char (c : ascii) : is_newline c = Ascii.eqb "010" c.
Proof. by_cases_on_char c. Qed.


Lemma digit_not_space (c : ascii) : is_digit c = true -> is_space c = false.
Proof. by_cases_on_char c. Qed.

Lemma time_char_is_dot (c : ascii) : is_time_char c = true -> is_dot c = true.
Proof. by_cases_on_char c. Qed.

Lemma all_app (p : cls) (a b : string) :
  all p (a ++ b) = all p a && all p b.
Proof.
  induction a as [|x a IH]; simpl; [reflexivity|].
  now rewrite IH, andb_assoc.
Qed.

Lemma all_impl (p q : cls) (s : string) :
  (forall c, p c = true -> q c = true) -> all p s = true -> all q s = true.
Proof.
  intros Hpq. induction s as [|c s IH]; simpl; [reflexivity|].
  intros H. apply andb_true_iff in H as [Hc Hs].
  now rewrite (Hpq c Hc), (IH Hs).
Qed.

(** *** [split] on a text without the separator *)

Lemma split_scan_no_sep (s : string) :
  double_nl s = false ->
  forall budget cur,
    split_scan (nl ++ nl) budget 0 cur s = [(cur ++ s)%string].
Proof.
  induction s as [|c s IH]; intros Hd budget cur.
  - simpl. now rewrite sapp_nil_r.
  - simpl in Hd. apply orb_false_iff in Hd as [Hhere Hd].
    destruct budget as [|b].
    + cbn [split_scan]. rewrite (IH Hd), sapp_assoc. reflexivity.
    + cbn [split_scan].
      replace (drop_prefix (nl ++ nl) (String c s)) with (@None string).
      * rewrite (IH Hd), sapp_assoc. reflexivity.
      * change (nl ++ nl)%string with (String "010" (String "010" "")).
        cbn [drop_prefix]. rewrite <- newline_char.
        destruct (is_newline c); [|reflexivity]. simpl in Hhere.
        destruct s as [|b' s']; [reflexivity|].
        rewrite <- newline_char, Hhere. reflexivity.
Qed.

Lemma split_single (s : string) :
  double_nl s = false -> split (nl ++ nl) s = [s].
Proof. intros H. unfold split. now rewrite split_scan_no_sep. Qed.

Lemma double_nl_app_dot (l r : string) :
  all is_dot l = true -> double_nl (l ++ r) = double_nl r.
Proof.
  induction l as [|c l IH]; simpl; [reflexivity|].
  intros H. apply andb_true_iff in H as [Hc Hl].
  unfold is_dot in Hc. apply negb_true_iff in Hc. rewrite Hc. simpl.
  now apply IH.
Qed.

Lemma double_nl_dot (l : string) : all is_dot l = true -> double_nl l = false.
Proof.
  intros H. rewrite <- (sapp_nil_r l). now rewrite double_nl_app_dot.
Qed.

(** Lines that are not empty, joined by single line breaks, never
    put two line breaks in a row. *)
Lemma double_nl_join (lines : list string) :
  Forall (fun l => l <> "" /\ all is_dot l = true) lines ->
  double_nl (join nl lines) = false.
Proof.
  induction lines as [|l rest IH]; intros H; [reflexivity|].
  inversion H as [|? ? [Hne Hl] Hrest]; subst.
  destruct rest as [|l2 rest].
  - simpl. now apply double_nl_dot.
  - change (join nl (l :: l2 :: rest))
      with (l ++ nl ++ join nl (l2 :: rest))%string.
    rewrite (double_nl_app_dot _ _ Hl).
    change (nl ++ join nl (l2 :: rest))%string
      with (String "010" (join nl (l2 :: rest))).
    cbn [double_nl]. rewrite (IH Hrest), orb_false_r.
    inversion Hrest as [|? ? [Hne2 Hl2] _]; subst.
    destruct l2 as [|c2 l2]; [congruence|].
    simpl in Hl2. apply andb_true_iff in Hl2 as [Hc2 _].
    unfold is_dot in Hc2. apply negb_true_iff in Hc2.
    destruct rest; simpl; now rewrite Hc2.
Qed.

(** *** [strip] *)

Lemma lstrip_id (c : ascii) (s : string) :
  is_space c = false -> lstrip (String c s) = String c s.
Proof. intros H. simpl. now rewrite H. Qed.

Lemma rstrip_not_blank (s : string) : all is_space s = false -> rstrip s <> "".
Proof.
  induction s as [|c s IH]; simpl; [discriminate|].
  intros H. destruct (rstrip s) eqn:E; [|discriminate].
  destruct (is_space c) eqn:Hc; [|discriminate].
  simpl in H. destruct (all is_space s); [discriminate|]. now apply IH.
Qed.

Lemma rstrip_app (a b : string) :
  all is_space b = false -> rstrip (a ++ b) = (a ++ rstrip b)%string.
Proof.
  intros Hb. induction a as [|c a IH]; simpl; [reflexivity|].
  rewrite IH. pose proof (rstrip_not_blank b Hb) as Hne.
  destruct (a ++ rstrip b)%string eqn:E; [|reflexivity].
  destruct a; simpl in E; [congruence | discriminate].
Qed.

Lemma lstrip_blank (s : string) : all is_space s = true -> lstrip s = "".
Proof.
  induction s as [|c s IH]; simpl; [reflexivity|].
  intros H. apply andb_true_iff in H as [Hc Hs]. now rewrite Hc, (IH Hs).
Qed.


End StrFacts.

(* ================================================================== *)
(** ** Facts about the matcher *)

Module ReFacts.
Import Py Re Srt Spec.

Lemma flat_map_map {A B C} (g : A -> B) (f : B -> list C) (l : list A) :
  flat_map f (map g l) = flat_map (fun x => f (g x)) l.
Proof.
  induction l as [|x l IH]; simpl; [reflexivity|]. now rewrite IH.
Qed.

Lemma hd_error_map {A B} (f : A -> B) (l : list A) :
  hd_error (map f l) = option_map f (hd_error l).
Proof. destruct l; reflexivity. Qed.

(** When what follows cannot start with a character of the class,
    only the longest run is taken. *)
Lemma flat_map_runs {B} (p : cls) (s : string) :
  forall f : string * string -> list B,
    (forall t c r, p c = true -> f (t, String c r) = []) ->
    flat_map f (runs p s) = f (span p s).
Proof.
  induction s as [|c s IH]; intros f Hf; simpl.
  - now rewrite app_nil_r.
  - destruct (p c) eqn:Hc; simpl.
    + rewrite flat_map_app, flat_map_map. simpl.
      rewrite (Hf "" c s Hc), !app_nil_r.
      rewrite (IH (fun x => f (String c (fst x), snd x))).
      * reflexivity.
      * intros t c' r Hc'. simpl. now apply Hf.
    + now rewrite app_nil_r.
Qed.

Lemma runs_head (p : cls) (s : string) :
  hd_error (runs p s) = Some (span p s).
Proof.
  induction s as [|c s IH]; simpl; [reflexivity|].
  destruct (p c); simpl; [|reflexivity].
  destruct (runs p s) as [|x l]; simpl in *; [discriminate|].
  now inversion IH.
Qed.

Lemma span_truthy (p : cls) (s : string) :
  truthy (fst (span p s)) = match s with String c _ => p c | "" => false end.
Proof. destruct s as [|c s]; simpl; [reflexivity|]. now destruct (p c). Qed.

(** A group [c+] followed by a literal whose first character is not
    in [c]: the run is the longest one. *)
Lemma m_seq_plus_lit (n : string) (p : cls) (a : ascii) (l' : string)
      (rs : list re) (s : string) :
  p a = false ->
  m_seq (Group n (Plus p) :: Lit (String a l') :: rs) s =
  match take_run p s with
  | Some (t, r) =>
      match drop_prefix (String a l') r with
      | Some r' => map (fun m' => ((n, t) :: fst m', snd m')) (m_seq rs r')
      | None => []
      end
  | None => []
  end.
Proof.
  intros Ha. unfold take_run. rewrite span_truthy.
  destruct s as [|c s]; [reflexivity|].
  change (m_seq (Group n (Plus p) :: Lit (String a l') :: rs) (String c s))
    with (flat_map
            (fun m => let '(_, cs, rest) := m in
                      map (fun m' => (cs ++ fst m', snd m'))
                          (m_seq (Lit (String a l') :: rs) rest))
            (map (fun m => let '(t, cs, rest) := m in (t, (n, t) :: cs, rest))
                 (if p c
                  then map (fun tr => (String c (fst tr), [], snd tr)) (runs p s)
                  else []))).
  destruct (p c) eqn:Hc; [|reflexivity].
  rewrite !flat_map_map.
  rewrite (flat_map_runs p s).
  - cbn [span fst snd]. rewrite Hc. cbn [fst snd].
    cbn [m_seq m_re].
    destruct (drop_prefix (String a l') (snd (span p s))) as [r'|];
      [|reflexivity].
    cbn [flat_map]. rewrite app_nil_r, map_map. reflexivity.
  - intros t c' r Hc'. cbn [fst snd m_seq m_re drop_prefix].
    destruct (Ascii.eqb a c') eqn:E; [|reflexivity].
    apply Ascii.eqb_eq in E. subst c'. congruence.
Qed.

Lemma m_seq_star_last (n : string) (p : cls) (s : string) :
  hd_error (m_seq [Group n (Star p)] s)
  = Some ([(n, fst (span p s))], snd (span p s)).
Proof.
  cbn [m_seq m_re]. rewrite map_map, flat_map_map.
  pose proof (runs_head p s) as H.
  destruct (runs p s) as [|x l]; [discriminate|].
  cbn in H. inversion H; subst. reflexivity.
Qed.

(** The matcher on the subtitle pattern is the scan. *)
Lemma re_match_pattern (s : string) : re_match pattern s = scan_block s.
Proof.
  unfold re_match, pattern, scan_block, nl.
  rewrite m_seq_plus_lit by reflexivity.
  destruct (take_run is_digit s) as [[i r1]|]; [|reflexivity].
  destruct (drop_prefix _ r1) as [r2|]; [|reflexivity].
  rewrite hd_error_map, m_seq_plus_lit by reflexivity.
  destruct (take_run is_time_char r2) as [[st r3]|]; [|reflexivity].
  destruct (drop_prefix _ r3) as [r4|]; [|reflexivity].
  rewrite hd_error_map, m_seq_plus_lit by reflexivity.
  destruct (take_run is_time_char r4) as [[en r5]|]; [|reflexivity].
  destruct (drop_prefix _ r5) as [r6|]; [|reflexivity].
  rewrite hd_error_map, m_seq_star_last. reflexivity.
Qed.

(** *** Runs and prefixes *)

Lemma span_app (p : cls) (t r : string) :
  all p t = true ->
  match r with String c _ => p c = false | EmptyString => True end ->
  span p (t ++ r) = (t, r).
Proof.
  intros Ht Hr. induction t as [|c t IH]; simpl in *.
  - destruct r as [|c r]; [reflexivity|]. simpl. now rewrite Hr.
  - apply andb_true_iff in Ht as [Hc Ht]. rewrite Hc, (IH Ht). reflexivity.
Qed.

Lemma span_spec (p : cls) (s : string) :
  s = (fst (span p s) ++ snd (span p s))%string
  /\ all p (fst (span p s)) = true
  /\ match snd (span p s) with String c _ => p c = false | EmptyString => True end.
Proof.
  induction s as [|c s (IH1 & IH2 & IH3)]; simpl; [auto|].
  destruct (p c) eqn:Hc; simpl.
  - rewrite Hc, IH2. repeat split; [now rewrite <- IH1 | exact IH3].
  - repeat split. exact Hc.
Qed.

Lemma take_run_app (p : cls) (t r : string) :
  t <> "" -> all p t = true ->
  match r with String c _ => p c = false | EmptyString => True end ->
  take_run p (t ++ r) = Some (t, r).
Proof.
  intros Hne Ht Hr. unfold take_run. rewrite (span_app p t r Ht Hr).
  destruct t; [congruence | reflexivity].
Qed.

Lemma take_run_spec (p : cls) (s t r : string) :
  take_run p s = Some (t, r) ->
  s = (t ++ r)%string /\ t <> "" /\ all p t = true
  /\ match r with String c _ => p c = false | EmptyString => True end.
Proof.
  unfold take_run. intros H.
  destruct (truthy (fst (span p s))) eqn:E; [|discriminate].
  destruct (span_spec p s) as (H1 & H2 & H3).
  destruct (span p s) as [t' r'] eqn:Es. inversion H; subst. simpl in *.
  repeat split; auto. intros ->. discriminate.
Qed.

Lemma drop_prefix_app (l r : string) : drop_prefix l (l ++ r) = Some r.
Proof.
  induction l as [|a l IH]; simpl; [reflexivity|].
  now rewrite Ascii.eqb_refl.
Qed.

Lemma drop_prefix_spec (l s r : string) :
  drop_prefix l s = Some r -> s = (l ++ r)%string.
Proof.
  revert s. induction l as [|a l IH]; simpl; intros s H.
  - now inversion H.
  - destruct s as [|b s]; [discriminate|].
    destruct (Ascii.eqb a b) eqn:E; [|discriminate].
    apply Ascii.eqb_eq in E. subst b. now rewrite (IH s H).
Qed.

(** *** The scan and the pattern in words *)

Lemma scan_block_complete (s i st en tx : string) :
  reads_at_start s i st en tx ->
  exists rest,
    scan_block s
    = Some ([("idx", i); ("start", st); ("end", en); ("text", tx)], rest).
Proof.
  intros (rest & -> & Hi & Hid & Hst & Hstd & Hen & Hend & Htx & Hrest).
  exists rest. unfold scan_block.
  rewrite take_run_app by (auto; reflexivity).
  rewrite drop_prefix_app.
  rewrite take_run_app by (auto; reflexivity).
  rewrite drop_prefix_app.
  rewrite take_run_app by (auto; reflexivity).
  rewrite drop_prefix_app.
  rewrite span_app; [reflexivity | exact Htx |].
  destruct Hrest as [-> | (r & ->)]; [exact I | reflexivity].
Qed.

Lemma scan_block_sound (s : string) (cs : caps) (rest : string) :
  scan_block s = Some (cs, rest) ->
  exists i st en tx,
    cs = [("idx", i); ("start", st); ("end", en); ("text", tx)]
    /\ reads_at_start s i st en tx.
Proof.
  unfold scan_block. intros H.
  destruct (take_run is_digit s) as [[i r1]|] eqn:E1; [|discriminate].
  destruct (drop_prefix nl r1) as [r2|] eqn:E2; [|discriminate].
  destruct (take_run is_time_char r2) as [[st r3]|] eqn:E3; [|discriminate].
  destruct (drop_prefix " --> " r3) as [r4|] eqn:E4; [|discriminate].
  destruct (take_run is_time_char r4) as [[en r5]|] eqn:E5; [|discriminate].
  destruct (drop_prefix nl r5) as [r6|] eqn:E6; [|discriminate].
  inversion H; subst cs rest; clear H.
  apply take_run_spec in E1 as (-> & Hi & Hid & _).
  apply drop_prefix_spec in E2 as ->.
  apply take_run_spec in E3 as (-> & Hst & Hstd & _).
  apply drop_prefix_spec in E4 as ->.
  apply take_run_spec in E5 as (-> & Hen & Hend & _).
  apply drop_prefix_spec in E6 as ->.
  destruct (span_spec is_dot r6) as (H1 & H2 & H3).
  exists i, st, en, (fst (span is_dot r6)). split; [reflexivity|].
  exists (snd (span is_dot r6)). rewrite <- H1.
  repeat split; auto.
  destruct (snd (span is_dot r6)) as [|c r]; [now left | right].
  exists r. unfold is_dot, is_newline in H3.
  apply negb_false_iff, Nat.eqb_eq in H3.
  rewrite <- (ascii_nat_embedding c), H3. reflexivity.
Qed.

(** *** [re.search]: the leftmost position *)

Lemma re_search_some (rs : list re) (s : string) (m : caps * string) :
  re_search rs s = Some m ->
  exists pre suf,
    s = (pre ++ suf)%string /\ re_match rs suf = Some m
    /\ forall pre' suf',
         s = (pre' ++ suf')%string ->
         (String.length pre' < String.length pre)%nat ->
         re_match rs suf' = None.
Proof.
  induction s as [|c s IH]; simpl; intros H.
  - destruct (re_match rs "") eqn:E; [|discriminate].
    exists "", "". repeat split; [congruence|].
    intros pre' suf' _ Hlt. simpl in Hlt. lia.
  - destruct (re_match rs (String c s)) eqn:E.
    + exists "", (String c s). repeat split; [congruence|].
      intros pre' suf' _ Hlt. simpl in Hlt. lia.
    + destruct (IH H) as (pre & suf & -> & Hm & Hleft).
      exists (String c pre), suf. repeat split; [exact Hm|].
      intros pre' suf' Heq Hlt.
      destruct pre' as [|c' pre']; simpl in Heq.
      * now subst suf'.
      * inversion Heq as [[Hc Heq']]. apply (Hleft pre' suf' Heq').
        simpl in Hlt. lia.
Qed.

Lemma re_search_none (rs : list re) (s : string) :
  re_search rs s = None ->
  forall pre suf, s = (pre ++ suf)%string -> re_match rs suf = None.
Proof.
  induction s as [|c s IH]; simpl; intros H pre suf Heq.
  - destruct (re_match rs "") eqn:E; [discriminate|].
    destruct pre; simpl in Heq; [now subst | discriminate].
  - destruct (re_match rs (String c s)) eqn:E; [discriminate|].
    destruct pre as [|c' pre]; simpl in Heq; [now subst|].
    inversion Heq as [[Hc Heq']]. now apply (IH H pre).
Qed.

(** *** The loop of [parse] *)

Lemma parse_step_block_line (result : list SubtitleMsg) (b : string) :
  parse_step result b = result ++ opt_list (block_line b).
Proof.
  unfold parse_step, block_line.
  destruct (strip b) as [|c s] eqn:E; simpl negb; cbv iota.
  - cbn. now rewrite app_nil_r.
  - destruct (re_search pattern (String c s)) as [[cs r]|]; simpl;
      [reflexivity | now rewrite app_nil_r].
Qed.

Lemma fold_parse_step (bs : list string) :
  forall acc,
    fold_left parse_step bs acc
    = acc ++ flat_map (fun b => opt_list (block_line b)) bs.
Proof.
  induction bs as [|b bs IH]; intros acc; simpl.
  - now rewrite app_nil_r.
  - now rewrite IH, parse_step_block_line, <- app_assoc.
Qed.

Lemma parse_blocks (subtitle : string) :
  parse subtitle
  = flat_map (fun b => opt_list (block_line b)) (split (nl ++ nl) subtitle).
Proof. unfold parse. now rewrite fold_parse_step. Qed.

Lemma block_line_some (b : string) (l : SubtitleMsg) :
  block_line b = Some l -> first_reading (strip b) l.
Proof.
  unfold block_line. intros H.
  destruct (re_search pattern (strip b)) as [[cs r]|] eqn:E; [|discriminate].
  inversion H; subst l; clear H.
  apply re_search_some in E as (pre & suf & Heq & Hm & Hleft).
  rewrite re_match_pattern in Hm.
  apply scan_block_sound in Hm as (i & st & en & tx & -> & Hr).
  exists pre, suf, i, st, en, tx. repeat split; auto.
  intros pre' suf' i' st' en' tx' Heq' Hlt Hr'.
  specialize (Hleft pre' suf' Heq' Hlt). rewrite re_match_pattern in Hleft.
  apply scan_block_complete in Hr' as (rest & Hr'). congruence.
Qed.

Lemma block_line_none (b : string) :
  block_line b = None -> ~ holds_pattern (strip b).
Proof.
  unfold block_line. intros H (pre & suf & i & st & en & tx & Heq & Hr).
  destruct (re_search pattern (strip b)) as [[cs r]|] eqn:E; [discriminate|].
  pose proof (re_search_none _ _ E pre suf Heq) as Hn.
  rewrite re_match_pattern in Hn.
  apply scan_block_complete in Hr as (rest & Hr). congruence.
Qed.

End ReFacts.

(* ================================================================== *)
(** ** Facts about [parse] *)

Module SrtFacts.
Import Py Re Srt Spec StrFacts ReFacts.

Lemma re_search_here (rs : list re) (s : string) (m : caps * string) :
  re_match rs s = Some m -> re_search rs s = Some m.
Proof. intros H. destruct s; simpl; now rewrite H. Qed.

Lemma block_line_reads (b i st en tx : string) :
  reads_at_start (strip b) i st en tx ->
  block_line b = Some (msg i st en tx).
Proof.
  intros H. apply scan_block_complete in H as (rest & H).
  rewrite <- re_match_pattern in H. unfold block_line.
  now rewrite (re_search_here _ _ _ H).
Qed.

Lemma parse_single_block (b : string) :
  double_nl b = false -> parse b = opt_list (block_line b).
Proof.
  intros H. rewrite parse_blocks, (split_single b H). simpl.
  now rewrite app_nil_r.
Qed.

Lemma first_reading_holds (b : string) (l : SubtitleMsg) :
  first_reading b l -> holds_pattern b.
Proof.
  intros (pre & suf & i & st & en & tx & Heq & Hr & _).
  now exists pre, suf, i, st, en, tx.
Qed.

Lemma parsed_line_fields (subtitle : string) (l : SubtitleMsg) :
  In l (parse subtitle) ->
  exists i st en tx,
    l = msg i st en tx /\ i <> "" /\ all is_digit i = true.
Proof.
  rewrite parse_blocks. intros H. apply in_flat_map in H as (b & _ & H).
  destruct (block_line b) as [l'|] eqn:E; simpl in H; [|contradiction].
  destruct H as [<- | []].
  apply block_line_some in E
    as (pre & suf & i & st & en & tx & _ & Hr & -> & _).
  destruct Hr as (rest & _ & Hi & Hid & _).
  now exists i, st, en, tx.
Qed.

Lemma timing_is_line (st en : string) :
  st <> "" -> all is_time_char st = true -> all is_time_char en = true ->
  timing st en <> "" /\ all is_dot (timing st en) = true.
Proof.
  intros Hst Hstd Hend. unfold timing. split.
  - destruct st; [congruence | discriminate].
  - rewrite !all_app, (all_impl _ _ _ time_char_is_dot Hstd),
      (all_impl _ _ _ time_char_is_dot Hend). reflexivity.
Qed.




End SrtFacts.

Import Py Re Srt Time Crawler Spec.

(* ================================================================== *)
(** ** Facts about the crawl *)

Module CrawlerFacts.
Import Py Re Srt Time Crawler Spec.

Local Arguments strftime : simpl never.

Lemma get_asr_caption_id_eq (client : Client) (vid : string) (w : World) :
  get_asr_caption_id client vid w
  = (asr_result client vid, add_events w [CaptionsList vid]).
Proof.
  unfold get_asr_caption_id, asr_result, bind, emit, lift, ret, add_events.
  simpl. destruct (captions_list client vid); reflexivity.
Qed.

Lemma get_subtitles_eq (client : Client) (cid : string) (w : World) :
  get_subtitles client cid w
  = (subtitles_result client cid, add_events w [CaptionsDownload cid]).
Proof.
  unfold get_subtitles, subtitles_result, try_except, bind, emit, lift,
    decode, ret, raise, add_events.
  simpl. destruct (captions_download client cid) as [[s|]|[st| | | | |]];
    try reflexivity.
  destruct (st =? 403)%Z; reflexivity.
Qed.

(** The body of the loop, case by case. *)
Lemma process_item_eq (client : Client) (item : SearchItem) (w : World) :
  process_item client item w =
  let w1 := add_events w [CaptionsList (videoId item)] in
  match asr_result client (videoId item) with
  | Raise e => (Raise e, w1)
  | Ok None => (Ok tt, w1)
  | Ok (Some cid) =>
      if truthy cid then
        let w2 := add_events w1 [CaptionsDownload cid] in
        match subtitles_result client cid with
        | Raise e => (Raise e, w2)
        | Ok [] => (Ok tt, w2)
        | Ok (l :: ls) =>
            to_csv (csv_path item) (csv_rows item (l :: ls)) w2
        end
      else (Ok tt, w1)
  end.
Proof.
  unfold process_item, bind. rewrite get_asr_caption_id_eq.
  destruct (asr_result client (videoId item)) as [[cid|]|e]; try reflexivity.
  destruct (truthy cid); [|reflexivity]. cbn [negb].
  rewrite get_subtitles_eq.
  destruct (subtitles_result client cid) as [[|l ls]|e]; try reflexivity.
  cbn [map]. unfold csv_path, csv_rows, columns. cbn [map].
  rewrite map_map. reflexivity.
Qed.

Lemma process_items_cons (client : Client) (item : SearchItem)
      (rest : list SearchItem) (w : World) :
  process_items client (item :: rest) w =
  match process_item client item w with
  | (Ok _, w') => process_items client rest w'
  | (Raise e, w') => (Raise e, w')
  end.
Proof. reflexivity. Qed.

(** *** [get_extreme_video_date] *)

Lemma py_min_spec (ds : list Timestamp) :
  forall d,
    In (py_min d ds) (d :: ds)
    /\ forall x, In x (d :: ds) -> (py_min d ds <= x)%Z.
Proof.
  unfold py_min, Timestamp. induction ds as [|y ds IH]; intros d; simpl.
  - split; [now left|]. intros x [<- | []]. lia.
  - destruct (IH (if (y <? d)%Z then y else d)) as [Hin Hle].
    split.
    + destruct Hin as [Hin | Hin]; [|now right; right].
      rewrite <- Hin. destruct (y <? d)%Z; [right; now left | now left].
    + intros x Hx.
      assert (Hm : ((if (y <? d)%Z then y else d) <= d
                    /\ (if (y <? d)%Z then y else d) <= y)%Z)
        by (destruct (Z.ltb_spec y d); lia).
      pose proof (Hle _ (or_introl eq_refl)) as H0.
      destruct Hx as [<- | [<- | Hx]]; try lia.
      apply Hle. now right.
Qed.

Lemma py_max_spec (ds : list Timestamp) :
  forall d,
    In (py_max d ds) (d :: ds)
    /\ forall x, In x (d :: ds) -> (x <= py_max d ds)%Z.
Proof.
  unfold py_max, Timestamp. induction ds as [|y ds IH]; intros d; simpl.
  - split; [now left|]. intros x [<- | []]. lia.
  - destruct (IH (if (d <? y)%Z then y else d)) as [Hin Hle].
    split.
    + destruct Hin as [Hin | Hin]; [|now right; right].
      rewrite <- Hin. destruct (d <? y)%Z; [right; now left | now left].
    + intros x Hx.
      assert (Hm : (d <= (if (d <? y)%Z then y else d)
                    /\ y <= (if (d <? y)%Z then y else d))%Z)
        by (destruct (Z.ltb_spec d y); lia).
      pose proof (Hle _ (or_introl eq_refl)) as H0.
      destruct Hx as [<- | [<- | Hx]]; try lia.
      apply Hle. now right.
Qed.

(** When every file has a date, the loop collects them all, in order. *)
Lemma collect_dates_ok (paths : list string) :
  (forall p, In p paths -> exists d, file_date p = Ok d) ->
  forall acc,
  exists ds,
    collect_dates paths acc = Ok (acc ++ ds)
    /\ Forall2 (fun p d => file_date p = Ok d) paths ds.
Proof.
  induction paths as [|p paths IH]; intros Hall acc.
  - exists []. simpl. rewrite app_nil_r. split; constructor.
  - destruct (Hall p (or_introl eq_refl)) as [d Hd].
    destruct (IH (fun q Hq => Hall q (or_intror Hq)) (acc ++ [d]))
      as (ds & Hc & Hf).
    exists (d :: ds). simpl. rewrite Hd, Hc, <- app_assoc.
    split; [reflexivity | now constructor].
Qed.

(** One file without a date makes the loop raise. *)
Lemma collect_dates_raise (paths : list string) (p : string) (e : Exn) :
  In p paths -> file_date p = Raise e ->
  forall acc, exists e', collect_dates paths acc = Raise e'.
Proof.
  induction paths as [|q paths IH]; intros Hin Hp acc; [contradiction|].
  simpl. destruct (file_date q) as [d|e'] eqn:Eq; [|now exists e'].
  destruct Hin as [-> | Hin]; [congruence|]. now apply IH.
Qed.

Lemma collect_dates_raised_by (paths : list string) (e : Exn) :
  forall acc,
    collect_dates paths acc = Raise e ->
    exists p, In p paths /\ file_date p = Raise e.
Proof.
  induction paths as [|q paths IH]; intros acc H; [discriminate|].
  simpl in H. destruct (file_date q) as [d|e'] eqn:Eq.
  - destruct (IH _ H) as (p & Hin & Hp). exists p. split; [now right | exact Hp].
  - inversion H; subst. exists q. split; [now left | exact Eq].
Qed.

Lemma to_datetime_raises (date : string) (e : Exn) :
  to_datetime date = Raise e -> e = ValueError.
Proof.
  unfold to_datetime.
  destruct (re_match format_regex date) as [[cs rest]|]; [|congruence].
  destruct (truthy rest); [congruence|].
  destruct (_ || _); [congruence|].
  destruct (in_bounds _); congruence.
Qed.

Lemma split_scan_spent (sep s : string) :
  forall cur, split_scan sep 0 0 cur s = [(cur ++ s)%string].
Proof.
  induction s as [|c s IH]; intros cur; simpl.
  - now rewrite StrFacts.sapp_nil_r.
  - now rewrite IH, StrFacts.sapp_assoc.
Qed.

(** For a path [glob] returns, [split("/", 1)[1]] is the name of the
    file, so that its date is what [to_datetime] makes of the first two
    [_]-separated parts of the name. *)
Lemma file_date_glob (p : string) :
  glob_match p = true ->
  exists name,
    p = (DIR_NAME ++ "/" ++ name)%string
    /\ file_date p
       = to_datetime (join "_" (firstn 2 (split_max "_" 2 name))).
Proof.
  unfold glob_match. intros H.
  destruct (drop_prefix (DIR_NAME ++ "/") p) as [name|] eqn:E; [|discriminate].
  apply ReFacts.drop_prefix_spec in E. exists name. split.
  - rewrite E. unfold DIR_NAME. reflexivity.
  - rewrite E. unfold file_date, split_max at 1, DIR_NAME.
    cbn -[split_max to_datetime join firstn split_scan].
    cbn [split_scan append drop_prefix Ascii.eqb Bool.eqb String.length
         Nat.sub].
    rewrite split_scan_spent. reflexivity.
Qed.

Lemma file_date_raises (p : string) (e : Exn) :
  glob_match p = true -> file_date p = Raise e -> e = ValueError.
Proof.
  intros Hg H. destruct (file_date_glob p Hg) as (name & _ & Hd).
  rewrite Hd in H. now apply to_datetime_raises in H.
Qed.

(** *** Events and files *)

Lemma replay_app (evs1 evs2 : list Event) :
  forall fs, replay fs (evs1 ++ evs2) = replay (replay fs evs1) evs2.
Proof.
  induction evs1 as [|e evs1 IH]; intros fs; [reflexivity|].
  destruct e; simpl; apply IH.
Qed.

Lemma windows_ok_app (s : Self) (evs1 evs2 : list Event) :
  forall fs,
    windows_ok s fs (evs1 ++ evs2)
    <-> windows_ok s fs evs1 /\ windows_ok s (replay fs evs1) evs2.
Proof.
  induction evs1 as [|e evs1 IH]; intros fs; simpl.
  - tauto.
  - destruct e; simpl; rewrite IH; tauto.
Qed.

Lemma windows_ok_no_search (s : Self) (evs : list Event) :
  forallb (fun e => negb (is_search e)) evs = true ->
  forall fs, windows_ok s fs evs.
Proof.
  induction evs as [|e evs IH]; intros H fs; simpl; [exact I|].
  simpl in H. apply andb_true_iff in H as [He H].
  destruct e; simpl in *; try discriminate; now apply IH.
Qed.

Lemma window_at_same_mode (s s' : Self) (fs : list (string * list Row))
      (a b : option string) :
  same_mode s s' -> window_at s' fs a b -> window_at s fs a b.
Proof.
  intros (Hl & Ha & Hg). unfold window_at. rewrite Hl, Ha.
  destruct (get_after_least s) eqn:E1; [tauto|].
  destruct (get_latest s) eqn:E2; [tauto|].
  destruct (Hg eq_refl eq_refl) as [-> ->]. tauto.
Qed.

Lemma windows_ok_same_mode (s s' : Self) (evs : list Event) :
  same_mode s s' ->
  forall fs, windows_ok s' fs evs -> windows_ok s fs evs.
Proof.
  intros Hm. induction evs as [|e evs IH]; intros fs H; [exact I|].
  destruct e; simpl in *; try now apply IH.
  destruct H as [H1 H2]. split; [|now apply IH].
  now apply (window_at_same_mode s s').
Qed.

Lemma same_mode_refl (s : Self) : same_mode s s.
Proof. repeat split. Qed.

Lemma same_mode_trans (s1 s2 s3 : Self) :
  same_mode s1 s2 -> same_mode s2 s3 -> same_mode s1 s3.
Proof.
  intros (A1 & A2 & A3) (B1 & B2 & B3).
  split; [congruence|]. split; [congruence|].
  intros H1 H2. destruct (A3 H1 H2) as [E1 E2].
  destruct B3 as [E3 E4]; [congruence | congruence |].
  split; congruence.
Qed.

(** *** What each part of the method does to the world *)

(** The loop over the items makes no search request and leaves the
    attributes alone; the files follow the writes. *)
Lemma process_item_effect (client : Client) (item : SearchItem) (w : World) :
  exists evs,
    trace (snd (process_item client item w)) = trace w ++ evs
    /\ files (snd (process_item client item w)) = replay (files w) evs
    /\ self (snd (process_item client item w)) = self w
    /\ forallb (fun e => negb (is_search e)) evs = true.
Proof.
  rewrite process_item_eq. cbv zeta.
  destruct (asr_result client (videoId item)) as [[cid|]|e].
  - destruct (truthy cid).
    + destruct (subtitles_result client cid) as [[|l ls]|e].
      * exists [CaptionsList (videoId item); CaptionsDownload cid].
        simpl. now rewrite <- app_assoc.
      * exists [CaptionsList (videoId item); CaptionsDownload cid;
                ToCsv (csv_path item) (csv_rows item (l :: ls))].
        simpl. now rewrite <- !app_assoc.
      * exists [CaptionsList (videoId item); CaptionsDownload cid].
        simpl. now rewrite <- app_assoc.
    + now exists [CaptionsList (videoId item)].
  - now exists [CaptionsList (videoId item)].
  - now exists [CaptionsList (videoId item)].
Qed.

Lemma process_items_effect (client : Client) (its : list SearchItem) :
  forall w,
  exists evs,
    trace (snd (process_items client its w)) = trace w ++ evs
    /\ files (snd (process_items client its w)) = replay (files w) evs
    /\ self (snd (process_items client its w)) = self w
    /\ forallb (fun e => negb (is_search e)) evs = true.
Proof.
  induction its as [|item rest IH]; intros w.
  - exists []. simpl. now rewrite app_nil_r.
  - rewrite process_items_cons.
    destruct (process_item_effect client item w) as (e1 & T1 & F1 & S1 & N1).
    destruct (process_item client item w) as [[[]|e] w1]; simpl in *.
    + destruct (IH w1) as (e2 & T2 & F2 & S2 & N2).
      exists (e1 ++ e2).
      rewrite T2, T1, F2, F1, S2, S1, replay_app, forallb_app, N1, N2.
      now rewrite app_assoc.
    + now exists e1.
Qed.

(** The head of the method changes neither the files nor the trace,
    keeps the mode, and when it returns the two attributes are the
    bounds for the files as they are. *)
Lemma set_window_effect (w : World) :
  trace (snd (set_window w)) = trace w
  /\ files (snd (set_window w)) = files w
  /\ same_mode (self w) (self (snd (set_window w)))
  /\ (forall u, fst (set_window w) = Ok u ->
      window_at (self w) (files w)
                (GRAB_AFTER (self (snd (set_window w))))
                (GRAB_BEFORE (self (snd (set_window w))))).
Proof.
  unfold set_window, bind, get_self, set_self, get_extreme_video_date,
    subscript, glob, window_at, same_mode.
  destruct w as [[gl al gb ga] fs tr].
  destruct gl, al; simpl;
    destruct (extreme_of (glob_paths fs)) as [[e|]|x] eqn:E; simpl;
    rewrite ?E; simpl;
    repeat split; try congruence; try discriminate;
    intros; try discriminate; eauto.
Qed.

Lemma search_eq (client : Client) (tok : option string) (w : World) :
  search client tok w
  = (search_list client (GRAB_AFTER (self w)) (GRAB_BEFORE (self w)) tok,
     add_events w [SearchList (GRAB_AFTER (self w)) (GRAB_BEFORE (self w)) tok]).
Proof. reflexivity. Qed.

(** One call of the method, page by page: the events it adds, the
    files it leaves, and the bounds of each of its search requests. *)
Lemma run_effect (client : Client) (depth : nat) :
  forall tok w r w',
    _get_search_videos client depth tok w = (r, w') ->
    exists evs,
      trace w' = trace w ++ evs
      /\ files w' = replay (files w) evs
      /\ same_mode (self w) (self w')
      /\ windows_ok (self w) (files w) evs.
Proof.
  induction depth as [|d IH]; intros tok w r w' H.
  - inversion H; subst. exists []. simpl. rewrite app_nil_r.
    split; [|split; [|split]]; auto using same_mode_refl.
  - cbn [_get_search_videos] in H. unfold bind in H.
    pose proof (set_window_effect w) as (T0 & F0 & M0 & W0).
    destruct (set_window w) as [[u|e0] w0]; simpl in T0, F0, M0, W0.
    2:{ inversion H; subst. exists []. simpl.
        rewrite app_nil_r, T0, F0. split; [|split; [|split]]; auto. }
    specialize (W0 u eq_refl). rewrite search_eq in H.
    set (ev := SearchList (GRAB_AFTER (self w0)) (GRAB_BEFORE (self w0)) tok)
      in *.
    destruct (search_list client _ _ tok) as [resp|e1].
    2:{ inversion H; subst. exists [ev]. simpl.
        rewrite T0, F0. split; [|split; [|split]]; auto. }
    destruct (process_items_effect client (items resp) (add_events w0 [ev]))
      as (evs2 & T2 & F2 & S2 & N2).
    destruct (process_items client (items resp) (add_events w0 [ev]))
      as [[u2|e2] w2]; simpl in T2, F2, S2.
    2:{ inversion H; subst. exists (ev :: evs2).
        rewrite T2, F2, S2, T0, F0, <- app_assoc. simpl.
        split; [|split; [|split; [|split]]]; auto.
        now apply windows_ok_no_search. }
    assert (Hdone : (r, w') = (Ok tt, w2) ->
            exists evs,
              trace w' = trace w ++ evs
              /\ files w' = replay (files w) evs
              /\ same_mode (self w) (self w')
              /\ windows_ok (self w) (files w) evs).
    { intros E. inversion E; subst. exists (ev :: evs2).
      rewrite T2, F2, S2, T0, F0, <- app_assoc. simpl.
      split; [|split; [|split; [|split]]]; auto.
      now apply windows_ok_no_search. }
    destruct (nextPageToken resp) as [next|]; [|now apply Hdone].
    destruct (truthy next); [|now apply Hdone].
    destruct (IH _ _ _ _ H) as (evs3 & T3 & F3 & M3 & W3).
    exists (ev :: evs2 ++ evs3).
    rewrite T3, F3, T2, F2, T0, F0, <- !app_assoc. simpl.
    rewrite S2 in M3, W3. rewrite F2, F0 in W3. simpl in W3.
    split; [|split; [|split; [|split]]]; auto.
    + now rewrite replay_app.
    + apply (same_mode_trans _ _ _ M0 M3).
    + apply windows_ok_app. split; [now apply windows_ok_no_search|].
      now apply (windows_ok_same_mode _ _ _ M0).
Qed.

(** In the mode without scan, every search request carries the two
    attributes as they were at the start. *)
Lemma windows_ok_static (s : Self) (evs : list Event) :
  get_after_least s = false -> get_latest s = false ->
  forall fs, windows_ok s fs evs ->
  forall a b t, In (SearchList a b t) evs ->
                a = GRAB_AFTER s /\ b = GRAB_BEFORE s.
Proof.
  intros Ha Hl. induction evs as [|e evs IH]; intros fs H a b t Hin;
    [contradiction|].
  destruct Hin as [-> | Hin].
  - simpl in H. destruct H as [H _]. unfold window_at in H.
    now rewrite Ha, Hl in H.
  - destruct e; simpl in H; try now apply (IH _ H a b t).
    destruct H as [_ H]. now apply (IH _ H a b t).
Qed.

End CrawlerFacts.

(* ================================================================== *)
(** ** Properties of [get_subtitles]'s parser *)

Section ParserProperties.
Import StrFacts ReFacts SrtFacts.

(** C8, as the program has it. For the block of the example [parse]
  returns exactly one line; its fields are the four matched texts, so
  its index is the text [1], not a number; and no line [parse] ever
  returns has another kind of index than a non-empty text of digits. *)
Theorem parse_hello_world :
parse ("1" ++ nl ++ "00:00:01,000 --> 00:00:02,000" ++ nl ++ "Hello world")
= [ {| idx := PyStr "1"; start := PyStr "00:00:01,000";
       end_ := PyStr "00:00:02,000"; text := PyStr "Hello world" |} ]
/\ forall payload l,
     In l (parse payload) ->
     exists i, idx l = PyStr i /\ i <> "" /\ all is_digit i = true.
Proof.
split; [vm_compute; reflexivity|].
intros payload l H.
apply parsed_line_fields in H as (i & st & en & tx & -> & Hi & Hd).
now exists i.
Qed.

Lemma parse_hello_world_witness :
  exists i,
    idx (msg "1" "00:00:01,000" "00:00:02,000" "Hello world") = PyStr i
    /\ i <> "" /\ all is_digit i = true.
Proof.
  apply (proj2 parse_hello_world
               ("1" ++ nl ++ "00:00:01,000 --> 00:00:02,000" ++ nl
                ++ "Hello world")%string).
  vm_compute. left. reflexivity.
Defined.

(** C8, as stated, fails: the line returned for the example does not
  have the integer 1 as its index. *)
Lemma parse_hello_world_index_is_not_an_integer :
parse ("1" ++ nl ++ "00:00:01,000 --> 00:00:02,000" ++ nl ++ "Hello world")
<> [ {| idx := PyInt 1; start := PyStr "00:00:01,000";
        end_ := PyStr "00:00:02,000"; text := PyStr "Hello world" |} ].
Proof. vm_compute. discriminate. Qed.



(** C10. The timing fields are not checked to be timecodes: whatever
  non-empty texts over the digits and [+ | : ,] stand on both sides of
  the arrow are returned as they are; [,,,] is such a text and is not of
  the form [HH:MM:SS,mmm]. *)
Theorem parse_keeps_any_timing_text :
(forall st en : string,
   st <> "" -> all is_time_char st = true ->
   en <> "" -> all is_time_char en = true ->
   parse (join nl ["1"; timing st en; "x"]) = [msg "1" st en "x"])
/\ exists st en : string,
     st <> "" /\ all is_time_char st = true /\ is_timecode st = false
     /\ en <> "" /\ all is_time_char en = true /\ is_timecode en = false
     /\ parse (join nl ["1"; timing st en; "x"]) = [msg "1" st en "x"].
Proof.
assert (G : forall st en : string,
           st <> "" -> all is_time_char st = true ->
           en <> "" -> all is_time_char en = true ->
           parse (join nl ["1"; timing st en; "x"]) = [msg "1" st en "x"]).
{ intros st en Hst Hstd Hen Hend.
  assert (Hjoin : double_nl (join nl ["1"; timing st en; "x"]) = false).
  { apply double_nl_join. repeat constructor; try discriminate;
      now apply timing_is_line. }
  rewrite (parse_single_block _ Hjoin).
  rewrite (block_line_reads _ "1" st en "x"); [reflexivity|].
  change (join nl ["1"; timing st en; "x"])
    with ("1" ++ nl ++ (timing st en ++ nl ++ "x"))%string.
  unfold strip.
  change ("1" ++ nl ++ (timing st en ++ nl ++ "x"))%string
    with (String "1" (nl ++ (timing st en ++ nl ++ "x"))).
  rewrite lstrip_id by reflexivity.
  change (String "1" (nl ++ (timing st en ++ nl ++ "x")))
    with ("1" ++ nl ++ timing st en ++ nl ++ "x")%string.
  repeat (rewrite rstrip_app
           by (rewrite ?all_app, ?andb_false_r; reflexivity)).
  unfold timing. rewrite !sapp_assoc.
  exists "". rewrite sapp_nil_r. repeat split; auto; discriminate. }
split; [exact G|].
exists ",,,", ",,,".
repeat split; try discriminate; try reflexivity.
Qed.

Lemma parse_keeps_any_timing_text_witness :
parse (join nl ["1"; timing ",,," "+|"; "x"]) = [msg "1" ",,," "+|" "x"].
Proof.
apply (proj1 parse_keeps_any_timing_text ",,," "+|");
  try discriminate; reflexivity.
Defined.

End ParserProperties.

(* ================================================================== *)
(** ** Properties of the checkpoint scan *)

Section ScanProperties.
Import CrawlerFacts Samples.

(** C7. When the directory holds at least one file and every file
    name gives a date, [get_extreme_video_date] returns the least of the
    dates as [oldest] and the greatest as [last]; for the two files of the
    example these are 2018-03-15T12:00:00Z and 2018-04-10T09:00:00Z; and
    when the directory holds no file it returns [None]. *)
Theorem scan_returns_oldest_and_last :
  (forall w : World,
     glob w <> [] ->
     (forall p, In p (glob w) -> exists d, file_date p = Ok d) ->
     exists e,
       get_extreme_video_date w = (Ok (Some e), w)
       /\ (exists p, In p (glob w) /\ file_date p = Ok (oldest e))
       /\ (exists p, In p (glob w) /\ file_date p = Ok (last e))
       /\ forall p d, In p (glob w) -> file_date p = Ok d ->
                      (oldest e <= d <= last e)%Z)
  /\ (forall s tr rows1 rows2,
        let w := {| self := s;
                    files := [("by_title/20180315_120000_abc123.csv", rows1);
                              ("by_title/20180410_090000_def456.csv", rows2)];
                    trace := tr |} in
        get_extreme_video_date w
        = (Ok (Some {| last := utc 2018 4 10 9 0 0;
                       oldest := utc 2018 3 15 12 0 0 |}), w)
        /\ strftime iso (utc 2018 3 15 12 0 0) = "2018-03-15T12:00:00Z"
        /\ strftime iso (utc 2018 4 10 9 0 0) = "2018-04-10T09:00:00Z")
  /\ (forall s tr,
        let w := {| self := s; files := []; trace := tr |} in
        get_extreme_video_date w = (Ok None, w)).
Proof.
  split; [|split].
  - intros w Hne Hall. unfold get_extreme_video_date, extreme_of.
    destruct (collect_dates_ok (glob w) Hall []) as (ds & Hc & Hf).
    rewrite Hc. simpl.
    destruct ds as [|d ds].
    { inversion Hf as [E|]. now rewrite <- E in Hne. }
    exists {| last := py_max d ds; oldest := py_min d ds |}. simpl.
    destruct (py_min_spec ds d) as [Hmin_in Hmin].
    destruct (py_max_spec ds d) as [Hmax_in Hmax].
    assert (Hfrom : forall x, In x (d :: ds) ->
                              exists p, In p (glob w) /\ file_date p = Ok x).
    { clear -Hf. induction Hf as [|p x ps xs Hpx _ IH]; intros y Hy;
        [contradiction|].
      destruct Hy as [<- | Hy].
      - exists p. split; [now left | exact Hpx].
      - destruct (IH y Hy) as (q & Hq & Hd). exists q. split; [now right|auto]. }
    assert (Hto : forall p x, In p (glob w) -> file_date p = Ok x ->
                              In x (d :: ds)).
    { clear -Hf. induction Hf as [|p x ps xs Hpx _ IH]; intros q y Hq Hy;
        [contradiction|].
      destruct Hq as [<- | Hq].
      - left. congruence.
      - right. now apply (IH q). }
    repeat split; auto.
    + apply Hmin. now apply (Hto p).
    + apply Hmax. now apply (Hto p).
  - intros s tr rows1 rows2 w. repeat split; vm_compute; reflexivity.
  - intros s tr w. reflexivity.
Qed.

Lemma scan_returns_oldest_and_last_witness :
  exists e,
    get_extreme_video_date
      (fresh true false [("by_title/20180601_000000_old.csv", []);
                         ("by_title/20180501_000000_vid1.csv", [])])
    = (Ok (Some e),
       fresh true false [("by_title/20180601_000000_old.csv", []);
                         ("by_title/20180501_000000_vid1.csv", [])])
    /\ oldest e = utc 2018 5 1 0 0 0 /\ last e = utc 2018 6 1 0 0 0.
Proof.
  destruct (proj1 scan_returns_oldest_and_last
              (fresh true false [("by_title/20180601_000000_old.csv", []);
                                 ("by_title/20180501_000000_vid1.csv", [])]))
    as (e & He & _).
  - vm_compute. discriminate.
  - intros p Hp. vm_compute in Hp.
    destruct Hp as [<- | [<- | []]]; eexists; vm_compute; reflexivity.
  - exists e. split; [exact He|].
    vm_compute in He. inversion He. split; reflexivity.
Defined.

(** C4, as the program has it. The scan has no way of skipping a
    file: one file name of the directory that gives no date makes
    [get_extreme_video_date] raise [ValueError], and no bounds are
    derived; it returns when every file name gives a date. *)
Theorem scan_raises_on_unparsable_name :
  forall w : World,
    (forall p e, In p (glob w) -> file_date p = Raise e ->
                 get_extreme_video_date w = (Raise ValueError, w))
    /\ ((forall p, In p (glob w) -> exists d, file_date p = Ok d) ->
        exists r, get_extreme_video_date w = (Ok r, w)).
Proof.
  intros w. split.
  - intros p e Hin Hp. unfold get_extreme_video_date, extreme_of.
    destruct (collect_dates_raise _ _ _ Hin Hp []) as [e' He']. rewrite He'.
    destruct (collect_dates_raised_by _ _ _ He') as (q & Hq & Hqe).
    apply filter_In in Hq as [_ Hq].
    now rewrite (file_date_raises q e' Hq Hqe).
  - intros Hall. unfold get_extreme_video_date, extreme_of.
    destruct (collect_dates_ok (glob w) Hall []) as (ds & Hc & _).
    rewrite Hc. simpl. destruct ds; eexists; reflexivity.
Qed.

Lemma scan_raises_on_unparsable_name_witness :
  get_extreme_video_date
    (fresh true false [("by_title/20180315_120000_abc123.csv", []);
                       ("by_title/notes.csv", [])])
  = (Raise ValueError,
     fresh true false [("by_title/20180315_120000_abc123.csv", []);
                       ("by_title/notes.csv", [])]).
Proof.
  apply (proj1 (scan_raises_on_unparsable_name _)
               "by_title/notes.csv" ValueError).
  - vm_compute. right. now left.
  - vm_compute. reflexivity.
Defined.

(** C4, as stated, fails: with one file whose name gives a date and
    one whose name does not, the scan raises instead of deriving the
    bounds from the first, and a run in backfill mode ends there, before
    any request. *)
Lemma scan_aborts_on_one_bad_name :
  extreme_of (glob_paths [("by_title/20180315_120000_abc123.csv", []);
                          ("by_title/notes.csv", [])])
  = Raise ValueError
  /\ VideoGetter two_pages 5 true false
       [("by_title/20180315_120000_abc123.csv", []);
        ("by_title/notes.csv", [])]
     = (Raise ValueError,
        fresh true false [("by_title/20180315_120000_abc123.csv", []);
                          ("by_title/notes.csv", [])]).
Proof. split; vm_compute; reflexivity. Qed.

End ScanProperties.

(* ================================================================== *)
(** ** Properties of the crawl *)

Section CrawlProperties.
Import CrawlerFacts Samples.

Local Arguments strftime : simpl never.

(** C1, as the program has it. When the track of a video is resolved
    and its download raises a transport error: if the status is 403 the
    step for that video ends normally with nothing written and the loop
    goes on with the next item; with any other status the error leaves
    the loop. An error raised while the tracks are listed, whatever its
    status, leaves the loop as well; and an error that leaves the loop
    leaves the method, so that the run ends with it. *)
Theorem forbidden_download_is_absorbed :
  forall (client : Client) (item : SearchItem) (rest : list SearchItem)
         (w : World),
    (forall tracks cid status,
       captions_list client (videoId item) = Ok tracks ->
       first_asr tracks = Some cid -> truthy cid = true ->
       captions_download client cid = Raise (HttpError status) ->
       let w' := add_events w [CaptionsList (videoId item);
                               CaptionsDownload cid] in
       (status = 403%Z ->
        process_item client item w = (Ok tt, w')
        /\ process_items client (item :: rest) w
           = process_items client rest w')
       /\ (status <> 403%Z ->
           process_item client item w = (Raise (HttpError status), w')
           /\ process_items client (item :: rest) w
              = (Raise (HttpError status), w')))
    /\ (forall e,
          captions_list client (videoId item) = Raise e ->
          let w' := add_events w [CaptionsList (videoId item)] in
          process_item client item w = (Raise e, w')
          /\ process_items client (item :: rest) w = (Raise e, w'))
    /\ (forall depth tok w0 w1 response e w2,
          set_window w0 = (Ok tt, w1) ->
          search client tok w1 = (Ok response, w) ->
          process_items client (items response) w = (Raise e, w2) ->
          _get_search_videos client (S depth) tok w0 = (Raise e, w2)).
Proof.
  intros client item rest w. split; [|split].
  - intros tracks cid status Hl Ha Ht Hd w'.
    assert (Hasr : asr_result client (videoId item) = Ok (Some cid))
      by (unfold asr_result; now rewrite Hl, Ha).
    split; intros Hs.
    + assert (Hsub : subtitles_result client cid = Ok [])
        by (unfold subtitles_result; rewrite Hd; subst status; reflexivity).
      assert (Hitem : process_item client item w = (Ok tt, w')).
      { rewrite process_item_eq. cbv zeta. rewrite Hasr, Ht, Hsub.
        unfold w', add_events. simpl. now rewrite <- app_assoc. }
      split; [exact Hitem|]. now rewrite process_items_cons, Hitem.
    + assert (Hsub : subtitles_result client cid = Raise (HttpError status)).
      { unfold subtitles_result. rewrite Hd.
        destruct (Z.eqb_spec status 403); [contradiction | reflexivity]. }
      assert (Hitem : process_item client item w
                      = (Raise (HttpError status), w')).
      { rewrite process_item_eq. cbv zeta. rewrite Hasr, Ht, Hsub.
        unfold w', add_events. simpl. now rewrite <- app_assoc. }
      split; [exact Hitem|]. now rewrite process_items_cons, Hitem.
  - intros e Hl w'.
    assert (Hitem : process_item client item w = (Raise e, w')).
    { rewrite process_item_eq. cbv zeta. unfold asr_result. now rewrite Hl. }
    split; [exact Hitem|]. now rewrite process_items_cons, Hitem.
  - intros depth tok w0 w1 response e w2 Hw Hs Hp.
    cbn [_get_search_videos]. unfold bind. now rewrite Hw, Hs, Hp.
Qed.

Lemma forbidden_download_is_absorbed_witness :
  process_items (failing_download 403) [video1; video2] (fresh false false [])
  = process_items (failing_download 403) [video2]
      (add_events (fresh false false [])
                  [CaptionsList "vid1"; CaptionsDownload "cvid1"])
  /\ process_items (failing_download 500) [video1; video2]
                   (fresh false false [])
     = (Raise (HttpError 500),
        add_events (fresh false false [])
                   [CaptionsList "vid1"; CaptionsDownload "cvid1"])
  /\ process_items (failing_list 403) [video1; video2] (fresh false false [])
     = (Raise (HttpError 403),
        add_events (fresh false false []) [CaptionsList "vid1"])
  /\ VideoGetter (failing_download 500) 5 false false []
     = (Raise (HttpError 500),
        add_events (fresh false false [])
          [SearchList (Some "2018-01-01T00:00:00Z")
                      (Some "2018-10-20T00:00:00Z") None;
           CaptionsList "vid1"; CaptionsDownload "cvid1"]).
Proof.
  split; [|split; [|split]].
  - apply (proj1 (forbidden_download_is_absorbed
                    (failing_download 403) video1 [video2]
                    (fresh false false []))
                 [asr_track "cvid1"] "cvid1" 403%Z);
      reflexivity.
  - apply (proj1 (forbidden_download_is_absorbed
                    (failing_download 500) video1 [video2]
                    (fresh false false []))
                 [asr_track "cvid1"] "cvid1" 500%Z);
      try reflexivity. discriminate.
  - apply (proj1 (proj2 (forbidden_download_is_absorbed
                           (failing_list 403) video1 [video2]
                           (fresh false false [])))
                 (HttpError 403)).
    reflexivity.
  - apply (proj2 (proj2 (forbidden_download_is_absorbed
                           (failing_download 500) video1 [video2]
                           (add_events (fresh false false [])
                              [SearchList (Some "2018-01-01T00:00:00Z")
                                          (Some "2018-10-20T00:00:00Z")
                                          None])))
                 4 None (fresh false false []) (fresh false false [])
                 {| items := [video1; video2]; nextPageToken := None |});
      reflexivity.
Defined.

(** C1, as stated, fails: a 403 raised while the tracks of the first
    video are listed is not absorbed; the run ends with it and the second
    video of the page is never looked at. *)
Lemma forbidden_while_resolving_aborts_the_run :
  VideoGetter (failing_list 403) 5 false false []
  = (Raise (HttpError 403),
     add_events (fresh false false [])
       [SearchList (Some "2018-01-01T00:00:00Z") (Some "2018-10-20T00:00:00Z")
                   None;
        CaptionsList "vid1"]).
Proof. vm_compute. reflexivity. Qed.

(** C2, as the program has it. The head of the method runs again for
    every page: each search request of a run carries the bounds derived
    from the files as they are when the request is made, the writes of
    the earlier pages included. Only in the mode without scan are the
    bounds the same two defaults for every page. *)
Theorem search_bounds_follow_the_files :
  forall (client : Client) (depth : nat) (get_after_least get_latest : bool)
         (fs : list (string * list Row)),
    let w' := snd (VideoGetter client depth get_after_least get_latest fs) in
    windows_ok (new_self get_after_least get_latest) fs (trace w')
    /\ files w' = replay fs (trace w')
    /\ (get_after_least = false -> get_latest = false ->
        forall a b t,
          In (SearchList a b t) (trace w') ->
          a = Some "2018-01-01T00:00:00Z" /\ b = Some "2018-10-20T00:00:00Z").
Proof.
  intros client depth al gl fs w'. unfold w', VideoGetter.
  destruct (_get_search_videos client depth None _) as [r w1] eqn:E.
  apply run_effect in E as (evs & T & F & M & W). simpl in *. subst evs.
  split; [exact W|]. split; [exact F|].
  intros -> -> a b t Hin.
  apply (windows_ok_static (new_self false false) (trace w1)
                           eq_refl eq_refl fs W a b t Hin).
Qed.

Lemma search_bounds_follow_the_files_witness :
  In (SearchList (Some "2018-01-01T00:00:00Z") (Some "2018-10-20T00:00:00Z")
                 (Some "p2"))
     (trace (snd (VideoGetter two_pages 5 false false [])))
  /\ (Some "2018-01-01T00:00:00Z" = Some "2018-01-01T00:00:00Z"
      /\ Some "2018-10-20T00:00:00Z" = Some "2018-10-20T00:00:00Z").
Proof.
  assert (Hin : In (SearchList (Some "2018-01-01T00:00:00Z")
                               (Some "2018-10-20T00:00:00Z") (Some "p2"))
                   (trace (snd (VideoGetter two_pages 5 false false []))))
    by (vm_compute; tauto).
  split; [exact Hin|].
  exact (proj2 (proj2 (search_bounds_follow_the_files
                         two_pages 5 false false []))
               eq_refl eq_refl _ _ _ Hin).
Defined.

(** C2, as stated, fails: in backfill mode the second page is
    requested with the date of the file the first page wrote, not with the
    bound of the first request. *)
Lemma window_recomputed_for_second_page :
  trace (snd (VideoGetter two_pages 5 true false
                          [("by_title/20180601_000000_old.csv", [])]))
  = [ SearchList None (Some "2018-06-01T00:00:00Z") None;
      CaptionsList "vid1"; CaptionsDownload "cvid1";
      ToCsv "by_title/20180501_000000_vid1.csv"
            [("vid1", "First", PyStr "00:00:01,000", PyStr "Hello world")];
      SearchList None (Some "2018-05-01T00:00:00Z") (Some "p2");
      CaptionsList "vid2"; CaptionsDownload "cvid2";
      ToCsv "by_title/20180401_000000_vid2.csv"
            [("vid2", "Second", PyStr "00:00:01,000", PyStr "Hello world")] ].
Proof. vm_compute. reflexivity. Qed.

(** C3, on the program. With no file in the directory the scan
    returns [None]; a run in the mode without scan goes on with the
    default bounds; a run in backfill or catch-up mode subscripts that
    [None] and ends with [TypeError] before any request. *)
Theorem first_run_with_scan_raises :
  forall (client : Client) (depth : nat) (fs : list (string * list Row)),
    glob_paths fs = [] ->
    extreme_of (glob_paths fs) = Ok None
    /\ (forall get_after_least get_latest,
          get_after_least || get_latest = true ->
          VideoGetter client (S depth) get_after_least get_latest fs
          = (Raise TypeError, fresh get_after_least get_latest fs))
    /\ exists rest,
         trace (snd (VideoGetter client (S depth) false false fs))
         = SearchList (Some "2018-01-01T00:00:00Z")
                      (Some "2018-10-20T00:00:00Z") None :: rest.
Proof.
  intros client depth fs Hg. split; [now rewrite Hg|]. split.
  - intros al gl H. unfold VideoGetter, fresh.
    cbn [_get_search_videos]. unfold bind at 1.
    assert (Hw : set_window {| self := new_self al gl; files := fs;
                               trace := [] |}
                 = (Raise TypeError,
                    {| self := new_self al gl; files := fs; trace := [] |})).
    { unfold set_window, bind, get_self, get_extreme_video_date, glob,
        glob_paths in *.
      destruct al, gl; try discriminate; simpl; rewrite ?Hg; reflexivity. }
    now rewrite Hw.
  - unfold VideoGetter.
    destruct (_get_search_videos client (S depth) None _) as [r w1] eqn:E.
    cbn [_get_search_videos] in E. unfold bind in E.
    change (set_window {| self := new_self false false; files := fs;
                          trace := [] |})
      with (Ok tt, {| self := new_self false false; files := fs;
                      trace := [] |}) in E.
    cbv iota beta in E. rewrite search_eq in E.
    set (ev := SearchList _ _ None) in E.
    destruct (search_list client _ _ None) as [resp|e1].
    + destruct (process_items_effect client (items resp)
                  (add_events {| self := new_self false false; files := fs;
                                 trace := [] |} [ev]))
        as (evs2 & T2 & _).
      destruct (process_items client (items resp) _) as [[u2|e2] w2];
        simpl in T2.
      * destruct (nextPageToken resp) as [next|];
          [destruct (truthy next)|].
        -- apply run_effect in E as (evs3 & T3 & _).
           rewrite T2 in T3. simpl. rewrite T3. now eexists.
        -- inversion E; subst. simpl. rewrite T2. now eexists.
        -- inversion E; subst. simpl. rewrite T2. now eexists.
      * inversion E; subst. simpl. rewrite T2. now eexists.
    + inversion E; subst. simpl. now eexists.
Qed.

Lemma first_run_with_scan_raises_witness :
  main two_pages 5 [("by_title/readme.txt", [])]
  = (Raise TypeError, fresh true false [("by_title/readme.txt", [])]).
Proof.
  apply (proj1 (proj2 (first_run_with_scan_raises
                         two_pages 4 [("by_title/readme.txt", [])]
                         eq_refl))).
  reflexivity.
Defined.

End CrawlProperties.

(* ================================================================== *)
(** ** More facts about the files and the scan *)

Module FileFacts.
Import Py Re Srt Time Crawler Spec More CrawlerFacts.

Lemma write_file_keeps_paths (path : string) (rows : list Row)
      (fs : list (string * list Row)) (p : string) :
  In p (map fst fs) -> In p (map fst (write_file path rows fs)).
Proof.
  induction fs as [|[q r] fs IH]; simpl; [contradiction|].
  intros [<- | H].
  - destruct (String.eqb_spec q path) as [->|]; simpl; now left.
  - destruct (String.eqb q path); simpl; [now right | right; now apply IH].
Qed.

Lemma write_file_has_path (path : string) (rows : list Row)
      (fs : list (string * list Row)) :
  In (path, rows) (write_file path rows fs).
Proof.
  induction fs as [|[q r] fs IH]; simpl; [now left|].
  destruct (String.eqb q path); simpl; [now left | now right].
Qed.

Lemma write_file_paths_from (path : string) (rows : list Row)
      (fs : list (string * list Row)) (p : string) :
  In p (map fst (write_file path rows fs)) -> p = path \/ In p (map fst fs).
Proof.
  induction fs as [|[q r] fs IH]; simpl.
  - intros [<- | []]. now left.
  - destruct (String.eqb_spec q path) as [->|]; simpl.
    + intros [<- | H]; [now left | right; now right].
    + intros [<- | H]; [right; now left|].
      destruct (IH H) as [-> | H']; [now left | right; now right].
Qed.

Lemma write_file_keeps_others (path : string) (rows : list Row)
      (fs : list (string * list Row)) (p : string) (r : list Row) :
  p <> path -> In (p, r) fs -> In (p, r) (write_file path rows fs).
Proof.
  intros Hne. induction fs as [|[q r'] fs IH]; simpl; [contradiction|].
  intros [E | H].
  - inversion E; subst. destruct (String.eqb_spec p path); [contradiction|].
    now left.
  - destruct (String.eqb q path); simpl; [now right | right; now apply IH].
Qed.

Lemma write_file_nodup (path : string) (rows : list Row)
      (fs : list (string * list Row)) :
  NoDup (map fst fs) -> NoDup (map fst (write_file path rows fs)).
Proof.
  induction fs as [|[q r] fs IH]; simpl; intros H.
  - constructor; [intros [] | constructor].
  - inversion H as [|? ? Hq Hfs]; subst.
    destruct (String.eqb_spec q path) as [->|Hne]; simpl.
    + now constructor.
    + constructor; [|now apply IH].
      intros Hin. apply write_file_paths_from in Hin as [-> | Hin]; auto.
Qed.

Lemma replay_keeps_paths (evs : list Event) :
  forall fs p, In p (map fst fs) -> In p (map fst (replay fs evs)).
Proof.
  induction evs as [|e evs IH]; intros fs p H; [exact H|].
  destruct e; simpl; try now apply IH.
  apply IH. now apply write_file_keeps_paths.
Qed.

Lemma replay_paths_from (evs : list Event) :
  forall fs p,
    In p (map fst (replay fs evs)) ->
    In p (map fst fs) \/ exists rows, In (ToCsv p rows) evs.
Proof.
  induction evs as [|e evs IH]; intros fs p H; [now left|].
  destruct e; simpl in H;
    try (destruct (IH _ _ H) as [H'|[rows H']];
         [now left | right; exists rows; now right]).
  destruct (IH _ _ H) as [H'|[rows' H']].
  - apply write_file_paths_from in H' as [-> | H'];
      [right; exists rows; now left | now left].
  - right. exists rows'. now right.
Qed.

Lemma replay_keeps_others (evs : list Event) :
  forall fs p r,
    In (p, r) fs -> (forall rows, ~ In (ToCsv p rows) evs) ->
    In (p, r) (replay fs evs).
Proof.
  induction evs as [|e evs IH]; intros fs p r H Hno; [exact H|].
  destruct e; simpl;
    try (apply IH; [exact H | intros rows Hin; apply (Hno rows); now right]).
  apply IH.
  - apply write_file_keeps_others; [|exact H].
    intros ->. apply (Hno rows). now left.
  - intros rows' Hin. apply (Hno rows'). now right.
Qed.

Lemma replay_nodup (evs : list Event) :
  forall fs, NoDup (map fst fs) -> NoDup (map fst (replay fs evs)).
Proof.
  induction evs as [|e evs IH]; intros fs H; [exact H|].
  destruct e; simpl; try now apply IH.
  apply IH. now apply write_file_nodup.
Qed.

Lemma run_files (client : Client) (depth : nat) (al gl : bool)
      (fs : list (string * list Row)) :
  files (snd (VideoGetter client depth al gl fs))
  = replay fs (trace (snd (VideoGetter client depth al gl fs))).
Proof.
  unfold VideoGetter.
  destruct (_get_search_videos client depth None _) as [r w1] eqn:E.
  apply run_effect in E as (evs & T & F & _). simpl in *. now subst evs.
Qed.

(** *** What [extreme_of] returns *)

Lemma collect_dates_inv (paths : list string) :
  forall acc ds,
    collect_dates paths acc = Ok ds ->
    exists ds',
      ds = acc ++ ds' /\ Forall2 (fun p d => file_date p = Ok d) paths ds'.
Proof.
  induction paths as [|p paths IH]; intros acc ds H; simpl in H.
  - inversion H; subst. exists []. rewrite app_nil_r. split; constructor.
  - destruct (file_date p) as [d|e] eqn:Ep; [|discriminate].
    destruct (IH _ _ H) as (ds' & -> & Hf).
    exists (d :: ds'). rewrite <- app_assoc. split; [reflexivity|].
    now constructor.
Qed.

Lemma dates_of_paths (paths : list string) (ds : list Timestamp) :
  Forall2 (fun p d => file_date p = Ok d) paths ds ->
  (forall x, In x ds -> exists p, In p paths /\ file_date p = Ok x)
  /\ (forall p x, In p paths -> file_date p = Ok x -> In x ds).
Proof.
  induction 1 as [|p x ps xs Hpx _ [IH1 IH2]]; split.
  - intros x [].
  - intros p x [].
  - intros y [<- | Hy].
    + exists p. split; [now left | exact Hpx].
    + destruct (IH1 y Hy) as (q & Hq & Hd). exists q. split; [now right|auto].
  - intros q y [<- | Hq] Hy.
    + left. congruence.
    + right. now apply (IH2 q).
Qed.

(** When the scan returns bounds, every file has a date between them
    and each bound is the date of a file. *)
Lemma extreme_of_some (paths : list string) (e : Extreme) :
  extreme_of paths = Ok (Some e) ->
  (forall p, In p paths ->
             exists d, file_date p = Ok d /\ (oldest e <= d <= last e)%Z)
  /\ (exists p, In p paths /\ file_date p = Ok (oldest e))
  /\ (exists p, In p paths /\ file_date p = Ok (last e)).
Proof.
  unfold extreme_of. intros H.
  destruct (collect_dates paths []) as [[|d ds]|x] eqn:E; try discriminate.
  inversion H; subst e; clear H. simpl.
  apply collect_dates_inv in E as (ds' & E & Hf). simpl in E. subst ds'.
  destruct (dates_of_paths _ _ Hf) as [Hfrom Hto].
  destruct (py_min_spec ds d) as [Hmin_in Hmin].
  destruct (py_max_spec ds d) as [Hmax_in Hmax].
  split; [|split; auto].
  intros p Hp.
  assert (Hd : exists x, file_date p = Ok x).
  { clear -Hf Hp. induction Hf as [|q x ps xs Hq _ IH]; [contradiction|].
    destruct Hp as [<- | Hp]; [now exists x | now apply IH]. }
  destruct Hd as [x Hx]. exists x. split; [exact Hx|].
  split; [apply Hmin | apply Hmax]; now apply (Hto p).
Qed.

Lemma extreme_of_none (paths : list string) :
  extreme_of paths = Ok None -> paths = [].
Proof.
  unfold extreme_of. intros H.
  destruct (collect_dates paths []) as [[|d ds]|x] eqn:E; try discriminate.
  apply collect_dates_inv in E as (ds' & E & Hf). simpl in E. subst ds'.
  now inversion Hf.
Qed.

Lemma extreme_of_raise (paths : list string) (x : Exn) :
  extreme_of paths = Raise x ->
  exists p, In p paths /\ file_date p = Raise x.
Proof.
  unfold extreme_of. intros H.
  destruct (collect_dates paths []) as [[|d ds]|y] eqn:E; try discriminate.
  inversion H; subst. now apply collect_dates_raised_by in E.
Qed.

Lemma extreme_of_total (paths : list string) :
  (forall p, In p paths -> exists d, file_date p = Ok d) ->
  paths <> [] -> exists e, extreme_of paths = Ok (Some e).
Proof.
  intros Hall Hne. unfold extreme_of.
  destruct (collect_dates_ok paths Hall []) as (ds & Hc & Hf).
  rewrite Hc. simpl. destruct ds as [|d ds]; [|now eexists].
  inversion Hf; subst. congruence.
Qed.

End FileFacts.

(* ================================================================== *)
(** ** More properties of the files and the scan *)

Section FileProperties.
Import CrawlerFacts FileFacts More Samples.

(** X1. Building the object never removes a file: every path of the
    directory is still there afterwards, a file no write of the run names
    keeps its rows, every path there afterwards was there before or was
    written by the run, and no path comes to be listed twice. *)
Theorem init_never_removes_files :
  forall (client : Client) (depth : nat) (get_after_least get_latest : bool)
         (dir : option (list (string * list Row))),
    let w' := snd (__init__ client depth get_after_least get_latest dir) in
    (forall p, In p (map fst (create_dir dir)) -> In p (map fst (files w')))
    /\ (forall p rows,
          In (p, rows) (create_dir dir) ->
          (forall r, ~ In (ToCsv p r) (trace w')) ->
          In (p, rows) (files w'))
    /\ (forall p,
          In p (map fst (files w')) ->
          In p (map fst (create_dir dir))
          \/ exists rows, In (ToCsv p rows) (trace w'))
    /\ (NoDup (map fst (create_dir dir)) -> NoDup (map fst (files w'))).
Proof.
  intros client depth al gl dir w'. unfold w', __init__.
  rewrite run_files.
  split; [|split; [|split]].
  - intros p. apply replay_keeps_paths.
  - intros p rows. apply replay_keeps_others.
  - intros p. apply replay_paths_from.
  - apply replay_nodup.
Qed.

Lemma init_never_removes_files_witness :
  In ("by_title/20180601_000000_old.csv", [("x", "y", PyNone, PyNone)])
     (files (snd (__init__ two_pages 5 true false
                    (Some [("by_title/20180601_000000_old.csv",
                            [("x", "y", PyNone, PyNone)])])))).
Proof.
  apply (proj1 (proj2 (init_never_removes_files
                         two_pages 5 true false
                         (Some [("by_title/20180601_000000_old.csv",
                                 [("x", "y", PyNone, PyNone)])])))).
  - left. reflexivity.
  - intros r H. vm_compute in H.
    repeat (destruct H as [H | H]; [discriminate H|]). exact H.
Defined.

(** The scan sees only which paths there are. *)
Lemma extreme_of_same_paths (paths1 paths2 : list string) :
  (forall p, In p paths1 <-> In p paths2) ->
  (forall r, extreme_of paths1 = Ok r -> extreme_of paths2 = Ok r)
  /\ (forall x, extreme_of paths1 = Raise x ->
                exists x', extreme_of paths2 = Raise x').
Proof.
  intros Hsame. split.
  - intros [e1|] E1.
    + destruct (extreme_of_some _ _ E1)
        as (A1 & (p1 & Hp1 & Ho1) & (q1 & Hq1 & Hl1)).
      destruct (extreme_of paths2) as [[e2|]|x2] eqn:E2.
      * destruct (extreme_of_some _ _ E2)
          as (A2 & (p2 & Hp2 & Ho2) & (q2 & Hq2 & Hl2)).
        destruct (A2 p1 (proj1 (Hsame p1) Hp1)) as (d1 & Hd1 & B1).
        destruct (A2 q1 (proj1 (Hsame q1) Hq1)) as (d2 & Hd2 & B2).
        destruct (A1 p2 (proj2 (Hsame p2) Hp2)) as (d3 & Hd3 & B3).
        destruct (A1 q2 (proj2 (Hsame q2) Hq2)) as (d4 & Hd4 & B4).
        assert (d1 = oldest e1) by congruence.
        assert (d2 = last e1) by congruence.
        assert (d3 = oldest e2) by congruence.
        assert (d4 = last e2) by congruence.
        subst. destruct e1 as [l1 o1], e2 as [l2 o2]. simpl in *.
        unfold Timestamp in *.
        assert (l1 = l2) by lia. assert (o1 = o2) by lia. now subst.
      * apply extreme_of_none in E2. subst paths2.
        now apply Hsame in Hp1.
      * apply extreme_of_raise in E2 as (p & Hp & Hx).
        destruct (A1 p (proj2 (Hsame p) Hp)) as (d & Hd & _). congruence.
    + apply extreme_of_none in E1. subst paths1.
      destruct paths2 as [|p paths2]; [reflexivity|].
      exfalso. apply (Hsame p). now left.
  - intros x E1. apply extreme_of_raise in E1 as (p & Hp & Hx).
    apply Hsame in Hp.
    destruct (collect_dates_raise _ _ _ Hp Hx []) as [e' He'].
    exists e'. unfold extreme_of. now rewrite He'.
Qed.

(** X2. Whether the scan returns or raises, and what it returns when
    it returns, do not depend on the order in which the file system lists
    the files. *)
Theorem scan_ignores_listing_order :
  forall (fs fs' : list (string * list Row)) (s : Self) (tr : list Event),
    Permutation fs fs' ->
    let scan :=
      fst (get_extreme_video_date {| self := s; files := fs; trace := tr |}) in
    let scan' :=
      fst (get_extreme_video_date {| self := s; files := fs'; trace := tr |}) in
    (forall r, scan = Ok r <-> scan' = Ok r)
    /\ ((exists e, scan = Raise e) <-> (exists e', scan' = Raise e')).
Proof.
  intros fs fs' s tr HP scan scan'. unfold scan, scan'.
  unfold get_extreme_video_date, glob. cbn [fst files].
  assert (Hsame : forall p, In p (glob_paths fs) <-> In p (glob_paths fs')).
  { intros p. unfold glob_paths. rewrite !filter_In.
    split; intros [Hin Hg]; (split; [|exact Hg]);
      apply in_map_iff in Hin as ([q r] & <- & Hin); apply in_map_iff;
      exists (q, r); (split; [reflexivity|]).
    - now apply (Permutation_in _ HP).
    - now apply (Permutation_in _ (Permutation_sym HP)). }
  assert (Hsame' : forall p, In p (glob_paths fs') <-> In p (glob_paths fs)).
  { intros p. symmetry. apply Hsame. }
  destruct (extreme_of_same_paths _ _ Hsame) as [A B].
  destruct (extreme_of_same_paths _ _ Hsame') as [A' B'].
  split.
  - intros r. split; [apply A | apply A'].
  - split; intros [e He]; [exact (B e He) | exact (B' e He)].
Qed.

Lemma scan_ignores_listing_order_witness :
  fst (get_extreme_video_date
         (fresh true false [("by_title/20180501_000000_b.csv", []);
                            ("by_title/20180601_000000_a.csv", [])]))
  = Ok (Some {| last := utc 2018 6 1 0 0 0; oldest := utc 2018 5 1 0 0 0 |}).
Proof.
  apply (proj1 (scan_ignores_listing_order
                  [("by_title/20180601_000000_a.csv", []);
                   ("by_title/20180501_000000_b.csv", [])]
                  [("by_title/20180501_000000_b.csv", []);
                   ("by_title/20180601_000000_a.csv", [])]
                  (new_self true false) [] (perm_swap _ _ _))).
  vm_compute. reflexivity.
Defined.

(** X3. Writes only widen the bounds: when the scan returns bounds
    before and after some events, the oldest date has not grown and the
    latest has not shrunk. *)
Theorem writes_only_widen_the_bounds :
  forall (fs : list (string * list Row)) (evs : list Event) (e e' : Extreme),
    extreme_of (glob_paths fs) = Ok (Some e) ->
    extreme_of (glob_paths (replay fs evs)) = Ok (Some e') ->
    (oldest e' <= oldest e)%Z /\ (last e <= last e')%Z.
Proof.
  intros fs evs e e' H H'.
  destruct (extreme_of_some _ _ H) as (_ & (p & Hp & Ho) & (q & Hq & Hl)).
  destruct (extreme_of_some _ _ H') as (A & _).
  assert (Hkeep : forall x, In x (glob_paths fs) ->
                            In x (glob_paths (replay fs evs))).
  { intros x Hx. unfold glob_paths in *. apply filter_In in Hx as [Hx Hg].
    apply filter_In. split; [|exact Hg]. now apply replay_keeps_paths. }
  destruct (A p (Hkeep p Hp)) as (d1 & Hd1 & B1).
  destruct (A q (Hkeep q Hq)) as (d2 & Hd2 & B2).
  assert (d1 = oldest e) by congruence.
  assert (d2 = last e) by congruence. subst. lia.
Qed.

Lemma writes_only_widen_the_bounds_witness :
  (utc 2018 5 1 0 0 0 <= utc 2018 6 1 0 0 0)%Z
  /\ (utc 2018 6 1 0 0 0 <= utc 2018 6 1 0 0 0)%Z.
Proof.
  apply (writes_only_widen_the_bounds
           [("by_title/20180601_000000_old.csv", [])]
           [CaptionsList "vid1";
            ToCsv "by_title/20180501_000000_vid1.csv" []]
           {| last := utc 2018 6 1 0 0 0; oldest := utc 2018 6 1 0 0 0 |}
           {| last := utc 2018 6 1 0 0 0; oldest := utc 2018 5 1 0 0 0 |});
    vm_compute; reflexivity.
Defined.

End FileProperties.

(* ================================================================== *)
(** ** More facts about the crawl *)

Module RunFacts.
Import Py Re Srt Time Crawler Spec More CrawlerFacts.

Local Arguments strftime : simpl never.

Lemma searches_app (evs1 evs2 : list Event) :
  searches (evs1 ++ evs2) = searches evs1 ++ searches evs2.
Proof. apply filter_app. Qed.

Lemma searches_none (evs : list Event) :
  forallb (fun e => negb (is_search e)) evs = true -> searches evs = [].
Proof.
  induction evs as [|e evs IH]; [reflexivity|]. simpl.
  intros H. apply andb_true_iff in H as [He H].
  destruct (is_search e); [discriminate | now apply IH].
Qed.

Lemma total_cost_app (evs1 evs2 : list Event) :
  total_cost (evs1 ++ evs2) = (total_cost evs1 + total_cost evs2)%Z.
Proof.
  induction evs1 as [|e evs1 IH]; simpl; [reflexivity|].
  unfold total_cost in *. simpl. rewrite IH. lia.
Qed.

(** The events of the step for one video. *)
Lemma process_item_events (client : Client) (item : SearchItem) (w : World) :
  exists evs,
    trace (snd (process_item client item w)) = trace w ++ evs
    /\ item_events client item evs.
Proof.
  rewrite process_item_eq. cbv zeta. unfold item_events.
  destruct (asr_result client (videoId item)) as [[cid|]|e] eqn:Ea.
  - destruct (truthy cid) eqn:Et.
    + destruct (subtitles_result client cid) as [[|l ls]|e] eqn:Es.
      * exists [CaptionsList (videoId item); CaptionsDownload cid].
        split; [simpl; now rewrite <- app_assoc|].
        right. exists cid. auto.
      * exists [CaptionsList (videoId item); CaptionsDownload cid;
                ToCsv (csv_path item) (csv_rows item (l :: ls))].
        split; [simpl; now rewrite <- !app_assoc|].
        right. exists cid. repeat split; auto. right.
        exists (l :: ls). repeat split; auto. discriminate.
      * exists [CaptionsList (videoId item); CaptionsDownload cid].
        split; [simpl; now rewrite <- app_assoc|].
        right. exists cid. auto.
    + exists [CaptionsList (videoId item)]. split; [reflexivity | now left].
  - exists [CaptionsList (videoId item)]. split; [reflexivity | now left].
  - exists [CaptionsList (videoId item)]. split; [reflexivity | now left].
Qed.

Lemma item_events_cost (client : Client) (item : SearchItem)
      (evs : list Event) :
  item_events client item evs -> (50 <= total_cost evs <= 250)%Z.
Proof.
  intros [-> | (cid & _ & _ & [-> | (lines & _ & _ & ->)])];
    vm_compute; split; discriminate.
Qed.

(** The search requests of one call of the method and of the calls it
    makes. *)
Lemma run_cursor (client : Client) (depth : nat) :
  forall tok w r w',
    _get_search_videos client depth tok w = (r, w') ->
    exists evs,
      trace w' = trace w ++ evs
      /\ follows_cursor client tok (searches evs)
      /\ (length (searches evs) <= depth)%nat.
Proof.
  induction depth as [|d IH]; intros tok w r w' H.
  - inversion H; subst. exists []. simpl. rewrite app_nil_r. auto.
  - cbn [_get_search_videos] in H. unfold bind in H.
    pose proof (set_window_effect w) as (T0 & _).
    destruct (set_window w) as [[u|e0] w0]; simpl in T0.
    2:{ inversion H; subst. exists []. simpl. rewrite app_nil_r.
        repeat split; auto. lia. }
    rewrite search_eq in H.
    set (a := GRAB_AFTER (self w0)) in *.
    set (b := GRAB_BEFORE (self w0)) in *.
    destruct (search_list client a b tok) as [resp|e1] eqn:Es.
    2:{ inversion H; subst. exists [SearchList a b tok]. simpl.
        rewrite T0, Es. repeat split; auto. lia. }
    destruct (process_items_effect client (items resp)
                (add_events w0 [SearchList a b tok]))
      as (evs2 & T2 & _ & _ & N2).
    apply searches_none in N2.
    destruct (process_items client (items resp)
                (add_events w0 [SearchList a b tok]))
      as [[u2|e2] w2]; simpl in T2.
    2:{ inversion H; subst. exists (SearchList a b tok :: evs2).
        rewrite T2, T0, <- app_assoc.
        change (searches (SearchList a b tok :: evs2))
          with (SearchList a b tok :: searches evs2).
        rewrite N2. simpl. rewrite Es. repeat split; try lia.
        destruct (nextPageToken resp) as [next|]; [|reflexivity].
        destruct (truthy next); reflexivity. }
    assert (Hdone : (r, w') = (Ok tt, w2) ->
            nextPageToken resp = None
            \/ (exists next, nextPageToken resp = Some next
                             /\ truthy next = false) ->
            exists evs,
              trace w' = trace w ++ evs
              /\ follows_cursor client tok (searches evs)
              /\ (length (searches evs) <= S d)%nat).
    { intros E Hn. inversion E; subst. exists (SearchList a b tok :: evs2).
      rewrite T2, T0, <- app_assoc.
      change (searches (SearchList a b tok :: evs2))
        with (SearchList a b tok :: searches evs2).
      rewrite N2. simpl. rewrite Es. repeat split; try lia.
      destruct Hn as [-> | (next & -> & ->)]; reflexivity. }
    destruct (nextPageToken resp) as [next|] eqn:En;
      [|apply Hdone; [symmetry; exact H | now left]].
    destruct (truthy next) eqn:Et;
      [|apply Hdone; [symmetry; exact H | right; now exists next]].
    destruct (IH _ _ _ _ H) as (evs3 & T3 & C3 & L3).
    exists (SearchList a b tok :: evs2 ++ evs3).
    rewrite T3, T2, T0, <- !app_assoc.
    change (searches (SearchList a b tok :: evs2 ++ evs3))
      with (SearchList a b tok :: searches (evs2 ++ evs3)).
    rewrite searches_app, N2. simpl. rewrite Es, En, Et.
    repeat split; auto. lia.
Qed.

(** The shape of the bounds of the requests in the two modes that
    scan. *)
Lemma windows_ok_shape (s : Self) (evs : list Event) :
  forall fs,
    windows_ok s fs evs ->
    forall a b t,
      In (SearchList a b t) evs ->
      (get_after_least s = true -> a = None /\ exists x, b = Some x)
      /\ (get_after_least s = false -> get_latest s = true ->
          b = None /\ exists x, a = Some x).
Proof.
  induction evs as [|e evs IH]; intros fs H a b t Hin; [contradiction|].
  destruct Hin as [-> | Hin].
  - simpl in H. destruct H as [H _]. unfold window_at in H.
    destruct (get_after_least s).
    + destruct H as (x & _ & -> & ->). split; [eauto | discriminate].
    + destruct (get_latest s).
      * destruct H as (x & _ & -> & ->). split; [discriminate | eauto].
      * split; discriminate.
  - destruct e; simpl in H; try now apply (IH _ H a b t).
    destruct H as [_ H]. now apply (IH _ H a b t).
Qed.

End RunFacts.

(* ================================================================== *)
(** ** More properties of the crawl *)

Section RunProperties.
Import CrawlerFacts RunFacts More Samples.

Local Arguments strftime : simpl never.

(** X4. In backfill mode, which is also the mode when both flags are
    set, every search request of a run has an upper bound and no lower
    bound; in catch-up mode every request has a lower bound and no upper
    bound. *)
Theorem scanning_modes_set_one_bound :
  forall (client : Client) (depth : nat) (get_after_least get_latest : bool)
         (fs : list (string * list Row)) (a b t : option string),
    In (SearchList a b t)
       (trace (snd (VideoGetter client depth get_after_least get_latest fs))) ->
    (get_after_least = true -> a = None /\ exists x, b = Some x)
    /\ (get_after_least = false -> get_latest = true ->
        b = None /\ exists x, a = Some x).
Proof.
  intros client depth al gl fs a b t Hin. unfold VideoGetter in Hin.
  destruct (_get_search_videos client depth None _) as [r w1] eqn:E.
  apply run_effect in E as (evs & T & _ & _ & W). simpl in *. subst evs.
  exact (windows_ok_shape (new_self al gl) (trace w1) fs W a b t Hin).
Qed.

Lemma scanning_modes_set_one_bound_witness :
  In (SearchList None (Some "2018-05-01T00:00:00Z") (Some "p2"))
     (trace (snd (VideoGetter two_pages 5 true true
                    [("by_title/20180601_000000_old.csv", [])])))
  /\ @None string = None
  /\ exists x, Some "2018-05-01T00:00:00Z" = Some x.
Proof.
  assert (H : In (SearchList None (Some "2018-05-01T00:00:00Z") (Some "p2"))
                (trace (snd (VideoGetter two_pages 5 true true
                               [("by_title/20180601_000000_old.csv", [])])))).
  { vm_compute. tauto. }
  split; [exact H|].
  exact (proj1 (scanning_modes_set_one_bound
                  two_pages 5 true true
                  [("by_title/20180601_000000_old.csv", [])]
                  None (Some "2018-05-01T00:00:00Z") (Some "p2") H)
               eq_refl).
Defined.

(** X5. The videos of a page are taken one at a time, in page order.
    The step for a video lists its tracks, downloads at most the first
    ASR track, and writes at most the file of that video, in this order;
    the events of a page are the events of these steps one after the
    other, for all its videos when the loop returns and for those up to
    the one that raised otherwise. *)
Theorem page_is_processed_in_order :
  forall (client : Client) (its : list SearchItem) (w : World),
    let out := process_items client its w in
    exists blocks : list (list Event),
      trace (snd out) = trace w ++ concat blocks
      /\ Forall2 (item_events client) (firstn (length blocks) its) blocks
      /\ (length blocks <= length its)%nat
      /\ (fst out = Ok tt -> length blocks = length its)
      /\ (forall e, fst out = Raise e -> blocks <> []).
Proof.
  intros client its. induction its as [|item rest IH]; intros w out.
  - exists []. simpl. rewrite app_nil_r.
    split; [|split; [|split; [|split]]]; auto. intros e H. discriminate.
  - unfold out. rewrite process_items_cons.
    destruct (process_item_events client item w) as (evs & T & Hev).
    destruct (process_item client item w) as [[[]|e] w1]; simpl in T.
    + destruct (IH w1) as (blocks & T' & F & L & Hok & Hr).
      exists (evs :: blocks). simpl.
      rewrite T', T, <- app_assoc.
      split; [reflexivity|]. split; [constructor; [exact Hev | exact F]|].
      split; [lia|]. split.
      * intros H. now rewrite (Hok H).
      * intros e H. discriminate.
    + exists [evs]. simpl. rewrite T, app_nil_r.
      split; [reflexivity|]. split; [constructor; [exact Hev | constructor]|].
      split; [lia|]. split.
      * intros H. discriminate.
      * intros e' H. discriminate.
Qed.

(** X6. Pagination follows the cursor. The first search request of a
    run carries no page token; every further request carries the
    non-empty [nextPageToken] of the answer to the request before it; no
    request is made after an answer without token, with an empty token,
    or after a search that raised; and a run of depth [depth] makes at
    most [depth] requests. *)
Theorem pagination_follows_the_cursor :
  forall (client : Client) (depth : nat) (get_after_least get_latest : bool)
         (fs : list (string * list Row)),
    let w' := snd (VideoGetter client depth get_after_least get_latest fs) in
    follows_cursor client None (searches (trace w'))
    /\ (length (searches (trace w')) <= depth)%nat.
Proof.
  intros client depth al gl fs w'. unfold w', VideoGetter.
  destruct (_get_search_videos client depth None _) as [r w1] eqn:E.
  apply run_cursor in E as (evs & T & C & L). simpl in *. now subst evs.
Qed.

(** X7. Quota. With the costs the docstrings give (50 units to list
    the tracks of a video, 200 to download a track), the step for one
    video costs 50 or 250 units, so that a page of [n] videos costs at
    most [250 n] units, and at least [50 n] when the loop returns. *)
Theorem page_costs_at_most_250_per_video :
  forall (client : Client) (its : list SearchItem) (w : World),
    let out := process_items client its w in
    (forall (item : SearchItem) (w0 : World),
       exists evs0,
         trace (snd (process_item client item w0)) = trace w0 ++ evs0
         /\ (total_cost evs0 = 50 \/ total_cost evs0 = 250)%Z)
    /\ exists evs,
         trace (snd out) = trace w ++ evs
         /\ (total_cost evs <= 250 * Z.of_nat (length its))%Z
         /\ (fst out = Ok tt ->
             (50 * Z.of_nat (length its) <= total_cost evs)%Z).
Proof.
  intros client its w out. split.
  - intros item w0.
    destruct (process_item_events client item w0) as (evs & T & Hev).
    exists evs. split; [exact T|].
    destruct Hev as [-> | (cid & _ & _ & [-> | (lines & _ & _ & ->)])];
      vm_compute; auto.
  - unfold out. clear out. revert w.
    induction its as [|item rest IH]; intros w.
    + exists []. simpl. rewrite app_nil_r. repeat split; vm_compute; congruence.
    + rewrite process_items_cons.
      destruct (process_item_events client item w) as (evs & T & Hev).
      apply item_events_cost in Hev.
      destruct (process_item client item w) as [[[]|e] w1]; simpl in T.
      * destruct (IH w1) as (evs' & T' & Hup & Hlow).
        exists (evs ++ evs'). rewrite T', T, <- app_assoc, total_cost_app.
        cbn [length]. rewrite Nat2Z.inj_succ.
        repeat split; auto; [lia|]. intros H. specialize (Hlow H). lia.
      * exists evs. simpl snd. simpl fst. cbn [length].
        rewrite Nat2Z.inj_succ.
        repeat split; auto; [lia|]. intros H. discriminate.
Qed.

(** X8. [get_asr_caption_id] makes one request and changes nothing
    else; from the tracks the client returns it returns the id of the
    first one whose kind is exactly [ASR], and [None] exactly when no
    track has that kind. *)
Theorem get_asr_caption_id_returns_first_asr :
  forall (client : Client) (video_id : string) (w : World)
         (tracks : list CaptionItem),
    captions_list client video_id = Ok tracks ->
    snd (get_asr_caption_id client video_id w)
    = add_events w [CaptionsList video_id]
    /\ (forall id,
          fst (get_asr_caption_id client video_id w) = Ok (Some id)
          <-> exists before item rest,
                tracks = before ++ item :: rest
                /\ Forall (fun t => trackKind t <> "ASR") before
                /\ trackKind item = "ASR" /\ caption_id item = id)
    /\ (fst (get_asr_caption_id client video_id w) = Ok None
        <-> Forall (fun t => trackKind t <> "ASR") tracks).
Proof.
  intros client vid w tracks Hl. rewrite get_asr_caption_id_eq.
  unfold asr_result. rewrite Hl. cbn [fst snd]. clear Hl.
  split; [reflexivity|]. split.
  - intros id. induction tracks as [|t tracks IH]; simpl.
    + split; [discriminate|]. intros (bf & item & rest & H & _).
      destruct bf; discriminate.
    + destruct (String.eqb_spec (trackKind t) "ASR") as [E|E].
      * split.
        -- intros H. inversion H; subst. exists [], t, tracks. auto.
        -- intros (bf & item & rest & H & Hbf & Hk & Hid).
           destruct bf as [|t' bf]; simpl in H; inversion H; subst.
           ++ reflexivity.
           ++ inversion Hbf; subst. contradiction.
      * rewrite IH. split.
        -- intros (bf & item & rest & -> & Hbf & Hk & Hid).
           exists (t :: bf), item, rest. auto.
        -- intros (bf & item & rest & H & Hbf & Hk & Hid).
           destruct bf as [|t' bf]; simpl in H; inversion H; subst.
           ++ contradiction.
           ++ inversion Hbf; subst. exists bf, item, rest. auto.
  - induction tracks as [|t tracks IH]; simpl.
    + split; auto.
    + destruct (String.eqb_spec (trackKind t) "ASR") as [E|E].
      * split; [discriminate|]. intros H. inversion H; subst. contradiction.
      * rewrite IH. split; intros H; [now constructor | now inversion H].
Qed.

Lemma get_asr_caption_id_returns_first_asr_witness :
  fst (get_asr_caption_id two_pages "vid1" (fresh true false []))
  = Ok (Some "cvid1").
Proof.
  apply (proj1 (proj2 (get_asr_caption_id_returns_first_asr
                         two_pages "vid1" (fresh true false [])
                         [ {| caption_id := "c0"; trackKind := "standard" |};
                           asr_track "cvid1" ] eq_refl))).
  exists [ {| caption_id := "c0"; trackKind := "standard" |} ],
         (asr_track "cvid1"), [].
  repeat split. repeat constructor. discriminate.
Defined.

(** X9. [get_subtitles] makes one download request and changes
    nothing else. It never raises [HttpError] with status 403. Bytes that
    are not UTF-8 make it raise [UnicodeDecodeError], which its [except]
    clause does not catch; and whatever else it raises is what the
    download raised. *)
Theorem get_subtitles_outcomes :
  forall (client : Client) (caption_id : string) (w : World),
    snd (get_subtitles client caption_id w)
    = add_events w [CaptionsDownload caption_id]
    /\ fst (get_subtitles client caption_id w) <> Raise (HttpError 403)
    /\ (captions_download client caption_id = Ok NotUtf8 ->
        fst (get_subtitles client caption_id w) = Raise UnicodeDecodeError)
    /\ (forall s, captions_download client caption_id = Ok (Utf8 s) ->
                  fst (get_subtitles client caption_id w) = Ok (parse s))
    /\ (forall e,
          fst (get_subtitles client caption_id w) = Raise e ->
          captions_download client caption_id = Ok NotUtf8
          \/ captions_download client caption_id = Raise e).
Proof.
  intros client cid w. rewrite get_subtitles_eq. cbn [fst snd].
  unfold subtitles_result.
  split; [reflexivity|].
  destruct (captions_download client cid) as [[s|]|e0].
  - split; [discriminate|]. split; [discriminate|]. split.
    + intros s' H. now inversion H.
    + intros e H. discriminate.
  - split; [discriminate|]. split; [reflexivity|]. split.
    + intros s' H. discriminate.
    + intros e H. now left.
  - assert (Hraise : forall r : Result (list SubtitleMsg),
               r <> Raise (HttpError 403) ->
               (forall e, r = Raise e -> e = e0) ->
               r <> Raise (HttpError 403)
               /\ (Raise e0 = Ok NotUtf8 -> r = Raise UnicodeDecodeError)
               /\ (forall s, Raise e0 = Ok (Utf8 s) -> r = Ok (parse s))
               /\ (forall e, r = Raise e ->
                              @Raise Payload e0 = Ok NotUtf8
                              \/ @Raise Payload e0 = Raise e)).
    { intros r H1 H2. split; [exact H1|]. split; [discriminate|].
      split; [discriminate|]. intros e H. right. now rewrite (H2 e H). }
    destruct e0 as [st| | | | |];
      try (apply Hraise; [discriminate | intros e H; now inversion H]).
    destruct (Z.eqb_spec st 403) as [->|Hne].
    + apply Hraise; [discriminate | intros e H; discriminate].
    + apply Hraise; [congruence | intros e H; now inversion H].
Qed.

Lemma get_subtitles_outcomes_witness :
  fst (get_subtitles
         {| search_list := search_list two_pages;
            captions_list := captions_list two_pages;
            captions_download := fun _ => Ok NotUtf8 |}
         "c1" (fresh true false []))
  = Raise UnicodeDecodeError.
Proof.
  apply (proj1 (proj2 (proj2 (get_subtitles_outcomes
                                {| search_list := search_list two_pages;
                                   captions_list := captions_list two_pages;
                                   captions_download := fun _ => Ok NotUtf8 |}
                                "c1" (fresh true false []))))).
  reflexivity.
Defined.

End RunProperties.

(* ================================================================== *)
(** ** More facts about [split], [strip] and [parse] *)

Module SplitFacts.
Import Py Re Srt Spec More StrFacts ReFacts SrtFacts.

Lemma cut_none (c : ascii) (s : string) :
  is_newline c && starts_nl s = false ->
  drop_prefix (nl ++ nl) (String c s) = None.
Proof.
  intros H. change (nl ++ nl)%string with (String "010" (String "010" "")).
  cbn [drop_prefix]. rewrite <- newline_char.
  destruct (is_newline c); [|reflexivity]. simpl in H.
  destruct s as [|c2 s]; [reflexivity|]. simpl in H.
  now rewrite <- newline_char, H.
Qed.

Lemma cut_some (c : ascii) (s : string) :
  is_newline c && starts_nl s = true ->
  exists r, drop_prefix (nl ++ nl) (String c s) = Some r.
Proof.
  intros H. apply andb_true_iff in H as [Hc Hs].
  change (nl ++ nl)%string with (String "010" (String "010" "")).
  cbn [drop_prefix]. rewrite <- newline_char, Hc.
  destruct s as [|c2 s]; [discriminate|]. simpl in Hs.
  rewrite <- newline_char, Hs. now eexists.
Qed.

Lemma double_nl_cons (a : ascii) (s : string) :
  double_nl (String a s) = (is_newline a && starts_nl s) || double_nl s.
Proof. destruct s; reflexivity. Qed.

Lemma double_nl_snoc (cur : string) (c : ascii) :
  double_nl (cur ++ String c "")
  = double_nl cur || (ends_nl cur && is_newline c).
Proof.
  induction cur as [|a cur IH];
    [simpl; destruct (is_newline c); reflexivity|].
  change (String a cur ++ String c "")%string
    with (String a (cur ++ String c "")).
  rewrite !double_nl_cons, IH.
  destruct cur as [|a2 cur].
  - simpl. destruct (is_newline a), (is_newline c); reflexivity.
  - change (ends_nl (String a (String a2 cur))) with (ends_nl (String a2 cur)).
    change (starts_nl (String a2 cur ++ String c ""))
      with (starts_nl (String a2 cur)).
    now rewrite orb_assoc.
Qed.

Lemma ends_nl_snoc (cur : string) (c : ascii) :
  ends_nl (cur ++ String c "") = is_newline c.
Proof.
  induction cur as [|a cur IH]; [reflexivity|].
  destruct cur as [|a2 cur]; [reflexivity|]. exact IH.
Qed.

(** No piece of [split] on a blank line holds a blank line. *)
Lemma split_scan_pieces (s : string) :
  forall budget skip cur,
    (String.length s <= budget)%nat ->
    double_nl cur = false ->
    (skip = 0%nat -> ends_nl cur = true -> starts_nl s = false) ->
    (skip <> 0%nat -> cur = "" /\ skip = 1%nat) ->
    forall b, In b (split_scan (nl ++ nl) budget skip cur s) ->
              double_nl b = false.
Proof.
  induction s as [|c s IH]; intros budget skip cur Hb Hcur Hend Hskip b Hin.
  - destruct Hin as [<- | []]. exact Hcur.
  - destruct skip as [|k].
    + destruct budget as [|bd]; [simpl in Hb; lia|].
      cbn [split_scan] in Hin.
      destruct (is_newline c && starts_nl s) eqn:Ecut.
      * destruct (cut_some c s Ecut) as [r Hr]. rewrite Hr in Hin.
        destruct Hin as [<- | Hin]; [exact Hcur|].
        apply (IH bd (String.length (nl ++ nl) - 1)%nat "") in Hin; auto.
        -- simpl in Hb. lia.
        -- intros H. discriminate.
      * rewrite (cut_none c s Ecut) in Hin.
        apply (IH (S bd) 0%nat (cur ++ String c "")%string) in Hin; auto.
        -- simpl in Hb. lia.
        -- rewrite double_nl_snoc, Hcur. simpl.
           destruct (ends_nl cur) eqn:E; [|reflexivity].
           simpl. now apply Hend.
        -- intros _. rewrite ends_nl_snoc. intros Hc.
           rewrite Hc in Ecut. exact Ecut.
        -- intros H. congruence.
    + destruct (Hskip ltac:(discriminate)) as [-> Hk]. inversion Hk; subst k.
      cbn [split_scan] in Hin.
      apply (IH budget 0%nat "") in Hin; auto.
      * simpl in Hb. lia.
      * intros _ H. discriminate.
      * intros H. congruence.
Qed.

Lemma split_pieces (s b : string) :
  In b (split (nl ++ nl) s) -> double_nl b = false.
Proof.
  unfold split. apply split_scan_pieces; auto; try discriminate.
  intros H. congruence.
Qed.

Lemma double_nl_lstrip (s : string) :
  double_nl s = false -> double_nl (lstrip s) = false.
Proof.
  induction s as [|c s IH]; [reflexivity|]. intros H. simpl.
  destruct (is_space c); [|exact H]. apply IH.
  simpl in H. now apply orb_false_iff in H as [_ H].
Qed.

Lemma rstrip_head (s : string) (c : ascii) (r : string) :
  rstrip s = String c r -> exists r', s = String c r'.
Proof.
  destruct s as [|a s]; [discriminate|]. simpl.
  destruct (rstrip s).
  - destruct (is_space a); [discriminate|]. intros H. inversion H. now eexists.
  - intros H. inversion H. now eexists.
Qed.

Lemma double_nl_rstrip (s : string) :
  double_nl s = false -> double_nl (rstrip s) = false.
Proof.
  induction s as [|c s IH]; [reflexivity|]. intros H.
  simpl in H. apply orb_false_iff in H as [Hc H]. specialize (IH H).
  simpl. destruct (rstrip s) as [|a r] eqn:E.
  - destruct (is_space c); [reflexivity|].
    simpl. destruct (is_newline c); reflexivity.
  - apply rstrip_head in E as [r' ->].
    change (double_nl (String c (String a r)))
      with ((is_newline c && is_newline a) || double_nl (String a r)).
    now rewrite Hc, IH.
Qed.

Lemma newline_is_space (c : ascii) : is_newline c = true -> is_space c = true.
Proof. by_cases_on_char c. Qed.

Lemma ends_nl_rstrip (s : string) : ends_nl (rstrip s) = false.
Proof.
  induction s as [|c s IH]; [reflexivity|]. simpl.
  destruct (rstrip s) as [|a r] eqn:E.
  - destruct (is_space c) eqn:Hc; [reflexivity|]. simpl.
    destruct (is_newline c) eqn:Hn; [|reflexivity].
    apply newline_is_space in Hn. congruence.
  - exact IH.
Qed.

Lemma double_nl_app_r (a b : string) :
  double_nl b = true -> double_nl (a ++ b) = true.
Proof.
  intros H. induction a as [|c a IH]; [exact H|].
  simpl. rewrite IH. now rewrite orb_true_r.
Qed.

Lemma ends_nl_app_r (a b : string) :
  ends_nl b = true -> ends_nl (a ++ b) = true.
Proof.
  intros Hb. induction a as [|c a IH]; [exact Hb|].
  simpl. destruct (a ++ b)%string eqn:E; [|exact IH].
  destruct a; simpl in E; [subst b; discriminate | discriminate].
Qed.

(** In a piece of [split], stripped, the text the pattern reads is
    never empty. *)
Lemma reads_text_not_empty (block pre suf i st en tx : string) :
  double_nl block = false -> ends_nl block = false ->
  block = (pre ++ suf)%string ->
  reads_at_start suf i st en tx -> tx <> "".
Proof.
  intros Hd He -> (rest & -> & Hi & _ & Hst & _ & Hen & _ & _ & Hrest) Htx.
  subst tx. destruct Hrest as [-> | (r & ->)].
  - assert (H : ends_nl (pre ++ i ++ nl ++ st ++ " --> " ++ en ++ nl
                         ++ "" ++ "") = true).
    { do 6 apply ends_nl_app_r. reflexivity. }
    congruence.
  - assert (H : double_nl (pre ++ i ++ nl ++ st ++ " --> " ++ en ++ nl
                           ++ "" ++ nl ++ r) = true).
    { do 6 apply double_nl_app_r. reflexivity. }
    congruence.
Qed.

(** *** [split] of two texts put together with a blank line *)

Lemma split_scan_budget (sep s : string) :
  forall b1 b2 skip cur,
    (String.length s <= b1)%nat -> (String.length s <= b2)%nat ->
    split_scan sep b1 skip cur s = split_scan sep b2 skip cur s.
Proof.
  induction s as [|c s IH]; intros b1 b2 skip cur H1 H2; [reflexivity|].
  simpl in H1, H2. destruct skip as [|k]; simpl.
  - destruct b1 as [|b1]; [lia|]. destruct b2 as [|b2]; [lia|].
    destruct (drop_prefix sep (String c s)).
    + f_equal. apply IH; lia.
    + apply IH; lia.
  - apply IH; lia.
Qed.

Lemma length_app (a b : string) :
  String.length (a ++ b) = (String.length a + String.length b)%nat.
Proof. induction a as [|c a IH]; simpl; [reflexivity | now rewrite IH]. Qed.

Lemma split_scan_concat (a b : string) :
  forall budget skip cur,
    (String.length (a ++ nl ++ nl ++ b) <= budget)%nat ->
    ends_nl a = false ->
    (skip = 0%nat \/ (skip = 1%nat /\ starts_nl a = true)) ->
    split_scan (nl ++ nl) budget skip cur (a ++ nl ++ nl ++ b)
    = split_scan (nl ++ nl) budget skip cur a
      ++ split_scan (nl ++ nl) (String.length b) 0 "" b.
Proof.
  induction a as [|c a IH]; intros budget skip cur Hb Hend Hskip.
  - destruct Hskip as [-> | [_ H]]; [|discriminate].
    change ("" ++ nl ++ nl ++ b)%string with (String "010" (String "010" b)).
    destruct budget as [|bd]; [simpl in Hb; lia|].
    cbn [split_scan drop_prefix append nl Ascii.eqb Bool.eqb ascii_of_nat
         ascii_of_pos ascii_of_N].
    cbn. f_equal. apply split_scan_budget; [simpl in Hb; lia | lia].
  - assert (Hend' : ends_nl a = false).
    { destruct a as [|c2 a]; [reflexivity | exact Hend]. }
    change (String c a ++ nl ++ nl ++ b)%string
      with (String c (a ++ nl ++ nl ++ b)) in *.
    destruct Hskip as [-> | [-> Hs]].
    + destruct budget as [|bd]; [cbn [String.length] in Hb; lia|].
      cbn [split_scan].
      assert (Hsame : is_newline c && starts_nl (a ++ nl ++ nl ++ b)
                      = is_newline c && starts_nl a).
      { destruct a as [|c2 a]; [|reflexivity].
        simpl in Hend. rewrite Hend. reflexivity. }
      destruct (is_newline c && starts_nl a) eqn:Ecut.
      * destruct (cut_some c a Ecut) as [r Hr]. rewrite Hr.
        destruct (cut_some c _ Hsame) as [r' Hr']. rewrite Hr'.
        cbn [app]. f_equal.
        apply IH; [cbn [String.length] in Hb; lia | exact Hend' |].
        right. split; [reflexivity|].
        now apply andb_true_iff in Ecut as [_ Ecut].
      * rewrite (cut_none c a Ecut), (cut_none c _ Hsame).
        apply IH; [cbn [String.length] in Hb; lia | exact Hend' | now left].
    + cbn [split_scan]. apply IH; [cbn [String.length] in Hb; lia | exact Hend' | now left].
Qed.

Lemma split_concat (a b : string) :
  ends_nl a = false ->
  split (nl ++ nl) (a ++ nl ++ nl ++ b)
  = split (nl ++ nl) a ++ split (nl ++ nl) b.
Proof.
  intros H. unfold split.
  rewrite split_scan_concat; [|lia | exact H | now left].
  f_equal. apply split_scan_budget; [|lia].
  rewrite length_app. lia.
Qed.

End SplitFacts.

(* ================================================================== *)
(** ** More properties of the parser *)

Section MoreParserProperties.
Import StrFacts ReFacts SrtFacts SplitFacts More.

(** X10. The blocks of a payload are parsed one by one: the lines of
    two payloads put together with a blank line between them are the lines
    of the first followed by the lines of the second, whenever the first
    does not end in a line break. *)
Theorem parse_of_two_payloads :
  forall a b : string,
    ends_nl a = false ->
    parse (a ++ nl ++ nl ++ b) = parse a ++ parse b.
Proof.
  intros a b H.
  rewrite !parse_blocks, (split_concat a b H). apply flat_map_app.
Qed.

Lemma parse_of_two_payloads_witness :
  parse ((join nl ["1"; timing "00:01" "00:02"; "one"])
         ++ nl ++ nl ++ join nl ["2"; timing "00:03" "00:04"; "two"])
  = parse (join nl ["1"; timing "00:01" "00:02"; "one"])
    ++ parse (join nl ["2"; timing "00:03" "00:04"; "two"]).
Proof.
  apply (parse_of_two_payloads
           (join nl ["1"; timing "00:01" "00:02"; "one"])
           (join nl ["2"; timing "00:03" "00:04"; "two"])).
  reflexivity.
Defined.

(** X11. Every line [parse] returns has an index that is a non-empty
    text of digits, a start and an end that are non-empty texts of digits
    and [+ | : ,], and a text that is not empty and holds no line
    break. *)
Theorem parsed_lines_are_well_shaped :
  forall (payload : string) (l : SubtitleMsg),
    In l (parse payload) ->
    exists i st en tx,
      l = msg i st en tx
      /\ i <> "" /\ all is_digit i = true
      /\ st <> "" /\ all is_time_char st = true
      /\ en <> "" /\ all is_time_char en = true
      /\ tx <> "" /\ all is_dot tx = true.
Proof.
  intros payload l H. rewrite parse_blocks in H.
  apply in_flat_map in H as (b & Hb & H).
  destruct (block_line b) as [l'|] eqn:E; simpl in H; [|contradiction].
  destruct H as [<- | []].
  apply block_line_some in E
    as (pre & suf & i & st & en & tx & Heq & Hr & -> & _).
  exists i, st, en, tx.
  assert (Htx : tx <> "").
  { apply (reads_text_not_empty (strip b) pre suf i st en tx); auto.
    - unfold strip. apply double_nl_rstrip, double_nl_lstrip.
      now apply (split_pieces payload).
    - unfold strip. apply ends_nl_rstrip. }
  destruct Hr as (rest & _ & Hi & Hid & Hst & Hstd & Hen & Hend & Hdot & _).
  repeat split; auto.
Qed.

Lemma parsed_lines_are_well_shaped_witness :
  exists i st en tx,
    msg "1" "00:00:01,000" "00:00:02,000" "Hello world" = msg i st en tx
    /\ i <> "" /\ all is_digit i = true
    /\ st <> "" /\ all is_time_char st = true
    /\ en <> "" /\ all is_time_char en = true
    /\ tx <> "" /\ all is_dot tx = true.
Proof.
  apply (parsed_lines_are_well_shaped Samples.hello_srt).
  vm_compute. left. reflexivity.
Defined.

End MoreParserProperties.

(* ================================================================== *)
(** ** The blocks of a payload and the lines of [parse] *)


Module BlockFacts.
Import Py Re Srt Spec More Blocks StrFacts ReFacts SrtFacts SplitFacts.

(** *** [strip] and [trimmed] *)

Lemma lstrip_spec (s : string) :
  exists lead, s = (lead ++ lstrip s)%string
               /\ all is_space lead = true
               /\ starts_space (lstrip s) = false.
Proof.
  induction s as [|c s (lead & H1 & H2 & H3)].
  - exists "". repeat split.
  - simpl. destruct (is_space c) eqn:Hc.
    + exists (String c lead). simpl. rewrite Hc, H2.
      split; [now rewrite <- H1 | split; [reflexivity | exact H3]].
    + exists "". simpl. repeat split. exact Hc.
Qed.

Lemma rstrip_spec (s : string) :
  exists trail, s = (rstrip s ++ trail)%string
                /\ all is_space trail = true
                /\ ends_space (rstrip s) = false
                /\ (starts_space s = false -> starts_space (rstrip s) = false).
Proof.
  induction s as [|c s (trail & H1 & H2 & H3 & H4)].
  - exists "". repeat split.
  - simpl. destruct (rstrip s) as [|a r] eqn:E.
    + destruct (is_space c) eqn:Hc.
      * exists (String c trail). simpl in *. rewrite Hc, H2.
        split; [now rewrite <- H1 | repeat split].
      * exists trail. simpl in *. rewrite Hc.
        split; [now rewrite <- H1 | repeat split; auto].
    + exists trail.
      split; [simpl in *; f_equal; exact H1|]. split; [exact H2|].
      split; [exact H3 | auto].
Qed.

Lemma strip_trimmed (b : string) : trimmed b (strip b).
Proof.
  unfold strip.
  destruct (lstrip_spec b) as (lead & H1 & H2 & H3).
  destruct (rstrip_spec (lstrip b)) as (trail & H4 & H5 & H6 & H7).
  exists lead, trail. split; [|repeat split; auto].
  rewrite <- H4. exact H1.
Qed.

Lemma lstrip_app_spaces (lead s : string) :
  all is_space lead = true -> lstrip (lead ++ s) = lstrip s.
Proof.
  induction lead as [|c lead IH]; [reflexivity|]. simpl.
  intros H. apply andb_true_iff in H as [Hc H]. rewrite Hc. now apply IH.
Qed.

Lemma lstrip_bare (s : string) : starts_space s = false -> lstrip s = s.
Proof. destruct s as [|c s]; [reflexivity|]. simpl. now intros ->. Qed.

Lemma rstrip_spaces (s : string) : all is_space s = true -> rstrip s = "".
Proof.
  induction s as [|c s IH]; [reflexivity|]. simpl.
  intros H. apply andb_true_iff in H as [Hc H]. now rewrite (IH H), Hc.
Qed.

Lemma rstrip_bare (t : string) : ends_space t = false -> rstrip t = t.
Proof.
  induction t as [|c t IH]; [reflexivity|]. intros H.
  destruct t as [|c2 t].
  - simpl in *. now rewrite H.
  - change (ends_space (String c (String c2 t))) with (ends_space (String c2 t))
      in H.
    change (rstrip (String c (String c2 t)))
      with (match rstrip (String c2 t) with
            | EmptyString => if is_space c then EmptyString else String c EmptyString
            | r => String c r
            end).
    now rewrite (IH H).
Qed.

Lemma rstrip_app_spaces (t trail : string) :
  all is_space trail = true -> ends_space t = false ->
  rstrip (t ++ trail) = t.
Proof.
  intros Htr. induction t as [|c t IH]; intros H.
  - simpl. now apply rstrip_spaces.
  - destruct t as [|c2 t].
    + simpl in H. simpl. now rewrite (rstrip_spaces _ Htr), H.
    + change (ends_space (String c (String c2 t)))
        with (ends_space (String c2 t)) in H.
      specialize (IH H).
      change (String c (String c2 t) ++ trail)%string
        with (String c (String c2 t ++ trail)).
      change (rstrip (String c (String c2 t ++ trail)))
        with (match rstrip (String c2 t ++ trail) with
              | EmptyString =>
                  if is_space c then EmptyString else String c EmptyString
              | r => String c r
              end).
      now rewrite IH.
Qed.

Lemma trimmed_strip (b t : string) : trimmed b t -> t = strip b.
Proof.
  intros (lead & trail & -> & Hl & Ht & Hs & He). unfold strip.
  rewrite (lstrip_app_spaces _ _ Hl).
  destruct t as [|c t].
  - simpl. rewrite (lstrip_blank _ Ht). reflexivity.
  - rewrite lstrip_bare by exact Hs.
    now rewrite (rstrip_app_spaces _ _ Ht He).
Qed.

(** *** The blocks of a payload *)

Lemma split_join (b : string) (bs : list string) :
  separated (b :: bs) ->
  split (nl ++ nl) (join (nl ++ nl) (b :: bs)) = b :: bs.
Proof.
  revert b. induction bs as [|b2 bs IH]; intros b H.
  - now apply split_single.
  - destruct H as (Hd & He & Hs).
    change (join (nl ++ nl) (b :: b2 :: bs))
      with (b ++ (nl ++ nl) ++ join (nl ++ nl) (b2 :: bs))%string.
    rewrite sapp_assoc.
    rewrite (split_concat b _ He), (split_single b Hd), (IH b2 Hs).
    reflexivity.
Qed.

Lemma parse_join (bs : list string) :
  separated bs ->
  parse (join (nl ++ nl) bs) = flat_map (fun b => opt_list (block_line b)) bs.
Proof.
  intros H. destruct bs as [|b bs]; [reflexivity|].
  now rewrite parse_blocks, split_join.
Qed.

Lemma separated_inv (b : string) (bs : list string) :
  separated (b :: bs) -> double_nl b = false /\ separated bs.
Proof.
  destruct bs as [|b2 bs]; simpl.
  - intros H. now split.
  - intros (H1 & _ & H2). now split.
Qed.

(** Every text is the blocks [split] gives, joined by blank lines. *)
Lemma join_cons (sep p : string) (rest : list string) :
  rest <> [] -> join sep (p :: rest) = (p ++ sep ++ join sep rest)%string.
Proof. destruct rest; [congruence | reflexivity]. Qed.

Lemma split_scan_not_nil (sep s : string) :
  forall budget skip cur, split_scan sep budget skip cur s <> [].
Proof.
  induction s as [|c s IH]; intros budget skip cur; [discriminate|].
  destruct skip as [|k]; cbn [split_scan]; [|apply IH].
  destruct budget as [|bd]; [apply IH|].
  destruct (drop_prefix sep (String c s)); [discriminate | apply IH].
Qed.

Lemma split_scan_covers (s : string) :
  forall budget skip cur,
    (String.length s <= budget)%nat ->
    double_nl cur = false ->
    (skip = 0%nat -> ends_nl cur = true -> starts_nl s = false) ->
    (skip <> 0%nat -> cur = "" /\ skip = 1%nat /\ starts_nl s = true) ->
    separated (split_scan (nl ++ nl) budget skip cur s)
    /\ join (nl ++ nl) (split_scan (nl ++ nl) budget skip cur s)
       = match skip with
         | O => (cur ++ s)%string
         | S _ => match s with String _ s' => s' | EmptyString => "" end
         end.
Proof.
  induction s as [|c s IH]; intros budget skip cur Hb Hcur Hend Hskip.
  - destruct skip as [|k].
    + simpl. rewrite sapp_nil_r. now split.
    + destruct (Hskip ltac:(discriminate)) as (_ & _ & H). discriminate.
  - destruct skip as [|k].
    + destruct budget as [|bd]; [simpl in Hb; lia|].
      assert (Hb' : (String.length s <= bd)%nat) by (simpl in Hb; lia).
      cbn [split_scan].
      destruct (is_newline c && starts_nl s) eqn:Ecut.
      * destruct (cut_some c s Ecut) as [r Hr]. rewrite Hr.
        apply andb_true_iff in Ecut as [Hc Hs].
        change (String.length (nl ++ nl) - 1)%nat with 1%nat.
        assert (A1 : 1%nat = 0%nat -> ends_nl "" = true -> starts_nl s = false)
          by (intros H; discriminate).
        assert (A2 : 1%nat <> 0%nat ->
                     "" = "" /\ 1%nat = 1%nat /\ starts_nl s = true)
          by (intros _; repeat split; exact Hs).
        destruct (IH bd 1%nat "" Hb' eq_refl A1 A2) as [S1 J1].
        pose proof (split_scan_not_nil (nl ++ nl) s bd 1%nat "") as Hne.
        split.
        -- destruct (split_scan (nl ++ nl) bd 1 "" s) as [|p ps] eqn:E;
             [congruence|].
           split; [exact Hcur|]. split; [|exact S1].
           destruct (ends_nl cur) eqn:Ee; [|reflexivity].
           specialize (Hend eq_refl eq_refl). simpl in Hend. congruence.
        -- rewrite join_cons by exact Hne. rewrite J1.
           destruct s as [|c2 s]; [discriminate|].
           simpl in Hs.
           rewrite newline_char in Hc, Hs.
           apply Ascii.eqb_eq in Hc, Hs. subst c c2. reflexivity.
      * rewrite (cut_none c s Ecut).
        assert (A0 : (String.length s <= S bd)%nat) by lia.
        assert (A1 : double_nl (cur ++ String c "") = false).
        { rewrite double_nl_snoc, Hcur. simpl.
          destruct (ends_nl cur) eqn:E; [|reflexivity].
          simpl. now apply Hend. }
        assert (A2 : 0%nat = 0%nat -> ends_nl (cur ++ String c "") = true ->
                     starts_nl s = false).
        { intros _. rewrite ends_nl_snoc. intros Hc.
          rewrite Hc in Ecut. exact Ecut. }
        assert (A3 : 0%nat <> 0%nat ->
                     (cur ++ String c "")%string = "" /\ 0%nat = 1%nat
                     /\ starts_nl s = true)
          by (intros H; congruence).
        destruct (IH (S bd) 0%nat (cur ++ String c "")%string A0 A1 A2 A3)
          as [S1 J1].
        split; [exact S1|]. rewrite J1, sapp_assoc. reflexivity.
    + destruct (Hskip ltac:(discriminate)) as (-> & Hk & Hs).
      inversion Hk; subst k. cbn [split_scan].
      assert (A0 : (String.length s <= budget)%nat) by (simpl in Hb; lia).
      assert (A2 : 0%nat = 0%nat -> ends_nl "" = true -> starts_nl s = false)
        by (intros _ H; discriminate).
      assert (A3 : 0%nat <> 0%nat ->
                   "" = "" /\ 0%nat = 1%nat /\ starts_nl s = true)
        by (intros H; congruence).
      destruct (IH budget 0%nat "" A0 eq_refl A2 A3) as [S1 J1].
      split; [exact S1 | exact J1].
Qed.

Lemma split_covers (s : string) :
  separated (split (nl ++ nl) s) /\ join (nl ++ nl) (split (nl ++ nl) s) = s.
Proof.
  unfold split.
  assert (A2 : 0%nat = 0%nat -> ends_nl "" = true -> starts_nl s = false)
    by (intros _ H; discriminate).
  assert (A3 : 0%nat <> 0%nat ->
               "" = "" /\ 0%nat = 1%nat /\ starts_nl s = true)
    by (intros H; congruence).
  exact (split_scan_covers s (String.length s) 0 "" (le_n _) eq_refl A2 A3).
Qed.

(** *** Well-formed blocks and the pattern *)

Lemma join_lines (x : string) (more : list string) :
  exists rest,
    join nl (x :: more) = (x ++ rest)%string
    /\ (rest = "" \/ exists r, rest = (nl ++ r)%string).
Proof.
  destruct more as [|y more].
  - exists "". simpl. rewrite sapp_nil_r. auto.
  - exists (nl ++ join nl (y :: more))%string. split; [reflexivity|].
    right. now eexists.
Qed.

Lemma well_formed_reads (t i st en tx : string) (more : list string) :
  well_formed_block t i st en tx more -> reads_at_start t i st en tx.
Proof.
  intros (-> & Hi & Hid & Hst & Hstd & Hen & Hend & Hl).
  inversion Hl as [|? ? [_ Htx] _]; subst.
  destruct (join_lines tx more) as (rest & Hj & Hrest).
  exists rest. split; [|repeat split; auto].
  change (join nl (i :: timing st en :: tx :: more))
    with (i ++ nl ++ timing st en ++ nl ++ join nl (tx :: more))%string.
  rewrite Hj. unfold timing. rewrite !sapp_assoc. reflexivity.
Qed.

Lemma double_nl_suffix (a b : string) :
  double_nl (a ++ b) = false -> double_nl b = false.
Proof.
  intros H. destruct (double_nl b) eqn:E; [|reflexivity].
  now rewrite (double_nl_app_r a b E) in H.
Qed.

Lemma ends_nl_suffix (a b : string) :
  ends_nl (a ++ b) = false -> ends_nl b = false.
Proof.
  intros H. destruct (ends_nl b) eqn:E; [|reflexivity].
  now rewrite (ends_nl_app_r a b E) in H.
Qed.

(** A text that holds no blank line and neither starts nor ends with
    a line break is made of lines that are not empty. *)
Lemma text_lines (n : nat) :
  forall r,
    (String.length r <= n)%nat -> r <> "" ->
    double_nl r = false -> starts_nl r = false -> ends_nl r = false ->
    exists x more,
      r = join nl (x :: more)
      /\ Forall (fun l => l <> "" /\ all is_dot l = true) (x :: more).
Proof.
  induction n as [|n IH]; intros r Hn Hne Hd Hs He.
  - destruct r; [congruence | simpl in Hn; lia].
  - destruct (span_spec is_dot r) as (H1 & H2 & H3).
    destruct (span is_dot r) as [x rest] eqn:Esp. simpl in *.
    assert (Hx : x <> "").
    { intros ->. simpl in H1. subst rest.
      destruct r as [|c r]; [congruence|].
      simpl in Hs. unfold is_dot in H3. now rewrite Hs in H3. }
    destruct rest as [|c r2].
    + exists x, []. rewrite sapp_nil_r in H1. subst r.
      split; [reflexivity|]. constructor; [now split | constructor].
    + assert (Hc : c = "010"%char).
      { unfold is_dot in H3. apply negb_false_iff in H3.
        rewrite newline_char in H3. apply Ascii.eqb_eq in H3. now subst. }
      subst c.
      assert (Hr2 : r2 <> "").
      { intros ->. subst r.
        rewrite (ends_nl_app_r x (String "010" "") eq_refl) in He.
        discriminate. }
      assert (Hd2 : double_nl r2 = false).
      { subst r. apply (double_nl_suffix (x ++ String "010" "")).
        now rewrite sapp_assoc. }
      assert (Hs2 : starts_nl r2 = false).
      { destruct (starts_nl r2) eqn:E; [|reflexivity].
        subst r. destruct r2 as [|c2 r2]; [discriminate|]. simpl in E.
        assert (double_nl (String "010" (String c2 r2)) = true)
          by (simpl; now rewrite E).
        now rewrite (double_nl_app_r x _ H) in Hd. }
      assert (He2 : ends_nl r2 = false).
      { subst r. apply (ends_nl_suffix (x ++ String "010" "")).
        now rewrite sapp_assoc. }
      destruct (IH r2) as (y & more & Hj & Hf); auto.
      { subst r. rewrite length_app in Hn. simpl in Hn.
        destruct x; [congruence | simpl in Hn; lia]. }
      exists x, (y :: more). split.
      * subst r. rewrite Hj. reflexivity.
      * constructor; [now split | exact Hf].
Qed.

Lemma starts_space_nl (s : string) :
  starts_space s = false -> starts_nl s = false.
Proof.
  destruct s as [|c s]; [reflexivity|]. simpl. intros H.
  destruct (is_newline c) eqn:E; [|reflexivity].
  apply newline_is_space in E. congruence.
Qed.

Lemma ends_space_nl (s : string) : ends_space s = false -> ends_nl s = false.
Proof.
  induction s as [|c s IH]; [reflexivity|]. intros H.
  destruct s as [|c2 s].
  - simpl in *. destruct (is_newline c) eqn:E; [|reflexivity].
    apply newline_is_space in E. congruence.
  - exact (IH H).
Qed.

(** In a block without blank line, stripped, the pattern at the start
    is a well-formed block. *)
Lemma reads_well_formed (t i st en tx : string) :
  double_nl t = false -> ends_nl t = false ->
  reads_at_start t i st en tx ->
  exists more, well_formed_block t i st en tx more.
Proof.
  intros Hd He Hr.
  assert (Htx : tx <> "").
  { apply (reads_text_not_empty t "" t i st en tx); auto. }
  destruct Hr as (rest & -> & Hi & Hid & Hst & Hstd & Hen & Hend & Hdot & Hrest).
  destruct Hrest as [-> | (r & ->)].
  - exists []. split.
    + unfold timing. simpl join. rewrite !sapp_assoc, sapp_nil_r. reflexivity.
    + do 6 (split; [assumption|]).
      constructor; [now split | constructor].
  - assert (Hsuf : (i ++ nl ++ st ++ " --> " ++ en ++ nl ++ tx ++ nl ++ r
                    = (i ++ nl ++ st ++ " --> " ++ en ++ nl ++ tx) ++ nl ++ r)
                   %string) by (now rewrite !sapp_assoc).
    assert (Hsuf2 : (i ++ nl ++ st ++ " --> " ++ en ++ nl ++ tx ++ nl ++ r
                     = (i ++ nl ++ st ++ " --> " ++ en ++ nl ++ tx ++ nl) ++ r)
                    %string) by (now rewrite !sapp_assoc).
    assert (Hr0 : r <> "").
    { intros ->. rewrite Hsuf in He.
      now rewrite (ends_nl_app_r _ (nl ++ "") eq_refl) in He. }
    assert (Hd2 : double_nl r = false).
    { rewrite Hsuf2 in Hd. now apply double_nl_suffix in Hd. }
    assert (He2 : ends_nl r = false).
    { rewrite Hsuf2 in He. now apply ends_nl_suffix in He. }
    assert (Hs2 : starts_nl r = false).
    { destruct (starts_nl r) eqn:E; [|reflexivity].
      destruct r as [|c2 r]; [discriminate|]. simpl in E.
      assert (double_nl (nl ++ String c2 r) = true)
        by (simpl; now rewrite E).
      rewrite Hsuf in Hd. now rewrite (double_nl_app_r _ _ H) in Hd. }
    destruct (text_lines (String.length r) r) as (y & more & Hj & Hf); auto.
    exists (y :: more). split.
    + rewrite Hj.
      change (join nl (i :: timing st en :: tx :: y :: more))
        with (i ++ nl ++ timing st en ++ nl ++ tx ++ nl
              ++ join nl (y :: more))%string.
      unfold timing. rewrite !sapp_assoc. reflexivity.
    + do 6 (split; [assumption|]).
      constructor; [now split | exact Hf].
Qed.

(** *** What one block gives *)

Lemma reads_functional (s i st en tx i' st' en' tx' : string) :
  reads_at_start s i st en tx -> reads_at_start s i' st' en' tx' ->
  msg i st en tx = msg i' st' en' tx'.
Proof.
  intros H H'.
  apply scan_block_complete in H as (r & H).
  apply scan_block_complete in H' as (r' & H').
  rewrite H in H'. now inversion H'.
Qed.

Lemma app_same_length (a b a' b' : string) :
  (a ++ b = a' ++ b')%string -> String.length a = String.length a' ->
  a = a' /\ b = b'.
Proof.
  revert a'. induction a as [|c a IH]; intros [|c' a'] H L;
    try discriminate; simpl in *.
  - now split.
  - inversion H as [[Hc H']]. inversion L as [L'].
    destruct (IH a' H' L') as [-> ->]. now split.
Qed.

Lemma first_reading_functional (t : string) (l l' : SubtitleMsg) :
  first_reading t l -> first_reading t l' -> l = l'.
Proof.
  intros (pre & suf & i & st & en & tx & Heq & Hr & -> & Hmin)
         (pre' & suf' & i' & st' & en' & tx' & Heq' & Hr' & -> & Hmin').
  destruct (Nat.lt_trichotomy (String.length pre) (String.length pre'))
    as [Hlt | [Heqlen | Hgt]].
  - exfalso. exact (Hmin' pre suf i st en tx Heq Hlt Hr).
  - rewrite Heq in Heq'. destruct (app_same_length _ _ _ _ Heq' Heqlen) as [_ <-].
    now apply (reads_functional suf).
  - exfalso. exact (Hmin pre' suf' i' st' en' tx' Heq' Hgt Hr').
Qed.

Lemma block_line_of_reading (b : string) (l : SubtitleMsg) :
  first_reading (strip b) l -> block_line b = Some l.
Proof.
  intros H. destruct (block_line b) as [l'|] eqn:E.
  - f_equal. apply block_line_some in E.
    now apply (first_reading_functional (strip b)).
  - exfalso. apply block_line_none in E. apply E.
    now apply (first_reading_holds _ l).
Qed.

Lemma block_line_of_none (b : string) :
  ~ holds_pattern (strip b) -> block_line b = None.
Proof.
  intros H. destruct (block_line b) as [l|] eqn:E; [|reflexivity].
  exfalso. apply H. apply block_line_some in E.
  now apply (first_reading_holds _ l).
Qed.

Lemma reads_blocks_lines (bs : list string) :
  Forall (fun b => double_nl b = false) bs ->
  reads_blocks bs (flat_map (fun b => opt_list (block_line b)) bs).
Proof.
  induction bs as [|b bs IH]; intros H; simpl; [constructor|].
  inversion H as [|? ? Hd Hrest]; subst. specialize (IH Hrest).
  pose proof (strip_trimmed b) as Ht.
  destruct (block_line b) as [l|] eqn:E; simpl.
  - apply block_line_some in E.
    destruct E as (pre & suf & i & st & en & tx & Heq & Hr & -> & Hmin).
    destruct pre as [|c pre].
    + simpl in Heq. subst suf.
      destruct (reads_well_formed (strip b) i st en tx) as [more Hw]; auto.
      * unfold strip. now apply double_nl_rstrip, double_nl_lstrip.
      * unfold strip. apply ends_nl_rstrip.
      * now apply (reads_cue b bs (strip b) i st en tx more).
    + apply (reads_inner b bs (strip b)); auto.
      * intros i' st' en' tx' more Hw. apply well_formed_reads in Hw.
        apply (Hmin "" (strip b) i' st' en' tx'); auto. simpl. lia.
      * exists (String c pre), suf, i, st, en, tx. repeat split; auto.
  - apply (reads_skip b bs (strip b)); auto.
    now apply block_line_none.
Qed.

Lemma reads_blocks_unique (bs : list string) (ls : list SubtitleMsg) :
  reads_blocks bs ls ->
  ls = flat_map (fun b => opt_list (block_line b)) bs.
Proof.
  induction 1 as [|b bs t i st en tx more ls Ht Hw _ IH
                  |b bs t l ls Ht Hm Hf _ IH
                  |b bs t ls Ht Hn _ IH]; simpl.
  - reflexivity.
  - apply trimmed_strip in Ht. subst t.
    apply well_formed_reads in Hw.
    rewrite (block_line_reads b i st en tx Hw). simpl. now rewrite IH.
  - apply trimmed_strip in Ht. subst t.
    rewrite (block_line_of_reading b l Hf). simpl. now rewrite IH.
  - apply trimmed_strip in Ht. subst t.
    rewrite (block_line_of_none b Hn). simpl. exact IH.
Qed.

Lemma reads_blocks_count (bs : list string) (ls : list SubtitleMsg) :
  reads_blocks bs ls -> pattern_count bs (length ls).
Proof.
  induction 1 as [|b bs t i st en tx more ls Ht Hw _ IH
                  |b bs t l ls Ht Hm Hf _ IH
                  |b bs t ls Ht Hn _ IH]; simpl.
  - constructor.
  - apply (count_yes b bs t); auto.
    apply well_formed_reads in Hw. now exists "", t, i, st, en, tx.
  - apply (count_yes b bs t); auto. now apply (first_reading_holds _ l).
  - now apply (count_no b bs t).
Qed.

Lemma separated_no_blank (bs : list string) :
  separated bs -> Forall (fun b => double_nl b = false) bs.
Proof.
  induction bs as [|b bs IH]; intros H; [constructor|].
  apply separated_inv in H as [H1 H2]. constructor; auto.
Qed.

Lemma join_determines_blocks (bs bs' : list string) :
  separated bs -> separated bs' -> bs <> [] -> bs' <> [] ->
  join (nl ++ nl) bs = join (nl ++ nl) bs' -> bs = bs'.
Proof.
  intros H H' Hne Hne' E.
  destruct bs as [|b bs]; [congruence|].
  destruct bs' as [|b' bs']; [congruence|].
  rewrite <- (split_join b bs H), <- (split_join b' bs' H'). now rewrite E.
Qed.

(** A line that holds a space is a line of text: it does not separate
    two blocks. *)
Example space_line_is_text :
  parse (join nl ["1"; timing "0:01" "0:02"; "A"; " ";
                  "2"; timing "0:03" "0:04"; "B"])
  = [msg "1" "0:01" "0:02" "A"].
Proof. vm_compute. reflexivity. Qed.

End BlockFacts.

Section BlockProperties.
Import Blocks StrFacts ReFacts SrtFacts SplitFacts BlockFacts More.

(** C6, as the program has it. Every payload is a list of blocks
    joined by two line breaks in a row, and the payload determines the
    blocks. The lines [parse] returns are those of the blocks, in the
    order of the blocks and at most one for each: a well-formed block
    gives the line made of its index, its two timing texts and its first
    line of text; a block in which the pattern does not occur gives
    nothing, and the parse goes on; but a malformed block gives a line
    too when the pattern occurs in it after its start. So the number of
    lines is the number of blocks in which the pattern occurs, and no
    other list of lines fits the blocks. *)
Theorem parse_reads_blocks_in_order :
  (forall payload : string,
     exists bs, separated bs /\ bs <> [] /\ payload = join (nl ++ nl) bs)
  /\ (forall bs bs' : list string,
        separated bs -> separated bs' -> bs <> [] -> bs' <> [] ->
        join (nl ++ nl) bs = join (nl ++ nl) bs' -> bs = bs')
  /\ (forall bs : list string,
        separated bs ->
        reads_blocks bs (parse (join (nl ++ nl) bs))
        /\ pattern_count bs (length (parse (join (nl ++ nl) bs)))
        /\ forall ls, reads_blocks bs ls -> ls = parse (join (nl ++ nl) bs)).
Proof.
  split; [|split].
  - intros payload. exists (split (nl ++ nl) payload).
    destruct (split_covers payload) as [H1 H2].
    split; [exact H1|]. split; [apply split_scan_not_nil | now rewrite H2].
  - exact join_determines_blocks.
  - intros bs H. rewrite (parse_join bs H).
    assert (R : reads_blocks bs
                  (flat_map (fun b => opt_list (block_line b)) bs)).
    { apply reads_blocks_lines. now apply separated_no_blank. }
    split; [exact R|]. split.
    + now apply reads_blocks_count.
    + intros ls. apply reads_blocks_unique.
Qed.

Lemma parse_reads_blocks_in_order_witness :
  reads_blocks
    [ ("  1" ++ nl ++ "00:01 --> 00:02" ++ nl ++ "Hello" ++ nl ++ "world ")%string;
      "no cue here";
      ("Chapter 7" ++ nl ++ "1 --> 2" ++ nl ++ "see below")%string ]
    [ msg "1" "00:01" "00:02" "Hello"; msg "7" "1" "2" "see below" ].
Proof.
  exact (proj1 (proj2 (proj2 parse_reads_blocks_in_order)
                  [ ("  1" ++ nl ++ "00:01 --> 00:02" ++ nl ++ "Hello" ++ nl
                     ++ "world ")%string;
                    "no cue here";
                    ("Chapter 7" ++ nl ++ "1 --> 2" ++ nl ++ "see below")%string ]
                  (conj eq_refl (conj eq_refl (conj eq_refl (conj eq_refl
                     eq_refl)))))).
Defined.

(** C6, as stated, fails: the payload below is one block, which is
    not well formed (its first line is not an index), so that it holds no
    well-formed block; yet [parse] returns a line for it, read where the
    pattern occurs further down. *)
Lemma pattern_inside_a_malformed_block_gives_a_line :
  let b := ("Chapter 7" ++ nl ++ "1 --> 2" ++ nl ++ "see below")%string in
  separated [b] /\ trimmed b b /\ malformed b
  /\ parse (join (nl ++ nl) [b]) = [msg "7" "1" "2" "see below"].
Proof.
  intros b. split; [reflexivity|]. split; [|split].
  - exists "", "". repeat split.
  - intros i st en tx more (Heq & Hi & Hid & _).
    destruct i as [|c i]; [congruence|].
    simpl in Hid. apply andb_true_iff in Hid as [Hc _].
    unfold b in Heq.
    change (join nl (String c i :: timing st en :: tx :: more))
      with (String c (i ++ nl ++ join nl (timing st en :: tx :: more)))
      in Heq.
    inversion Heq; subst c. discriminate.
  - vm_compute. reflexivity.
Qed.

End BlockProperties.

(* ================================================================== *)
(** ** Facts about the names of the written files *)

Module StampFacts.
Import Py Re Srt Time Crawler Spec More StrFacts ReFacts CrawlerFacts.
Local Open Scope Z_scope.

(** *** Dates of the days in range *)

Lemma all_days_spec (n : nat) :
  forall z, all_days z n = true ->
            forall k, z <= k < z + Z.of_nat n -> civil_ok k = true.
Proof.
  induction n as [|n IH]; intros z H k Hk; [lia|].
  cbn [all_days] in H. apply andb_true_iff in H as [H0 H].
  destruct (Z.eq_dec k z) as [->|Hne]; [exact H0|].
  apply (IH (z + 1) H). lia.
Qed.

Lemma civil_ok_on_range :
  all_days (-106752) (Z.to_nat 213504) = true.
Proof. vm_compute. reflexivity. Qed.

Lemma civil_ok_in_range (k : Z) :
  -106752 <= k <= 106751 -> civil_ok k = true.
Proof.
  intros H. apply (all_days_spec _ _ civil_ok_on_range). lia.
Qed.

Lemma in_bounds_day (t : Timestamp) :
  in_bounds t = true -> -106752 <= t / 86400 <= 106751.
Proof.
  unfold in_bounds. intros H. apply andb_true_iff in H as [H1 H2].
  apply Z.leb_le in H1, H2.
  assert (t / 86400 < 106752) by (apply Z.div_lt_upper_bound; lia).
  assert (-106752 <= t / 86400) by (apply Z.div_le_lower_bound; lia).
  lia.
Qed.

(** *** Digits *)

Lemma digit_char_cases (n : Z) :
  exists k, n mod 10 = k /\ digit_char n = ascii_of_nat (48 + Z.to_nat k)
            /\ (k = 0 \/ k = 1 \/ k = 2 \/ k = 3 \/ k = 4 \/ k = 5 \/ k = 6
                \/ k = 7 \/ k = 8 \/ k = 9).
Proof.
  exists (n mod 10). repeat split.
  pose proof (Z.mod_pos_bound n 10 ltac:(lia)). lia.
Qed.

Ltac by_digit n :=
  let k := fresh "k" in
  let Hk := fresh "Hk" in
  let Hc := fresh "Hc" in
  let Hv := fresh "Hv" in
  destruct (digit_char_cases n) as (k & Hk & Hc & Hv);
  rewrite Hc; clear Hk Hc;
  repeat (destruct Hv as [Hv | Hv]); subst k; reflexivity.

Lemma digit_char_is_digit (n : Z) : is_digit (digit_char n) = true.
Proof. by_digit n. Qed.

Lemma digit_char_not_underscore (n : Z) :
  Ascii.eqb "_" (digit_char n) = false.
Proof. by_digit n. Qed.

Lemma digit_val_char (n : Z) : digit_val (digit_char n) = n mod 10.
Proof.
  destruct (digit_char_cases n) as (k & Hk & Hc & Hv).
  rewrite Hc, Hk. unfold digit_val. clear Hk Hc.
  repeat (destruct Hv as [Hv | Hv]); subst k; reflexivity.
Qed.

Lemma pad2_digits (n : Z) : all is_digit (pad2 n) = true.
Proof. unfold pad2. cbn [all]. now rewrite !digit_char_is_digit. Qed.

Lemma pad4_digits (n : Z) : all is_digit (pad4 n) = true.
Proof. unfold pad4, pad2. cbn [all]. now rewrite !digit_char_is_digit. Qed.

Lemma rstrip_digits (s : string) : all is_digit s = true -> rstrip s = s.
Proof.
  induction s as [|c s IH]; [reflexivity|]. simpl.
  intros H. apply andb_true_iff in H as [Hc Hs]. rewrite (IH Hs).
  destruct s; [|reflexivity]. now rewrite (digit_not_space c Hc).
Qed.

Lemma strip_digits (s : string) : all is_digit s = true -> strip s = s.
Proof.
  intros H. unfold strip.
  destruct s as [|c s]; [reflexivity|].
  pose proof H as H'. simpl in H'. apply andb_true_iff in H' as [Hc _].
  rewrite (lstrip_id _ _ (digit_not_space c Hc)). now apply rstrip_digits.
Qed.

Lemma int_pad2 (n : Z) : 0 <= n < 100 -> int (pad2 n) = n.
Proof.
  intros H. unfold int. rewrite (strip_digits _ (pad2_digits n)).
  unfold pad2. cbn [int_acc]. rewrite !digit_val_char.
  assert (H1 : 0 <= n / 10 < 10)
    by (split; [apply Z.div_pos; lia | apply Z.div_lt_upper_bound; lia]).
  rewrite (Z.mod_small (n / 10) 10 H1).
  pose proof (Z.div_mod n 10 ltac:(lia)). lia.
Qed.

Lemma int_pad4 (n : Z) : 0 <= n < 10000 -> int (pad4 n) = n.
Proof.
  intros H. unfold int. rewrite (strip_digits _ (pad4_digits n)).
  unfold pad4, pad2. cbn [int_acc]. rewrite !digit_val_char.
  assert (H3 : 0 <= n / 1000 < 10)
    by (split; [apply Z.div_pos; lia | apply Z.div_lt_upper_bound; lia]).
  rewrite (Z.mod_small (n / 1000) 10 H3).
  assert (E2 : n / 100 / 10 = n / 1000)
    by (rewrite Z.div_div by lia; reflexivity).
  assert (E1 : n / 10 / 10 = n / 100)
    by (rewrite Z.div_div by lia; reflexivity).
  pose proof (Z.div_mod (n / 100) 10 ltac:(lia)) as D2.
  pose proof (Z.div_mod (n / 10) 10 ltac:(lia)) as D1.
  pose proof (Z.div_mod n 10 ltac:(lia)) as D0.
  rewrite E2 in D2. rewrite E1 in D1. lia.
Qed.

(** *** The pattern of the format on a stamp *)

Lemma m_seq_alt (n : string) (alts : list (list cls)) (rs : list re)
      (s : string) :
  m_seq (Group n (Alt alts) :: rs) s
  = flat_map (fun a =>
                match fixed a s with
                | Some tr => map (fun m' => ((n, fst tr) :: fst m', snd m'))
                                 (m_seq rs (snd tr))
                | None => []
                end) alts.
Proof.
  cbn [m_seq m_re]. induction alts as [|a alts IH]; [reflexivity|].
  cbn [flat_map]. rewrite map_app, flat_map_app, IH. f_equal.
  destruct (fixed a s) as [[t r]|]; [|reflexivity].
  cbn. now rewrite app_nil_r.
Qed.

Lemma m_seq_lit (l : string) (rs : list re) (s : string) (x : caps * string) :
  hd_error (m_seq rs s) = Some x ->
  hd_error (m_seq (Lit l :: rs) (l ++ s)) = Some x.
Proof.
  intros H. cbn [m_seq m_re]. rewrite drop_prefix_app. cbn [flat_map].
  unfold caps in *. rewrite app_nil_r, hd_error_map, H. now destruct x.
Qed.

(** A two-digit field whose value is in the range of the directive is
    read by the first alternative that takes both digits. *)
Tactic Notation "read_field" constr(v) integer(n) constr(bound) :=
  let k := fresh "k" in
  let Hk := fresh "Hk" in
  let E := fresh "E" in
  intros rs s x Hv Hx;
  rewrite m_seq_alt; unfold caps in *;
  destruct (m_seq rs s) as [|x0 l] eqn:E; [discriminate|];
  inversion Hx; subst x0;
  assert (Hk : exists k : nat, v = Z.of_nat k /\ (k < bound)%nat)
    by (exists (Z.to_nat v); lia);
  destruct Hk as (k & -> & Hk);
  do n (destruct k as [|k];
        [try lia;
         match goal with
         | |- context [pad2 ?z] =>
             let p := eval vm_compute in (pad2 z) in change (pad2 z) with p
         end;
         repeat
           (cbn [flat_map fixed append fst snd];
            match goal with
            | |- context [range ?a ?b ?c] =>
                let v := eval vm_compute in (range a b c) in
                change (range a b c) with v
            | |- context [one ?a ?c] =>
                let v := eval vm_compute in (one a c) in
                change (one a c) with v
            | |- context [any_digit ?c] =>
                let v := eval vm_compute in (any_digit c) in
                change (any_digit c) with v
            end);
         cbn [flat_map fixed append fst snd app];
         rewrite ?E; reflexivity|]);
  lia.

Lemma read_month (m : Z) :
  forall rs s x,
    1 <= m <= 12 -> hd_error (m_seq rs s) = Some x ->
    hd_error (m_seq (Group "m" (Alt [[one "1"; range "0" "2"];
                                     [one "0"; range "1" "9"];
                                     [range "1" "9"]]) :: rs)
                    (pad2 m ++ s))
    = Some (("m", pad2 m) :: fst x, snd x).
Proof. read_field m 13 13%nat. Qed.

Lemma read_day (d : Z) :
  forall rs s x,
    1 <= d <= 31 -> hd_error (m_seq rs s) = Some x ->
    hd_error (m_seq (Group "d" (Alt [[one "3"; range "0" "1"];
                                     [range "1" "2"; any_digit];
                                     [one "0"; range "1" "9"];
                                     [range "1" "9"];
                                     [one " "; range "1" "9"]]) :: rs)
                    (pad2 d ++ s))
    = Some (("d", pad2 d) :: fst x, snd x).
Proof. read_field d 32 32%nat. Qed.

Lemma read_hour (h : Z) :
  forall rs s x,
    0 <= h <= 23 -> hd_error (m_seq rs s) = Some x ->
    hd_error (m_seq (Group "H" (Alt [[one "2"; range "0" "3"];
                                     [range "0" "1"; any_digit];
                                     [any_digit]]) :: rs)
                    (pad2 h ++ s))
    = Some (("H", pad2 h) :: fst x, snd x).
Proof. read_field h 24 24%nat. Qed.

Lemma read_minute (m : Z) :
  forall rs s x,
    0 <= m <= 59 -> hd_error (m_seq rs s) = Some x ->
    hd_error (m_seq (Group "M" (Alt [[range "0" "5"; any_digit];
                                     [any_digit]]) :: rs)
                    (pad2 m ++ s))
    = Some (("M", pad2 m) :: fst x, snd x).
Proof. read_field m 60 60%nat. Qed.

Lemma read_second (sec : Z) :
  forall rs s x,
    0 <= sec <= 59 -> hd_error (m_seq rs s) = Some x ->
    hd_error (m_seq (Group "S" (Alt [[one "6"; range "0" "1"];
                                     [range "0" "5"; any_digit];
                                     [any_digit]]) :: rs)
                    (pad2 sec ++ s))
    = Some (("S", pad2 sec) :: fst x, snd x).
Proof. read_field sec 60 60%nat. Qed.

Lemma read_year (y : Z) (rs : list re) (s : string) (x : caps * string) :
  hd_error (m_seq rs s) = Some x ->
  hd_error (m_seq (Group "Y" (Alt [[any_digit; any_digit; any_digit;
                                    any_digit]]) :: rs)
                  (pad4 y ++ s))
  = Some (("Y", pad4 y) :: fst x, snd x).
Proof.
  intros Hx. rewrite m_seq_alt. unfold pad4, pad2, any_digit.
  cbn [flat_map fixed append]. rewrite !digit_char_is_digit.
  cbn [fst snd]. unfold caps in *.
  rewrite app_nil_r, hd_error_map, Hx. reflexivity.
Qed.

Lemma match_stamp (y m d hh mm ss : Z) :
  1 <= m <= 12 -> 1 <= d <= 31 ->
  0 <= hh <= 23 -> 0 <= mm <= 59 -> 0 <= ss <= 59 ->
  re_match format_regex (stamp y m d hh mm ss)
  = Some ([("Y", pad4 y); ("m", pad2 m); ("d", pad2 d);
           ("H", pad2 hh); ("M", pad2 mm); ("S", pad2 ss)], "").
Proof.
  intros Hm Hd Hh Hmi Hs. unfold re_match, format_regex, stamp.
  rewrite <- (sapp_nil_r (pad2 ss)).
  assert (H0 : hd_error (m_seq [] "") = Some (@nil (string * string), ""))
    by reflexivity.
  pose proof (read_second ss _ _ _ Hs H0) as H1. cbn [fst snd] in H1.
  pose proof (read_minute mm _ _ _ Hmi H1) as H2. cbn [fst snd] in H2.
  pose proof (read_hour hh _ _ _ Hh H2) as H3. cbn [fst snd] in H3.
  pose proof (m_seq_lit "_" _ _ _ H3) as H4.
  pose proof (read_day d _ _ _ Hd H4) as H5. cbn [fst snd] in H5.
  pose proof (read_month m _ _ _ Hm H5) as H6. cbn [fst snd] in H6.
  exact (read_year y _ _ _ H6).
Qed.

(** A stamp of an existing date and time in range is read back as
    that instant. *)
Lemma to_datetime_stamp (y m d hh mm ss : Z) :
  1 <= y < 10000 -> 1 <= m <= 12 -> 1 <= d <= days_in_month y m ->
  0 <= hh <= 23 -> 0 <= mm <= 59 -> 0 <= ss <= 59 ->
  in_bounds (utc y m d hh mm ss) = true ->
  to_datetime (stamp y m d hh mm ss) = Ok (utc y m d hh mm ss).
Proof.
  intros Hy Hm Hd Hh Hmi Hs Hb.
  assert (Hd31 : 1 <= d <= 31).
  { unfold days_in_month in Hd.
    destruct (m =? 2); [destruct (is_leap y); lia|].
    destruct ((m =? 4) || (m =? 6) || (m =? 9) || (m =? 11)); lia. }
  unfold to_datetime. rewrite (match_stamp y m d hh mm ss) by assumption.
  cbn [truthy]. unfold directive.
  cbn [lookup String.eqb Ascii.eqb Bool.eqb].
  rewrite (int_pad4 y), !int_pad2 by lia.
  replace (y <? 1) with false by (symmetry; apply Z.ltb_ge; lia).
  replace (days_in_month y m <? d) with false
    by (symmetry; apply Z.ltb_ge; lia).
  cbn [orb]. now rewrite Hb.
Qed.

(** *** The stamp [strftime] writes *)

Lemma field_of_date (t : Timestamp) (y m d : Z) (c : ascii) :
  civil_from_days (t / 86400) = (y, m, d) ->
  field t c
  = if Ascii.eqb c "Y" then Some (pad4 y)
    else if Ascii.eqb c "m" then Some (pad2 m)
    else if Ascii.eqb c "d" then Some (pad2 d)
    else if Ascii.eqb c "H" then Some (pad2 (t mod 86400 / 3600))
    else if Ascii.eqb c "M" then Some (pad2 (t mod 86400 mod 3600 / 60))
    else if Ascii.eqb c "S" then Some (pad2 (t mod 86400 mod 60))
    else None.
Proof. intros E. unfold field. now rewrite E. Qed.

Lemma strftime_directive (t : Timestamp) (d : ascii) (rest f : string) :
  field t d = Some f ->
  strftime (String "%" (String d rest)) t = (f ++ strftime rest t)%string.
Proof. intros H. cbn [strftime Ascii.eqb Bool.eqb]. now rewrite H. Qed.

Lemma strftime_char (t : Timestamp) (c : ascii) (rest : string) :
  Ascii.eqb c "%" = false ->
  strftime (String c rest) t = String c (strftime rest t).
Proof.
  intros H. destruct rest as [|d rest]; [reflexivity|].
  cbn [strftime]. now rewrite H.
Qed.

Lemma strftime_stamp (t : Timestamp) (y m d : Z) :
  civil_from_days (t / 86400) = (y, m, d) ->
  strftime "%Y%m%d_%H%M%S" t
  = stamp y m d (t mod 86400 / 3600) (t mod 86400 mod 3600 / 60)
          (t mod 86400 mod 60).
Proof.
  intros E.
  rewrite (strftime_directive t "Y" "%m%d_%H%M%S" (pad4 y))
    by (now rewrite (field_of_date t y m d _ E)).
  rewrite (strftime_directive t "m" "%d_%H%M%S" (pad2 m))
    by (now rewrite (field_of_date t y m d _ E)).
  rewrite (strftime_directive t "d" "_%H%M%S" (pad2 d))
    by (now rewrite (field_of_date t y m d _ E)).
  rewrite (strftime_char t "_" "%H%M%S") by reflexivity.
  rewrite (strftime_directive t "H" "%M%S" (pad2 (t mod 86400 / 3600)))
    by (now rewrite (field_of_date t y m d _ E)).
  rewrite (strftime_directive t "M" "%S"
             (pad2 (t mod 86400 mod 3600 / 60)))
    by (now rewrite (field_of_date t y m d _ E)).
  rewrite (strftime_directive t "S" "" (pad2 (t mod 86400 mod 60)))
    by (now rewrite (field_of_date t y m d _ E)).
  cbn [strftime]. rewrite sapp_nil_r. reflexivity.
Qed.

Lemma time_of_day (t : Z) :
  0 <= t mod 86400 / 3600 <= 23
  /\ 0 <= t mod 86400 mod 3600 / 60 <= 59
  /\ 0 <= t mod 86400 mod 60 <= 59
  /\ t mod 86400 / 3600 * 3600 + t mod 86400 mod 3600 / 60 * 60
     + t mod 86400 mod 60 = t mod 86400.
Proof.
  pose proof (Z.mod_pos_bound t 86400 ltac:(lia)) as H.
  set (s := t mod 86400) in *.
  pose proof (Z.div_mod s 3600 ltac:(lia)) as D1.
  pose proof (Z.mod_pos_bound s 3600 ltac:(lia)) as B1.
  pose proof (Z.div_mod (s mod 3600) 60 ltac:(lia)) as D2.
  pose proof (Z.mod_pos_bound (s mod 3600) 60 ltac:(lia)) as B2.
  assert (E : s mod 3600 mod 60 = s mod 60).
  { apply Z.mod_mod_divide. exists 60. reflexivity. }
  assert (0 <= s / 3600 < 24)
    by (split; [apply Z.div_pos; lia | apply Z.div_lt_upper_bound; lia]).
  assert (0 <= s mod 3600 / 60 < 60)
    by (split; [apply Z.div_pos; lia | apply Z.div_lt_upper_bound; lia]).
  pose proof (Z.mod_pos_bound s 60 ltac:(lia)) as B3.
  rewrite E in D2. lia.
Qed.

(** The text [strftime] writes for a timestamp in range is read back
    by [to_datetime] as that timestamp. *)
Lemma to_datetime_strftime (t : Timestamp) :
  in_bounds t = true ->
  to_datetime (strftime "%Y%m%d_%H%M%S" t) = Ok t.
Proof.
  intros Hb.
  pose proof (civil_ok_in_range _ (in_bounds_day t Hb)) as Hc.
  unfold civil_ok in Hc.
  destruct (civil_from_days (t / 86400)) as [[y m] d] eqn:E.
  repeat (apply andb_true_iff in Hc as [Hc ?]).
  repeat match goal with
         | H : (_ <=? _) = true |- _ => apply Z.leb_le in H
         | H : (_ =? _) = true |- _ => apply Z.eqb_eq in H
         end.
  destruct (time_of_day t) as (Hh & Hm & Hs & Hsum).
  assert (Hutc : utc y m d (t mod 86400 / 3600) (t mod 86400 mod 3600 / 60)
                     (t mod 86400 mod 60) = t).
  { unfold utc.
    match goal with H : days_from_civil y m d = _ |- _ => rewrite H end.
    pose proof (Z.div_mod t 86400 ltac:(lia)). lia. }
  rewrite (strftime_stamp t y m d E), to_datetime_stamp; try lia.
  - now rewrite Hutc.
  - now rewrite Hutc.
Qed.

(** *** The path of a written file *)

Lemma digit_not_underscore (c : ascii) :
  is_digit c = true -> Ascii.eqb "_" c = false.
Proof. by_cases_on_char c. Qed.

Lemma digit_not_slash (c : ascii) :
  is_digit c = true -> Ascii.eqb "/" c = false.
Proof. by_cases_on_char c. Qed.

Lemma digit_not_dot (c : ascii) :
  is_digit c = true -> Ascii.eqb c "." = false.
Proof. by_cases_on_char c. Qed.

Lemma split_scan_digits (ds r : string) (b : nat) :
  all is_digit ds = true ->
  forall cur,
    split_scan "_" (S b) 0 cur (ds ++ "_" ++ r)
    = (cur ++ ds)%string :: split_scan "_" b 0 "" r.
Proof.
  induction ds as [|c ds IH]; intros H cur.
  - cbn. now rewrite sapp_nil_r.
  - cbn [all] in H. apply andb_true_iff in H as [Hc H].
    change (String c ds ++ "_" ++ r)%string with (String c (ds ++ "_" ++ r)).
    cbn [split_scan drop_prefix]. rewrite (digit_not_underscore c Hc).
    rewrite (IH H), sapp_assoc. reflexivity.
Qed.

Lemma stamp_parts (y m d hh mm ss : Z) :
  exists ds1 ds2,
    stamp y m d hh mm ss = (ds1 ++ "_" ++ ds2)%string
    /\ all is_digit ds1 = true /\ all is_digit ds2 = true
    /\ ds1 <> "".
Proof.
  exists (pad4 y ++ pad2 m ++ pad2 d)%string,
         (pad2 hh ++ pad2 mm ++ pad2 ss)%string.
  split; [reflexivity|]. split; [|split].
  - now rewrite !all_app, pad4_digits, !pad2_digits.
  - now rewrite !all_app, !pad2_digits.
  - unfold pad4. discriminate.
Qed.

Lemma date_of_stamped_name (stp rest : string) (y m d hh mm ss : Z) :
  stp = stamp y m d hh mm ss ->
  join "_" (firstn 2 (split_max "_" 2 (stp ++ "_" ++ rest))) = stp.
Proof.
  intros ->. destruct (stamp_parts y m d hh mm ss)
    as (ds1 & ds2 & -> & H1 & H2 & _).
  unfold split_max. rewrite !sapp_assoc.
  rewrite (split_scan_digits ds1 _ 1 H1), (split_scan_digits ds2 _ 0 H2).
  rewrite split_scan_spent. reflexivity.
Qed.

Lemma file_date_in_dir (name : string) :
  file_date (DIR_NAME ++ "/" ++ name)
  = to_datetime (join "_" (firstn 2 (split_max "_" 2 name))).
Proof.
  unfold file_date, split_max at 1, DIR_NAME.
  cbn -[split_max to_datetime join firstn split_scan].
  cbn [split_scan append drop_prefix Ascii.eqb Bool.eqb String.length
       Nat.sub].
  rewrite split_scan_spent. reflexivity.
Qed.

Lemma has_char_app (a : ascii) (s r : string) :
  has_char a (s ++ r) = has_char a s || has_char a r.
Proof.
  induction s as [|c s IH]; [reflexivity|]. simpl.
  now rewrite IH, orb_assoc.
Qed.

Lemma has_slash_digits (s : string) :
  all is_digit s = true -> has_char "/" s = false.
Proof.
  induction s as [|c s IH]; [reflexivity|]. cbn [all has_char].
  intros H. apply andb_true_iff in H as [Hc H].
  now rewrite (digit_not_slash c Hc), (IH H).
Qed.

Lemma ends_with_app (suffix s : string) : ends_with suffix (s ++ suffix) = true.
Proof.
  induction s as [|c s IH].
  - destruct suffix; simpl; [reflexivity|].
    now rewrite Ascii.eqb_refl, String.eqb_refl.
  - cbn [append ends_with]. rewrite IH. apply orb_true_r.
Qed.

(** The path of the file of a video whose id holds no slash is one
    [glob] returns. *)
Lemma csv_path_glob (item : SearchItem) :
  has_char "/" (videoId item) = false -> glob_match (csv_path item) = true.
Proof.
  intros Hv. set (t := publishedAt item).
  destruct (civil_from_days (t / 86400)) as [[y m] d] eqn:E.
  pose proof (strftime_stamp t y m d E) as Hs.
  unfold glob_match, csv_path. fold t.
  change (drop_prefix (DIR_NAME ++ "/")
            (DIR_NAME ++ "/" ++ strftime "%Y%m%d_%H%M%S" t ++ "_"
             ++ videoId item ++ ".csv"))
    with (Some (strftime "%Y%m%d_%H%M%S" t ++ "_" ++ videoId item
                ++ ".csv")%string).
  rewrite Hs.
  destruct (stamp_parts y m d (t mod 86400 / 3600)
              (t mod 86400 mod 3600 / 60) (t mod 86400 mod 60))
    as (ds1 & ds2 & -> & H1 & H2 & Hne).
  apply andb_true_iff. split; [apply andb_true_iff; split|].
  - rewrite !has_char_app, (has_slash_digits _ H1),
      (has_slash_digits _ H2), Hv. reflexivity.
  - replace ((ds1 ++ "_" ++ ds2) ++ "_" ++ videoId item ++ ".csv")%string
      with ((((ds1 ++ "_" ++ ds2) ++ "_") ++ videoId item) ++ ".csv")%string
      by (now rewrite !sapp_assoc).
    apply ends_with_app.
  - destruct ds1 as [|c ds1]; [congruence|].
    cbn [all] in H1. apply andb_true_iff in H1 as [Hc _].
    cbn [append]. now rewrite (digit_not_dot c Hc).
Qed.

(** The files after a write that the scan lists hold the path written,
    when it is one [glob] returns. *)
Lemma glob_after_write (path : string) (rows : list Row)
      (fs : list (string * list Row)) :
  glob_match path = true -> In path (glob_paths (write_file path rows fs)).
Proof.
  intros Hg. unfold glob_paths. apply filter_In. split; [|exact Hg].
  apply in_map_iff. exists (path, rows).
  split; [reflexivity | apply FileFacts.write_file_has_path].
Qed.

End StampFacts.

(* ================================================================== *)
(** ** Properties of the names of the written files *)

Section StampProperties.
Import StrFacts ReFacts CrawlerFacts FileFacts StampFacts More Samples.

(** X12. The name of the file written for a video carries its upload
    time: for every video whose timestamp is in the range of a
    [Timestamp], the date the scan reads from the path of its file is
    that timestamp, whatever the video id is; and when the id holds no
    slash the path is one [glob] returns. *)
Theorem written_file_is_read_back :
  forall item : SearchItem,
    in_bounds (publishedAt item) = true ->
    file_date (csv_path item) = Ok (publishedAt item)
    /\ (has_char "/" (videoId item) = false ->
        glob_match (csv_path item) = true).
Proof.
  intros item Hb. set (t := publishedAt item) in *.
  destruct (civil_from_days (t / 86400)) as [[y m] d] eqn:E.
  pose proof (strftime_stamp t y m d E) as Hs.
  split.
  - unfold csv_path. fold t. rewrite file_date_in_dir.
    rewrite (date_of_stamped_name _ _ _ _ _ _ _ _ Hs).
    now apply to_datetime_strftime.
  - apply csv_path_glob.
Qed.

Lemma written_file_is_read_back_witness :
  file_date (csv_path video1) = Ok (publishedAt video1)
  /\ glob_match (csv_path video1) = true.
Proof.
  destruct (written_file_is_read_back video1 eq_refl) as [H1 H2].
  split; [exact H1 | exact (H2 eq_refl)].
Defined.

(** X13. A written file enters the next scan without breaking it:
    when every file of the directory has a date, the scan of the
    directory with the file of one more video (timestamp in range, no
    slash in the id) returns bounds, and the upload time of that video
    lies between them. *)
Theorem written_file_enters_the_next_scan :
  forall (fs : list (string * list Row)) (item : SearchItem)
         (rows : list Row),
    (forall p, In p (glob_paths fs) -> exists d, file_date p = Ok d) ->
    in_bounds (publishedAt item) = true ->
    has_char "/" (videoId item) = false ->
    exists e,
      extreme_of (glob_paths (write_file (csv_path item) rows fs))
      = Ok (Some e)
      /\ (oldest e <= publishedAt item <= last e)%Z.
Proof.
  intros fs item rows Hall Hb Hv.
  destruct (written_file_is_read_back item Hb) as [Hd Hg].
  specialize (Hg Hv).
  assert (Hin : In (csv_path item)
                   (glob_paths (write_file (csv_path item) rows fs))).
  { unfold glob_paths. apply filter_In. split; [|exact Hg].
    apply in_map_iff. exists (csv_path item, rows).
    split; [reflexivity | apply write_file_has_path]. }
  destruct (extreme_of_total
              (glob_paths (write_file (csv_path item) rows fs)))
    as [e He].
  - intros p Hp. unfold glob_paths in Hp. apply filter_In in Hp as [Hp Hgp].
    apply write_file_paths_from in Hp as [-> | Hp].
    + now exists (publishedAt item).
    + apply Hall. unfold glob_paths. apply filter_In. now split.
  - intros H. rewrite H in Hin. contradiction.
  - exists e. split; [exact He|].
    destruct (extreme_of_some _ _ He) as (A & _).
    destruct (A _ Hin) as (d & Hd' & B). congruence.
Qed.

Lemma written_file_enters_the_next_scan_witness :
  exists e,
    extreme_of (glob_paths
                  (write_file (csv_path video1) []
                     [("by_title/20180601_000000_old.csv", [])]))
    = Ok (Some e)
    /\ (oldest e <= publishedAt video1 <= last e)%Z.
Proof.
  apply (written_file_enters_the_next_scan
           [("by_title/20180601_000000_old.csv", [])] video1 []).
  - intros p Hp. vm_compute in Hp. destruct Hp as [<- | []].
    eexists. vm_compute. reflexivity.
  - reflexivity.
  - reflexivity.
Defined.

End StampProperties.

(* ================================================================== *)
(** ** The file of a video *)

Section RecordProperties.
Import CrawlerFacts FileFacts StampFacts More Samples.

(** C5. For each item of a page whose video id holds no slash, so
    that its file lies in the directory itself, a file is written for
    the video exactly when [get_asr_caption_id] returns a (truthy) track
    identifier and [get_subtitles] returns at least one line; otherwise
    the files are left as they were; when a file is written, the write
    is the last event of the step for that video, the directory then
    holds the file of the video with one row per line, the file is one
    the scan lists, and it is in place when the step for the next item
    starts. *)
Theorem record_written_iff_track_and_lines :
  forall (client : Client) (item : SearchItem) (rest : list SearchItem)
         (w : World),
    has_char "/" (videoId item) = false ->
    let resolved := get_asr_caption_id client (videoId item) w in
    let out := process_item client item w in
    exists evs,
      trace (snd out) = trace w ++ evs
      /\ ((exists path rows, In (ToCsv path rows) evs)
          <-> exists cid lines,
                fst resolved = Ok (Some cid) /\ truthy cid = true
                /\ fst (get_subtitles client cid (snd resolved)) = Ok lines
                /\ lines <> [])
      /\ ((forall path rows, ~ In (ToCsv path rows) evs) ->
          files (snd out) = files w)
      /\ (forall path rows,
            In (ToCsv path rows) evs ->
            exists cid lines,
              fst (get_subtitles client cid (snd resolved)) = Ok lines
              /\ evs = [CaptionsList (videoId item); CaptionsDownload cid;
                        ToCsv (csv_path item) (csv_rows item lines)]
              /\ fst out = Ok tt
              /\ files (snd out)
                 = write_file (csv_path item) (csv_rows item lines) (files w)
              /\ In (csv_path item, csv_rows item lines) (files (snd out))
              /\ In (csv_path item) (glob (snd out)))
      /\ process_items client (item :: rest) w
         = match fst out with
           | Ok _ => process_items client rest (snd out)
           | Raise e => (Raise e, snd out)
           end.
Proof.
  intros client item rest w Hid resolved out.
  assert (Hnext : process_items client (item :: rest) w
                  = match fst out with
                    | Ok _ => process_items client rest (snd out)
                    | Raise e => (Raise e, snd out)
                    end).
  { rewrite process_items_cons. unfold out.
    now destruct (process_item client item w) as [[u|e] w1]. }
  unfold out in *. clear out. unfold resolved. clear resolved.
  rewrite get_asr_caption_id_eq, process_item_eq in *. cbv zeta in *.
  cbn [fst snd].
  destruct (asr_result client (videoId item)) as [[cid|]|e] eqn:Ea.
  - destruct (truthy cid) eqn:Et.
    + destruct (subtitles_result client cid) as [[|l ls]|e] eqn:Es.
      * exists [CaptionsList (videoId item); CaptionsDownload cid].
        split; [simpl; now rewrite <- app_assoc|].
        split; [|split; [|split]]; auto.
        -- split.
           ++ intros (path & rows & [H|[H|[]]]); discriminate.
           ++ intros (c & lines & Hc & _ & Hl & Hne). inversion Hc; subst c.
              rewrite get_subtitles_eq in Hl. simpl in Hl.
              rewrite Es in Hl. inversion Hl; subst. congruence.
        -- intros path rows [H|[H|[]]]; discriminate.
      * exists [CaptionsList (videoId item); CaptionsDownload cid;
                ToCsv (csv_path item) (csv_rows item (l :: ls))].
        split; [simpl; now rewrite <- !app_assoc|].
        split; [|split; [|split]]; auto.
        -- split.
           ++ intros _. exists cid, (l :: ls).
              rewrite get_subtitles_eq. simpl. rewrite Es.
              repeat split; auto. discriminate.
           ++ intros _. do 2 eexists. right. right. now left.
        -- intros H. exfalso. apply (H (csv_path item)
                                         (csv_rows item (l :: ls))).
           right. right. now left.
        -- intros path rows _. exists cid, (l :: ls).
           rewrite get_subtitles_eq. simpl. rewrite Es.
           split; [reflexivity|]. split; [reflexivity|].
           split; [reflexivity|]. split; [reflexivity|]. split.
           ++ apply write_file_has_path.
           ++ unfold glob. cbn [files].
              apply glob_after_write. now apply csv_path_glob.
      * exists [CaptionsList (videoId item); CaptionsDownload cid].
        split; [simpl; now rewrite <- app_assoc|].
        split; [|split; [|split]]; auto.
        -- split.
           ++ intros (path & rows & [H|[H|[]]]); discriminate.
           ++ intros (c & lines & Hc & _ & Hl & Hne). inversion Hc; subst c.
              rewrite get_subtitles_eq in Hl. simpl in Hl.
              rewrite Es in Hl. discriminate.
        -- intros path rows [H|[H|[]]]; discriminate.
    + exists [CaptionsList (videoId item)].
      split; [reflexivity|]. split; [|split; [|split]]; auto.
      * split.
        -- intros (path & rows & [H|[]]); discriminate.
        -- intros (c & lines & Hc & Ht & _). inversion Hc; subst c. congruence.
      * intros path rows [H|[]]; discriminate.
  - exists [CaptionsList (videoId item)].
    split; [reflexivity|]. split; [|split; [|split]]; auto.
    + split.
      * intros (path & rows & [H|[]]); discriminate.
      * intros (c & lines & Hc & _). discriminate.
    + intros path rows [H|[]]; discriminate.
  - exists [CaptionsList (videoId item)].
    split; [reflexivity|]. split; [|split; [|split]]; auto.
    + split.
      * intros (path & rows & [H|[]]); discriminate.
      * intros (c & lines & Hc & _). discriminate.
    + intros path rows [H|[]]; discriminate.
Qed.

Lemma record_written_iff_track_and_lines_witness :
  exists lines,
    In (csv_path video1, csv_rows video1 lines)
       (files (snd (process_item two_pages video1 (fresh false false []))))
    /\ In (csv_path video1)
          (glob (snd (process_item two_pages video1 (fresh false false [])))).
Proof.
  destruct (record_written_iff_track_and_lines
              two_pages video1 [video2] (fresh false false []) eq_refl)
    as (evs & T & I & _ & W & _).
  destruct (proj2 I) as (path & rows & Hin).
  { exists "cvid1", (parse hello_srt).
    repeat split; try reflexivity. vm_compute. discriminate. }
  destruct (W path rows Hin) as (cid & lines & _ & _ & _ & _ & Hf & Hg).
  exists lines. split; [exact Hf | exact Hg].
Defined.

End RecordProperties.
